(* ===================================================================== *)
(* 0xDomainSnapshot backend: a shallow embedding of the collection and   *)
(* reconciliation pipeline.                                              *)
(*                                                                       *)
(*   internal/collector        Domain, DNSRecord, CollectorResult        *)
(*   internal/merger           MergeDomains, MergeDNSRecords             *)
(*   internal/scheduler        SyncLock.TryAcquire / Release,            *)
(*                             Scheduler.runCollector                    *)
(*   internal/service          SyncService.RunCollector                  *)
(*   internal/collector/dns    GoDaddyCollector, IsTestDomain            *)
(*   pkg/httpclient            Client.DoWithRetry                        *)
(*                                                                       *)
(* The PostgreSQL store is a record of three tables (lists of rows).     *)
(* Everything the Go code reads from its environment is an explicit      *)
(* oracle: the wall clock, the faults of the database connection, the    *)
(* answers of the upstream HTTP API.                                     *)
(* ===================================================================== *)

From Stdlib Require Import List String Ascii ZArith Bool Arith Lia.
From Stdlib Require Import Permutation.
Import ListNotations.
Open Scope string_scope.
Open Scope list_scope.

(* ===================================================================== *)
(* 1. Time                                                               *)
(* ===================================================================== *)

(* A time.Time: an instant (seconds since the Unix epoch) together with
   the offset, in seconds east of UTC, of the Location it carries.
   time.Now() carries the process's Local location. *)
Record GoTime : Type := mkTime {
  unix_sec : Z;
  zone_offset : Z
}.

(* A calendar date is represented by its day number (days since
   1970-01-01); the order of day numbers is the order of DATE values and
   of the "2006-01-02" strings. *)
Definition Date := Z.

Definition seconds_per_day : Z := 86400.

(* t.Format("2006-01-02"): the calendar date of t in t's own Location. *)
Definition Format_date (t : GoTime) : Date :=
  ((unix_sec t + zone_offset t) / seconds_per_day)%Z.

(* t.UTC().Format("2006-01-02"): the calendar date of t in UTC. *)
Definition UTC_date (t : GoTime) : Date :=
  (unix_sec t / seconds_per_day)%Z.

(* ===================================================================== *)
(* 2. internal/collector: the normalized records                         *)
(* ===================================================================== *)

(* map[string]interface{} payloads are kept opaque: the JSON text that
   json.Marshal produces for them. A nil map is None. *)
Definition RawData := option string.

Record Domain : Type := mkDomain {
  d_Domain : string;
  d_Registrar : string;
  d_Status : string;
  d_ExpiryDate : option GoTime;
  d_DiscoveryDate : GoTime;
  d_LastSeen : GoTime;
  d_RawData : RawData
}.

Record DNSRecord : Type := mkDNSRecord {
  r_Domain : string;
  r_Subdomain : string;
  r_RecordType : string;
  r_Data : string;
  r_TTL : Z;
  r_Priority : Z;
  r_Source : string;
  r_Status : string;
  r_DiscoveryDate : GoTime;
  r_LastSeen : GoTime;
  r_RawData : RawData
}.

(* ===================================================================== *)
(* 3. The inventory store                                                *)
(* ===================================================================== *)

Inductive RowStatus : Type := active | removed.

Definition RowStatus_eqb (a b : RowStatus) : bool :=
  match a, b with
  | active, active => true
  | removed, removed => true
  | _, _ => false
  end.

(* Table domains. *)
Record DomainRow : Type := mkDomainRow {
  dom_id : nat;
  dom_domain : string;
  dom_registrar : string;
  dom_status : RowStatus;
  dom_expiry_date : option GoTime;
  dom_discovery_date : Date;
  dom_last_seen : Date;
  dom_raw_data : RawData;
  dom_created_at : Z;
  dom_updated_at : Z
}.

(* Table dns_records. *)
Record DNSRow : Type := mkDNSRow {
  dns_id : nat;
  dns_domain : string;
  dns_subdomain : string;
  dns_record_type : string;
  dns_data : string;
  dns_ttl : Z;
  dns_priority : Z;
  dns_source : string;
  dns_status : RowStatus;
  dns_discovery_date : Date;
  dns_last_seen : Date;
  dns_raw_data : RawData;
  dns_created_at : Z;
  dns_updated_at : Z
}.

Inductive SyncState : Type := running | completed | failed.

Definition SyncState_eqb (a b : SyncState) : bool :=
  match a, b with
  | running, running => true
  | completed, completed => true
  | failed, failed => true
  | _, _ => false
  end.

(* Table sync_status. *)
Record SyncRow : Type := mkSyncRow {
  sync_id : nat;
  sync_collector_name : string;
  sync_service_type : string;
  sync_status : SyncState;
  sync_trigger_type : string;
  sync_started_at : Z;
  sync_completed_at : option Z;
  sync_records_found : Z;
  sync_records_added : Z;
  sync_records_updated : Z;
  sync_records_removed : Z;
  sync_error_message : option string
}.

(* The committed state of the database. next_id stands for
   uuid_generate_v4(): the next value is fresh. idx_sync_running records
   whether the schema in force has the partial unique index
   idx_sync_running ON sync_status(collector_name) WHERE status='running'. *)
Record DB : Type := mkDB {
  domains : list DomainRow;
  dns_records : list DNSRow;
  sync_rows : list SyncRow;
  next_id : nat;
  idx_sync_running : bool
}.

(* What the process observes of its environment, indexed by the number of
   steps (database round trips) taken so far:
   - clock t     : the value time.Now() returns at step t;
   - db_now t    : the value SQL NOW() has for a statement run at step t;
   - db_fault t  : whether the database round trip at step t fails
                   (connection loss, cancelled context, a constraint of
                   the column types, ...). *)
Record Env : Type := mkEnv {
  clock : nat -> GoTime;
  db_now : nat -> Z;
  db_fault : nat -> bool
}.

(* The process's view: the committed database and the step counter. *)
Record World : Type := mkWorld {
  w_db : DB;
  w_tick : nat
}.

(* ===================================================================== *)
(* 4. database/sql transactions                                          *)
(* ===================================================================== *)

(* An open *sql.Tx. Statements run through the Tx edit tx_work only;
   Commit publishes tx_work as the committed state; Rollback drops it.
   After Commit or Rollback the Tx is done and a later Rollback (the
   deferred one) does nothing. *)
Record Tx : Type := mkTx {
  tx_committed : DB;
  tx_work : DB;
  tx_done : bool;
  tx_tick : nat
}.

Definition tx_step (tx : Tx) : Tx :=
  mkTx (tx_committed tx) (tx_work tx) (tx_done tx) (S (tx_tick tx)).

Definition tx_set_work (tx : Tx) (db : DB) : Tx :=
  mkTx (tx_committed tx) db (tx_done tx) (tx_tick tx).

(* m.db.BeginTx(ctx, nil) *)
Definition db_BeginTx (env : Env) (w : World) : option Tx * World :=
  if db_fault env (w_tick w)
  then (None, mkWorld (w_db w) (S (w_tick w)))
  else (Some (mkTx (w_db w) (w_db w) false (S (w_tick w))),
        mkWorld (w_db w) (S (w_tick w))).

(* tx.Commit(): true when err == nil. *)
Definition tx_Commit (env : Env) (tx : Tx) : bool * Tx :=
  if tx_done tx then (false, tx_step tx)
  else if db_fault env (tx_tick tx)
  then (false, mkTx (tx_committed tx) (tx_committed tx) true (S (tx_tick tx)))
  else (true, mkTx (tx_work tx) (tx_work tx) true (S (tx_tick tx))).

(* tx.Rollback() *)
Definition tx_Rollback (tx : Tx) : Tx :=
  if tx_done tx then tx
  else mkTx (tx_committed tx) (tx_committed tx) true (tx_tick tx).

(* What the process is left with when the function that opened tx returns. *)
Definition tx_close (tx : Tx) : World :=
  mkWorld (tx_committed tx) (tx_tick tx).

(* time.Now(): the clock as it stands at the current step. *)
Definition time_Now (env : Env) (t : nat) : GoTime := clock env t.

(* The three outcomes of QueryRowContext(...).Scan(&id):
   err == nil, err == sql.ErrNoRows, any other error. *)
Inductive ScanResult : Type :=
| ScanRow (id : nat)
| ScanErrNoRows
| ScanErr.

(* ---------------- statements on table domains ---------------- *)

(* WHERE domain = $1 AND registrar = $2 *)
Definition domain_matches (name src : string) (r : DomainRow) : bool :=
  String.eqb (dom_domain r) name && String.eqb (dom_registrar r) src.

Definition set_domains (db : DB) (rows : list DomainRow) : DB :=
  mkDB rows (dns_records db) (sync_rows db) (next_id db) (idx_sync_running db).

(* SELECT id FROM domains WHERE domain = $1 AND registrar = $2 *)
Definition select_domain_id (name src : string) (rows : list DomainRow) : option nat :=
  option_map dom_id (find (domain_matches name src) rows).

Definition tx_QueryRow_domain_id (env : Env) (name src : string) (tx : Tx)
  : ScanResult * Tx :=
  if db_fault env (tx_tick tx) then (ScanErr, tx_step tx)
  else match select_domain_id name src (domains (tx_work tx)) with
       | Some id => (ScanRow id, tx_step tx)
       | None => (ScanErrNoRows, tx_step tx)
       end.

(* INSERT INTO domains (domain, registrar, status, expiry_date,
     discovery_date, last_seen, raw_data)
   VALUES ($1, $2, 'active', $3, $4, $4, $5) *)
Definition new_domain_row (id : nat) (name src : string) (expiry : option GoTime)
  (today : Date) (raw : RawData) (now : Z) : DomainRow :=
  mkDomainRow id name src active expiry today today raw now now.

Definition insert_domain (name src : string) (expiry : option GoTime)
  (today : Date) (raw : RawData) (now : Z) (db : DB) : DB :=
  mkDB (domains db ++ [new_domain_row (next_id db) name src expiry today raw now])
       (dns_records db) (sync_rows db) (S (next_id db)) (idx_sync_running db).

(* The statement fails on a connection fault and on a violation of
   UNIQUE(domain, registrar). *)
Definition tx_Exec_insert_domain (env : Env) (name src : string)
  (expiry : option GoTime) (today : Date) (raw : RawData) (tx : Tx) : bool * Tx :=
  if db_fault env (tx_tick tx) then (false, tx_step tx)
  else if existsb (domain_matches name src) (domains (tx_work tx))
  then (false, tx_step tx)
  else (true, tx_step (tx_set_work tx
          (insert_domain name src expiry today raw (db_now env (tx_tick tx))
             (tx_work tx)))).

(* UPDATE domains SET status = 'active', expiry_date = $1, last_seen = $2,
     raw_data = $3, updated_at = NOW() WHERE id = $4 *)
Definition touch_domain_row (expiry : option GoTime) (today : Date)
  (raw : RawData) (now : Z) (r : DomainRow) : DomainRow :=
  mkDomainRow (dom_id r) (dom_domain r) (dom_registrar r) active expiry
    (dom_discovery_date r) today raw (dom_created_at r) now.

Definition update_domain (expiry : option GoTime) (today : Date) (raw : RawData)
  (now : Z) (id : nat) (rows : list DomainRow) : list DomainRow :=
  map (fun r => if Nat.eqb (dom_id r) id
                then touch_domain_row expiry today raw now r else r) rows.

Definition tx_Exec_update_domain (env : Env) (expiry : option GoTime)
  (today : Date) (raw : RawData) (id : nat) (tx : Tx) : bool * Tx :=
  if db_fault env (tx_tick tx) then (false, tx_step tx)
  else (true, tx_step (tx_set_work tx
          (set_domains (tx_work tx)
             (update_domain expiry today raw (db_now env (tx_tick tx)) id
                (domains (tx_work tx)))))).

(* UPDATE domains SET status = 'removed', updated_at = NOW()
   WHERE registrar = $1 AND status = 'active' AND last_seen < $2 *)
Definition domain_is_stale (src : string) (today : Date) (r : DomainRow) : bool :=
  String.eqb (dom_registrar r) src
  && RowStatus_eqb (dom_status r) active
  && Z.ltb (dom_last_seen r) today.

Definition bury_domain_row (now : Z) (r : DomainRow) : DomainRow :=
  mkDomainRow (dom_id r) (dom_domain r) (dom_registrar r) removed
    (dom_expiry_date r) (dom_discovery_date r) (dom_last_seen r)
    (dom_raw_data r) (dom_created_at r) now.

Definition mark_removed_domains (src : string) (today : Date) (now : Z)
  (rows : list DomainRow) : list DomainRow :=
  map (fun r => if domain_is_stale src today r then bury_domain_row now r else r) rows.

(* Some n: the statement ran and RowsAffected() is n. *)
Definition tx_Exec_mark_removed_domains (env : Env) (src : string) (today : Date)
  (tx : Tx) : option nat * Tx :=
  if db_fault env (tx_tick tx) then (None, tx_step tx)
  else (Some (List.length (filter (domain_is_stale src today) (domains (tx_work tx)))),
        tx_step (tx_set_work tx
          (set_domains (tx_work tx)
             (mark_removed_domains src today (db_now env (tx_tick tx))
                (domains (tx_work tx)))))).

(* ---------------- statements on table dns_records ---------------- *)

(* WHERE domain = $1 AND subdomain = $2 AND record_type = $3
     AND data = $4 AND source = $5 *)
Definition record_matches (dom sub typ dat src : string) (r : DNSRow) : bool :=
  String.eqb (dns_domain r) dom && String.eqb (dns_subdomain r) sub
  && String.eqb (dns_record_type r) typ && String.eqb (dns_data r) dat
  && String.eqb (dns_source r) src.

Definition set_dns_records (db : DB) (rows : list DNSRow) : DB :=
  mkDB (domains db) rows (sync_rows db) (next_id db) (idx_sync_running db).

Definition select_record_id (dom sub typ dat src : string) (rows : list DNSRow)
  : option nat :=
  option_map dns_id (find (record_matches dom sub typ dat src) rows).

Definition tx_QueryRow_record_id (env : Env) (dom sub typ dat src : string)
  (tx : Tx) : ScanResult * Tx :=
  if db_fault env (tx_tick tx) then (ScanErr, tx_step tx)
  else match select_record_id dom sub typ dat src (dns_records (tx_work tx)) with
       | Some id => (ScanRow id, tx_step tx)
       | None => (ScanErrNoRows, tx_step tx)
       end.

(* INSERT INTO dns_records (domain, subdomain, record_type, data, ttl,
     priority, source, status, discovery_date, last_seen, raw_data)
   VALUES ($1, $2, $3, $4, $5, $6, $7, 'active', $8, $8, $9) *)
Definition new_dns_row (id : nat) (dom sub typ dat : string) (ttl prio : Z)
  (src : string) (today : Date) (raw : RawData) (now : Z) : DNSRow :=
  mkDNSRow id dom sub typ dat ttl prio src active today today raw now now.

Definition insert_record (dom sub typ dat : string) (ttl prio : Z) (src : string)
  (today : Date) (raw : RawData) (now : Z) (db : DB) : DB :=
  mkDB (domains db)
       (dns_records db ++ [new_dns_row (next_id db) dom sub typ dat ttl prio src today raw now])
       (sync_rows db) (S (next_id db)) (idx_sync_running db).

(* Fails on a connection fault and on a violation of
   UNIQUE(domain, subdomain, record_type, data, source). *)
Definition tx_Exec_insert_record (env : Env) (dom sub typ dat : string)
  (ttl prio : Z) (src : string) (today : Date) (raw : RawData) (tx : Tx)
  : bool * Tx :=
  if db_fault env (tx_tick tx) then (false, tx_step tx)
  else if existsb (record_matches dom sub typ dat src) (dns_records (tx_work tx))
  then (false, tx_step tx)
  else (true, tx_step (tx_set_work tx
          (insert_record dom sub typ dat ttl prio src today raw
             (db_now env (tx_tick tx)) (tx_work tx)))).

(* UPDATE dns_records SET status = 'active', ttl = $1, priority = $2,
     last_seen = $3, raw_data = $4, updated_at = NOW() WHERE id = $5 *)
Definition touch_dns_row (ttl prio : Z) (today : Date) (raw : RawData) (now : Z)
  (r : DNSRow) : DNSRow :=
  mkDNSRow (dns_id r) (dns_domain r) (dns_subdomain r) (dns_record_type r)
    (dns_data r) ttl prio (dns_source r) active (dns_discovery_date r) today raw
    (dns_created_at r) now.

Definition update_record (ttl prio : Z) (today : Date) (raw : RawData) (now : Z)
  (id : nat) (rows : list DNSRow) : list DNSRow :=
  map (fun r => if Nat.eqb (dns_id r) id
                then touch_dns_row ttl prio today raw now r else r) rows.

Definition tx_Exec_update_record (env : Env) (ttl prio : Z) (today : Date)
  (raw : RawData) (id : nat) (tx : Tx) : bool * Tx :=
  if db_fault env (tx_tick tx) then (false, tx_step tx)
  else (true, tx_step (tx_set_work tx
          (set_dns_records (tx_work tx)
             (update_record ttl prio today raw (db_now env (tx_tick tx)) id
                (dns_records (tx_work tx)))))).

(* UPDATE dns_records SET status = 'removed', updated_at = NOW()
   WHERE source = $1 AND domain = $2 AND status = 'active' AND last_seen < $3 *)
Definition record_is_stale (src dom : string) (today : Date) (r : DNSRow) : bool :=
  String.eqb (dns_source r) src
  && String.eqb (dns_domain r) dom
  && RowStatus_eqb (dns_status r) active
  && Z.ltb (dns_last_seen r) today.

Definition bury_dns_row (now : Z) (r : DNSRow) : DNSRow :=
  mkDNSRow (dns_id r) (dns_domain r) (dns_subdomain r) (dns_record_type r)
    (dns_data r) (dns_ttl r) (dns_priority r) (dns_source r) removed
    (dns_discovery_date r) (dns_last_seen r) (dns_raw_data r)
    (dns_created_at r) now.

Definition mark_removed_records (src dom : string) (today : Date) (now : Z)
  (rows : list DNSRow) : list DNSRow :=
  map (fun r => if record_is_stale src dom today r then bury_dns_row now r else r) rows.

Definition tx_Exec_mark_removed_records (env : Env) (src dom : string)
  (today : Date) (tx : Tx) : option nat * Tx :=
  if db_fault env (tx_tick tx) then (None, tx_step tx)
  else (Some (List.length (filter (record_is_stale src dom today) (dns_records (tx_work tx)))),
        tx_step (tx_set_work tx
          (set_dns_records (tx_work tx)
             (mark_removed_records src dom today (db_now env (tx_tick tx))
                (dns_records (tx_work tx)))))).

(* ===================================================================== *)
(* 5. internal/merger                                                    *)
(* ===================================================================== *)

Record MergeStats : Type := mkMergeStats {
  Added : Z;
  Updated : Z;
  Removed : Z
}.

(* The error values of the merger, one per fmt.Errorf site. *)
Inductive MergeError : Type :=
| ErrBeginTransaction
| ErrQueryDomain (name : string)
| ErrInsertDomain (name : string)
| ErrUpdateDomain (name : string)
| ErrMarkRemovedDomains
| ErrQueryRecord (sub dom : string)
| ErrInsertRecord (sub dom : string)
| ErrUpdateRecord (sub dom : string)
| ErrMarkRemovedRecords (dom : string)
| ErrCommitTransaction.

Definition inc_Added (s : MergeStats) : MergeStats :=
  mkMergeStats (Added s + 1) (Updated s) (Removed s).
Definition inc_Updated (s : MergeStats) : MergeStats :=
  mkMergeStats (Added s) (Updated s + 1) (Removed s).
Definition set_Removed (s : MergeStats) (n : Z) : MergeStats :=
  mkMergeStats (Added s) (Updated s) n.
Definition add_Removed (s : MergeStats) (n : Z) : MergeStats :=
  mkMergeStats (Added s) (Updated s) (Removed s + n).

(* The body of `for _, d := range domains` in MergeDomains. The map `seen`
   the loop fills is never read by MergeDomains and is left out. *)
Fixpoint merge_domains_loop (env : Env) (source : string) (today : Date)
  (ds : list Domain) (stats : MergeStats) (tx : Tx)
  : (MergeError + MergeStats) * Tx :=
  match ds with
  | [] => (inr stats, tx)
  | d :: rest =>
      let rawJSON := d_RawData d in
      match tx_QueryRow_domain_id env (d_Domain d) source tx with
      | (ScanErrNoRows, tx1) =>
          match tx_Exec_insert_domain env (d_Domain d) source (d_ExpiryDate d)
                  today rawJSON tx1 with
          | (false, tx2) => (inl (ErrInsertDomain (d_Domain d)), tx2)
          | (true, tx2) => merge_domains_loop env source today rest (inc_Added stats) tx2
          end
      | (ScanRow existingID, tx1) =>
          match tx_Exec_update_domain env (d_ExpiryDate d) today rawJSON
                  existingID tx1 with
          | (false, tx2) => (inl (ErrUpdateDomain (d_Domain d)), tx2)
          | (true, tx2) => merge_domains_loop env source today rest (inc_Updated stats) tx2
          end
      | (ScanErr, tx1) => (inl (ErrQueryDomain (d_Domain d)), tx1)
      end
  end.

(* MergeDomains after `defer tx.Rollback()`: from time.Now() to Commit. *)
Definition merge_domains_body (env : Env) (source : string) (ds : list Domain)
  (tx : Tx) : (MergeError + MergeStats) * Tx :=
  let today := Format_date (time_Now env (tx_tick tx)) in
  match merge_domains_loop env source today ds (mkMergeStats 0 0 0) tx with
  | (inl e, tx1) => (inl e, tx1)
  | (inr stats, tx1) =>
      match tx_Exec_mark_removed_domains env source today tx1 with
      | (None, tx2) => (inl ErrMarkRemovedDomains, tx2)
      | (Some n, tx2) =>
          let stats' := set_Removed stats (Z.of_nat n) in
          match tx_Commit env tx2 with
          | (false, tx3) => (inl ErrCommitTransaction, tx3)
          | (true, tx3) => (inr stats', tx3)
          end
      end
  end.

(* Merger.MergeDomains(ctx, source, domains): the stats, or the error. *)
Definition MergeDomains (env : Env) (source : string) (ds : list Domain)
  (w : World) : (MergeError + MergeStats) * World :=
  match db_BeginTx env w with
  | (None, w1) => (inl ErrBeginTransaction, w1)
  | (Some tx, _) =>
      let (res, tx') := merge_domains_body env source ds tx in
      (* the deferred tx.Rollback() *)
      (res, tx_close (tx_Rollback tx'))
  end.

(* The body of `for _, r := range records` in MergeDNSRecords. *)
Fixpoint merge_records_loop (env : Env) (source : string) (today : Date)
  (rs : list DNSRecord) (stats : MergeStats) (tx : Tx)
  : (MergeError + MergeStats) * Tx :=
  match rs with
  | [] => (inr stats, tx)
  | r :: rest =>
      let rawJSON := r_RawData r in
      match tx_QueryRow_record_id env (r_Domain r) (r_Subdomain r)
              (r_RecordType r) (r_Data r) source tx with
      | (ScanErrNoRows, tx1) =>
          match tx_Exec_insert_record env (r_Domain r) (r_Subdomain r)
                  (r_RecordType r) (r_Data r) (r_TTL r) (r_Priority r) source
                  today rawJSON tx1 with
          | (false, tx2) => (inl (ErrInsertRecord (r_Subdomain r) (r_Domain r)), tx2)
          | (true, tx2) => merge_records_loop env source today rest (inc_Added stats) tx2
          end
      | (ScanRow existingID, tx1) =>
          match tx_Exec_update_record env (r_TTL r) (r_Priority r) today rawJSON
                  existingID tx1 with
          | (false, tx2) => (inl (ErrUpdateRecord (r_Subdomain r) (r_Domain r)), tx2)
          | (true, tx2) => merge_records_loop env source today rest (inc_Updated stats) tx2
          end
      | (ScanErr, tx1) => (inl (ErrQueryRecord (r_Subdomain r) (r_Domain r)), tx1)
      end
  end.

(* The keys of the map seenDomains once the record loop is over: every
   r.Domain of the batch, once. Go ranges over a map in an unspecified
   order; the statements of distinct domains touch disjoint rows, and the
   order taken here is the one of this list. *)
Definition seenDomains (rs : list DNSRecord) : list string :=
  nodup string_dec (map r_Domain rs).

(* `for domain := range seenDomains` *)
Fixpoint mark_removed_loop (env : Env) (source : string) (today : Date)
  (seen : list string) (stats : MergeStats) (tx : Tx)
  : (MergeError + MergeStats) * Tx :=
  match seen with
  | [] => (inr stats, tx)
  | domain :: rest =>
      match tx_Exec_mark_removed_records env source domain today tx with
      | (None, tx1) => (inl (ErrMarkRemovedRecords domain), tx1)
      | (Some n, tx1) =>
          mark_removed_loop env source today rest (add_Removed stats (Z.of_nat n)) tx1
      end
  end.

Definition merge_records_body (env : Env) (source : string) (rs : list DNSRecord)
  (tx : Tx) : (MergeError + MergeStats) * Tx :=
  let today := Format_date (time_Now env (tx_tick tx)) in
  match merge_records_loop env source today rs (mkMergeStats 0 0 0) tx with
  | (inl e, tx1) => (inl e, tx1)
  | (inr stats, tx1) =>
      match mark_removed_loop env source today (seenDomains rs) stats tx1 with
      | (inl e, tx2) => (inl e, tx2)
      | (inr stats', tx2) =>
          match tx_Commit env tx2 with
          | (false, tx3) => (inl ErrCommitTransaction, tx3)
          | (true, tx3) => (inr stats', tx3)
          end
      end
  end.

(* Merger.MergeDNSRecords(ctx, source, records): the stats, or the error. *)
Definition MergeDNSRecords (env : Env) (source : string) (rs : list DNSRecord)
  (w : World) : (MergeError + MergeStats) * World :=
  match db_BeginTx env w with
  | (None, w1) => (inl ErrBeginTransaction, w1)
  | (Some tx, _) =>
      let (res, tx') := merge_records_body env source rs tx in
      (res, tx_close (tx_Rollback tx'))
  end.

(* ===================================================================== *)
(* 6. internal/scheduler/lock.go                                         *)
(* ===================================================================== *)

(* The schema in force decides whether sync_status has the partial unique
   index. 001_initial_schema.up.sql creates it:
     CREATE UNIQUE INDEX IF NOT EXISTS idx_sync_running
       ON sync_status(collector_name) WHERE status = 'running';
   the constant migrationSQL that RunMigrations executes on an empty
   database has no such statement. *)
Definition initial_schema_up_sql : DB := mkDB [] [] [] 0 true.
Definition migrationSQL : DB := mkDB [] [] [] 0 false.

(* SyncLock.locks: the mutex of each collector name, true when held. *)
Definition Locks := list (string * bool).

Fixpoint mutex_held (locks : Locks) (name : string) : option bool :=
  match locks with
  | [] => None
  | (n, b) :: rest => if String.eqb n name then Some b else mutex_held rest name
  end.

Fixpoint mutex_set (locks : Locks) (name : string) (b : bool) : Locks :=
  match locks with
  | [] => []
  | (n, b0) :: rest =>
      if String.eqb n name then (n, b) :: rest else (n, b0) :: mutex_set rest name b
  end.

(* getLock: the mutex of the name, created unlocked when missing. *)
Definition getLock (locks : Locks) (name : string) : Locks :=
  match mutex_held locks name with
  | Some _ => locks
  | None => (name, false) :: locks
  end.

(* lock.TryLock(): true when the mutex was free, and it is now held. *)
Definition TryLock (locks : Locks) (name : string) : bool * Locks :=
  match mutex_held locks name with
  | Some true => (false, locks)
  | _ => (true, mutex_set locks name true)
  end.

(* lock.Unlock() *)
Definition Unlock (locks : Locks) (name : string) : Locks :=
  mutex_set locks name false.

Definition sync_is_running (name : string) (r : SyncRow) : bool :=
  String.eqb (sync_collector_name r) name && SyncState_eqb (sync_status r) running.

Definition set_sync_rows (db : DB) (rows : list SyncRow) : DB :=
  mkDB (domains db) (dns_records db) rows (next_id db) (idx_sync_running db).

(* SELECT id FROM sync_status WHERE collector_name = $1 AND status = 'running' *)
Definition select_running_id (name : string) (rows : list SyncRow) : option nat :=
  option_map sync_id (find (sync_is_running name) rows).

Definition db_QueryRow_running_id (env : Env) (name : string) (w : World)
  : ScanResult * World :=
  if db_fault env (w_tick w) then (ScanErr, mkWorld (w_db w) (S (w_tick w)))
  else match select_running_id name (sync_rows (w_db w)) with
       | Some id => (ScanRow id, mkWorld (w_db w) (S (w_tick w)))
       | None => (ScanErrNoRows, mkWorld (w_db w) (S (w_tick w)))
       end.

(* INSERT INTO sync_status (collector_name, service_type, status,
     trigger_type, started_at) VALUES ($1, $2, 'running', $3, NOW())
   RETURNING id *)
Definition new_sync_row (id : nat) (name serviceType triggerType : string) (now : Z)
  : SyncRow :=
  mkSyncRow id name serviceType running triggerType now None 0 0 0 0 None.

(* The statement fails on a connection fault and, when the schema has
   idx_sync_running, when a running row of the collector exists. *)
Definition db_QueryRow_insert_sync (env : Env) (name serviceType triggerType : string)
  (w : World) : ScanResult * World :=
  let db := w_db w in
  if db_fault env (w_tick w) then (ScanErr, mkWorld db (S (w_tick w)))
  else if idx_sync_running db && existsb (sync_is_running name) (sync_rows db)
  then (ScanErr, mkWorld db (S (w_tick w)))
  else (ScanRow (next_id db),
        mkWorld (mkDB (domains db) (dns_records db)
                   (sync_rows db ++
                      [new_sync_row (next_id db) name serviceType triggerType
                         (db_now env (w_tick w))])
                   (S (next_id db)) (idx_sync_running db))
                (S (w_tick w))).

Inductive LockError : Type :=
| ErrCheckRunningSync
| ErrCreateSyncRecord
| ErrUpdateSyncStatus.

(* The value TryAcquire returns: (syncID, acquired, error); the empty
   syncID is None. *)
Record Acquired : Type := mkAcquired {
  acq_syncID : option nat;
  acq_acquired : bool;
  acq_error : option LockError
}.

(* SyncLock.TryAcquire(ctx, collectorName, serviceType, triggerType).
   The database is shared with the other instances: `others` is what they
   commit between the SELECT of this call and its INSERT (the identity
   when this instance is alone). *)
Definition TryAcquire (env : Env) (others : DB -> DB)
  (collectorName serviceType triggerType : string)
  (locks : Locks) (w : World) : Acquired * Locks * World :=
  let locks0 := getLock locks collectorName in
  match TryLock locks0 collectorName with
  | (false, locks1) => (mkAcquired None false None, locks1, w)
  | (true, locks1) =>
      match db_QueryRow_running_id env collectorName w with
      | (ScanRow existingID, w1) =>
          (* another instance is running *)
          (mkAcquired None false None, Unlock locks1 collectorName, w1)
      | (ScanErr, w1) =>
          (mkAcquired None false (Some ErrCheckRunningSync),
           Unlock locks1 collectorName, w1)
      | (ScanErrNoRows, w1) =>
          let w2 := mkWorld (others (w_db w1)) (w_tick w1) in
          match db_QueryRow_insert_sync env collectorName serviceType triggerType w2 with
          | (ScanRow syncID, w3) => (mkAcquired (Some syncID) true None, locks1, w3)
          | (_, w3) =>
              (mkAcquired None false (Some ErrCreateSyncRecord),
               Unlock locks1 collectorName, w3)
          end
      end
  end.

Record SyncReleaseStats : Type := mkSyncReleaseStats {
  rel_Found : Z;
  rel_Added : Z;
  rel_Updated : Z;
  rel_Removed : Z
}.

(* UPDATE sync_status SET status = $1, completed_at = NOW(),
     records_found = $2, records_added = $3, records_updated = $4,
     records_removed = $5, error_message = $6 WHERE id = $7 *)
Definition finish_sync_row (status : SyncState) (now : Z) (stats : SyncReleaseStats)
  (errMsg : option string) (r : SyncRow) : SyncRow :=
  mkSyncRow (sync_id r) (sync_collector_name r) (sync_service_type r) status
    (sync_trigger_type r) (sync_started_at r) (Some now)
    (rel_Found stats) (rel_Added stats) (rel_Updated stats) (rel_Removed stats)
    errMsg.

Definition update_sync_status (status : SyncState) (now : Z) (stats : SyncReleaseStats)
  (errMsg : option string) (id : nat) (rows : list SyncRow) : list SyncRow :=
  map (fun r => if Nat.eqb (sync_id r) id
                then finish_sync_row status now stats errMsg r else r) rows.

(* SyncLock.Release(ctx, collectorName, syncID, stats, syncError):
   syncError is the message of the error, None for nil. The empty syncID
   (None) is not a UUID and the statement is rejected. *)
Definition Release (env : Env) (collectorName : string) (syncID : option nat)
  (stats : SyncReleaseStats) (syncError : option string)
  (locks : Locks) (w : World) : option LockError * Locks * World :=
  let locks0 := getLock locks collectorName in
  let status := match syncError with None => completed | Some _ => failed end in
  let errMsg := syncError in
  (* the deferred lock.Unlock() *)
  let locks1 := Unlock locks0 collectorName in
  if db_fault env (w_tick w)
  then (Some ErrUpdateSyncStatus, locks1, mkWorld (w_db w) (S (w_tick w)))
  else match syncID with
       | None => (Some ErrUpdateSyncStatus, locks1, mkWorld (w_db w) (S (w_tick w)))
       | Some id =>
           (None, locks1,
            mkWorld (set_sync_rows (w_db w)
                       (update_sync_status status (db_now env (w_tick w)) stats errMsg
                          id (sync_rows (w_db w))))
                    (S (w_tick w)))
       end.

(* ===================================================================== *)
(* 7. pkg/httpclient: the errors                                         *)
(* ===================================================================== *)

(* The errors DoWithRetry returns. ErrMaxRetries wraps the last error of
   the loop; ErrMaxRetriesNil is the same with lastErr still nil (the loop
   body never ran). *)
Inductive HttpError : Type :=
| ErrQuotaExceeded
| ErrRateLimited
| ErrNotFound
| ErrContext
| ErrCreateRequest
| ErrRequestFailed
| ErrReadResponse
| ErrHTTP (status : Z) (body : string)
| ErrMaxRetriesNil
| ErrMaxRetries (lastErr : HttpError).

(* errors.Is(err, ErrQuotaExceeded) and errors.Is(err, ErrNotFound), through
   the %w of ErrMaxRetries. *)
Fixpoint IsQuotaExceeded (e : HttpError) : bool :=
  match e with
  | ErrQuotaExceeded => true
  | ErrMaxRetries e' => IsQuotaExceeded e'
  | _ => false
  end.

Fixpoint IsNotFound (e : HttpError) : bool :=
  match e with
  | ErrNotFound => true
  | ErrMaxRetries e' => IsNotFound e'
  | _ => false
  end.

(* ===================================================================== *)
(* 8. internal/service/sync.go                                           *)
(* ===================================================================== *)

(* The errors a collector returns from Collect and from its helpers. *)
Inductive CollectError : Type :=
| CollectCtxErr
| CollectHttp (e : HttpError)
| CollectFetchDomains (e : HttpError)
| CollectParseDomains
| CollectParseRecords (domain : string)
| CollectTokenVerification.

Record CollectorResult : Type := mkCollectorResult {
  res_Domains : list Domain;
  res_DNSRecords : list DNSRecord;
  res_StartTime : GoTime;
  res_EndTime : GoTime;
  res_Error : option CollectError
}.

(* The Collector interface. Collect talks to the upstream only; what it
   returned in this run is part of the value. *)
Record Collector : Type := mkCollector {
  c_Name : string;
  c_Type : string;
  c_Source : string;
  c_Collect : CollectorResult * option CollectError
}.

Record SyncStats : Type := mkSyncStats {
  st_Found : Z;
  st_Added : Z;
  st_Updated : Z;
  st_Removed : Z
}.

Inductive SyncError : Type :=
| ErrCollectorFailed (name : string) (e : CollectError)
| ErrMergeDomains (e : MergeError)
| ErrMergeDNSRecords (e : MergeError).

Definition add_merge_stats (s : SyncStats) (m : MergeStats) : SyncStats :=
  mkSyncStats (st_Found s) (st_Added s + Added m) (st_Updated s + Updated m)
    (st_Removed s + Removed m).

Definition len {A : Type} (l : list A) : Z := Z.of_nat (List.length l).

(* SyncService.RunCollector(ctx, c): the stats (nil when the collector
   failed), the error, and the world the merges leave. *)
Definition RunCollector (env : Env) (c : Collector) (w : World)
  : option SyncStats * option SyncError * World :=
  match c_Collect c with
  | (_, Some err) => (None, Some (ErrCollectorFailed (c_Name c) err), w)
  | (result, None) =>
      let stats := mkSyncStats (len (res_Domains result) + len (res_DNSRecords result))
                     0 0 0 in
      (* Merge domains if any were collected *)
      let after_domains :=
        if (len (res_Domains result) >? 0)%Z
        then match MergeDomains env (c_Source c) (res_Domains result) w with
             | (inl err, w1) => (inl (ErrMergeDomains err), stats, w1)
             | (inr domainStats, w1) => (inr tt, add_merge_stats stats domainStats, w1)
             end
        else (inr tt, stats, w) in
      match after_domains with
      | (inl err, stats1, w1) => (Some stats1, Some err, w1)
      | (inr _, stats1, w1) =>
          (* Merge DNS records if any were collected *)
          if (len (res_DNSRecords result) >? 0)%Z
          then match MergeDNSRecords env (c_Source c) (res_DNSRecords result) w1 with
               | (inl err, w2) => (Some stats1, Some (ErrMergeDNSRecords err), w2)
               | (inr recordStats, w2) =>
                   (Some (add_merge_stats stats1 recordStats), None, w2)
               end
          else (Some stats1, None, w1)
      end
  end.

(* ===================================================================== *)
(* 9. internal/scheduler/scheduler.go                                    *)
(* ===================================================================== *)

(* err.Error(), abridged to the prefix each wrapping adds. *)
Definition SyncError_message (e : SyncError) : string :=
  match e with
  | ErrCollectorFailed name _ => String.append "collector " (String.append name " failed")
  | ErrMergeDomains _ => "merge domains"
  | ErrMergeDNSRecords _ => "merge DNS records"
  end.

(* How a call of Scheduler.runCollector ends. *)
Inductive RunOutcome : Type :=
| LockFailed (e : LockError)
| AlreadyRunning
| Synced (syncID : option nat) (stats : SyncReleaseStats)
         (syncErr : option SyncError) (exported : bool).

(* Scheduler.runCollector(ctx, c, triggerType). exported tells whether
   exportSvc.ExportAll was called; the files it writes are not part of the
   inventory. *)
Definition runCollector (env : Env) (others : DB -> DB) (c : Collector)
  (triggerType : string) (locks : Locks) (w : World)
  : RunOutcome * Locks * World :=
  match TryAcquire env others (c_Name c) (c_Type c) triggerType locks w with
  | (acq, locks1, w1) =>
      match acq_error acq with
      | Some err => (LockFailed err, locks1, w1)
      | None =>
          if negb (acq_acquired acq) then (AlreadyRunning, locks1, w1)
          else
            match RunCollector env c w1 with
            | (stats, syncErr, w2) =>
                let releaseStats :=
                  match stats with
                  | Some s => mkSyncReleaseStats (st_Found s) (st_Added s)
                                (st_Updated s) (st_Removed s)
                  | None => mkSyncReleaseStats 0 0 0 0
                  end in
                match Release env (c_Name c) (acq_syncID acq) releaseStats
                        (option_map SyncError_message syncErr) locks1 w2 with
                | (_, locks3, w3) =>
                    match syncErr with
                    | Some _ =>
                        (Synced (acq_syncID acq) releaseStats syncErr false, locks3, w3)
                    | None =>
                        (Synced (acq_syncID acq) releaseStats None true, locks3, w3)
                    end
                end
            end
      end
  end.

(* ===================================================================== *)
(* 10. pkg/httpclient: DoWithRetry                                       *)
(* ===================================================================== *)

(* strings.Contains(s, sub) *)
Fixpoint Contains (s sub : string) : bool :=
  if String.prefix sub s then true
  else match s with
       | EmptyString => false
       | String _ rest => Contains rest sub
       end.

(* truncateString(s, maxLen) *)
Definition truncateString (s : string) (maxLen : nat) : string :=
  if Nat.leb (String.length s) maxLen then s
  else String.append (String.substring 0 maxLen s) "...".

(* config.RateLimitConfig. Durations are in nanoseconds. BackoffFactor is
   a float64; what the client computes from it is
     time.Duration(math.Pow(BackoffFactor, float64(attempt))) * time.Second
   and Backoff attempt stands for that duration. *)
Record RateLimitConfig : Type := mkRateLimitConfig {
  SleepOn429 : Z;
  MaxRetries : Z;
  Backoff : nat -> Z
}.

(* What c.http.Do(req) followed by io.ReadAll(resp.Body) gives at an
   attempt: a transport error, a read error, or a status and a body. *)
Inductive HttpReply : Type :=
| DoFailed
| ReadFailed
| Reply (status : Z) (body : string).

(* The caller's context, as the attempt of that number observes it:
   ctx.Err() != nil at its start; ctx.Done() ready before the backoff
   timer that precedes it; ctx.Done() ready before the SleepOn429 timer
   that follows it. *)
Record RetryCtx : Type := mkRetryCtx {
  ctx_Err : nat -> bool;
  ctx_Done_in_backoff : nat -> bool;
  ctx_Done_in_sleep429 : nat -> bool
}.

(* What the client does, in order: the timers it waits for to the end and
   the requests it sends. *)
Inductive Event : Type :=
| EvSleep (d : Z)
| EvDo (attempt : nat).

Definition StatusTooManyRequests : Z := 429.
Definition StatusNotFound : Z := 404.

Definition then_events {A : Type} (evs : list Event) (r : A * list Event)
  : A * list Event :=
  (fst r, evs ++ snd r).

(* The loop `for attempt := 0; attempt <= c.cfg.MaxRetries; attempt++`,
   with `remaining` iterations to go. bad_request: http.NewRequestWithContext
   rejects the method or the URL. *)
Fixpoint retry_loop (cfg : RateLimitConfig) (ctx : RetryCtx) (bad_request : bool)
  (do : nat -> HttpReply) (remaining attempt : nat) (lastErr : option HttpError)
  : (HttpError + string) * list Event :=
  match remaining with
  | O =>
      (inl (match lastErr with
            | None => ErrMaxRetriesNil
            | Some e => ErrMaxRetries e
            end), [])
  | S remaining' =>
      if ctx_Err ctx attempt then (inl ErrContext, [])
      else if negb (Nat.eqb attempt 0) && ctx_Done_in_backoff ctx attempt
      then (inl ErrContext, [])
      else
        then_events (if Nat.eqb attempt 0 then [] else [EvSleep (Backoff cfg attempt)])
          (if bad_request then (inl ErrCreateRequest, [])
           else
             then_events [EvDo attempt]
               match do attempt with
               | DoFailed =>
                   retry_loop cfg ctx bad_request do remaining' (S attempt)
                     (Some ErrRequestFailed)
               | ReadFailed =>
                   retry_loop cfg ctx bad_request do remaining' (S attempt)
                     (Some ErrReadResponse)
               | Reply status body =>
                   if Z.eqb status StatusTooManyRequests
                      || Contains body "TOO_MANY_REQUESTS"
                   then
                     if ctx_Done_in_sleep429 ctx attempt then (inl ErrContext, [])
                     else
                       then_events [EvSleep (SleepOn429 cfg)]
                         (retry_loop cfg ctx bad_request do remaining' (S attempt)
                            (Some ErrRateLimited))
                   else if Contains body "QUOTA_EXCEEDED" then (inl ErrQuotaExceeded, [])
                   else if Z.eqb status StatusNotFound then (inl ErrNotFound, [])
                   else if Z.leb 200 status && Z.ltb status 300 then (inr body, [])
                   else
                     let lastErr' := ErrHTTP status (truncateString body 500) in
                     if Z.leb 400 status && Z.ltb status 500 then (inl lastErr', [])
                     else
                       retry_loop cfg ctx bad_request do remaining' (S attempt)
                         (Some lastErr')
               end)
  end.

(* Client.DoWithRetry(ctx, method, url, headers, body): the body of the
   response or the error, and what the client did. *)
Definition DoWithRetry (cfg : RateLimitConfig) (ctx : RetryCtx) (bad_request : bool)
  (do : nat -> HttpReply) : (HttpError + string) * list Event :=
  retry_loop cfg ctx bad_request do (Z.to_nat (MaxRetries cfg + 1)) 0 None.

(* The number of requests sent. *)
Definition attempts_made (evs : list Event) : nat :=
  List.length (filter (fun e => match e with EvDo _ => true | EvSleep _ => false end) evs).

(* The number of whole sleeps of the duration d. *)
Definition sleeps_of (d : Z) (evs : list Event) : nat :=
  List.length (filter (fun e => match e with EvSleep d' => Z.eqb d' d | EvDo _ => false end) evs).

(* ===================================================================== *)
(* 11. internal/collector/dns/filters.go                                 *)
(* ===================================================================== *)

(* The strings helpers, on ASCII bytes. *)
Definition is_space (c : ascii) : bool :=
  let n := nat_of_ascii c in
  Nat.eqb n 9 || Nat.eqb n 10 || Nat.eqb n 11 || Nat.eqb n 12 || Nat.eqb n 13
  || Nat.eqb n 32.

Fixpoint trim_left (s : string) : string :=
  match s with
  | EmptyString => EmptyString
  | String c rest => if is_space c then trim_left rest else s
  end.

Fixpoint trim_right (s : string) : string :=
  match s with
  | EmptyString => EmptyString
  | String c rest =>
      match trim_right rest with
      | EmptyString => if is_space c then EmptyString else String c EmptyString
      | rest' => String c rest'
      end
  end.

Definition TrimSpace (s : string) : string := trim_right (trim_left s).

Definition lower_ascii (c : ascii) : ascii :=
  let n := nat_of_ascii c in
  if Nat.leb 65 n && Nat.leb n 90 then ascii_of_nat (n + 32) else c.

Definition upper_ascii (c : ascii) : ascii :=
  let n := nat_of_ascii c in
  if Nat.leb 97 n && Nat.leb n 122 then ascii_of_nat (n - 32) else c.

Fixpoint map_string (f : ascii -> ascii) (s : string) : string :=
  match s with
  | EmptyString => EmptyString
  | String c rest => String (f c) (map_string f rest)
  end.

Definition ToLower (s : string) : string := map_string lower_ascii s.
Definition ToUpper (s : string) : string := map_string upper_ascii s.

(* strings.HasPrefix(s, prefix) *)
Definition HasPrefix (s prefix : string) : bool := String.prefix prefix s.

Definition mem_string (x : string) (l : list string) : bool :=
  existsb (String.eqb x) l.

(* The keys of the map testDomains. *)
Definition testDomains : list string :=
  ["example.com"; "example.org"; "example.net"; "test.com"; "test.org";
   "test.net"; "domain.com"; "domain.org"; "domain.net"; "localhost";
   "invalid"; "example"; "test"; "local"; "internal"; "localdomain"].

Definition testPrefixes : list string :=
  ["test-"; "test."; "example-"; "example."; "demo-"; "demo."; "staging-"; "dev-"].

Definition IsTestDomain (domain : string) : bool :=
  let d := ToLower (TrimSpace domain) in
  if mem_string d testDomains then true
  else existsb (HasPrefix d) testPrefixes.

Definition NormalizeSubdomain (subdomain : string) : string :=
  let s := TrimSpace subdomain in
  if String.eqb s "@" then "" else ToLower s.

Definition NormalizeRecordType (recordType : string) : string :=
  ToUpper (TrimSpace recordType).

(* ===================================================================== *)
(* 12. internal/collector/dns/godaddy.go                                 *)
(* ===================================================================== *)

Record GoDaddyConfig : Type := mkGoDaddyConfig {
  DomainsLimit : Z;
  RecordsLimit : Z
}.

(* One object of the array /v1/domains returns: d["domain"].(string) and
   d["expires"].(string) when they are strings, and the object itself. *)
Record DomainEntry : Type := mkDomainEntry {
  de_domain : option string;
  de_expires : option string;
  de_raw : string
}.

(* One object of the array /v1/domains/{domain}/records returns, after the
   `name, _ := r["name"].(string)` conversions (a missing field is the
   zero value; ttl and priority after int(...)). *)
Record RecordEntry : Type := mkRecordEntry {
  re_name : string;
  re_type : string;
  re_data : string;
  re_ttl : Z;
  re_priority : Z;
  re_raw : string
}.

(* The requests the collector sends through g.client.Get. *)
Inductive Request : Type :=
| ReqDomains (limit : Z) (marker : option string)
| ReqRecords (domain : string) (limit offset : Z).

(* What g.client.Get followed by json.Unmarshal gives: the array, a body
   that does not parse, or the error of the client. *)
Inductive GetResult (A : Type) : Type :=
| GetOK (items : list A)
| GetBadJSON
| GetErr (e : HttpError).
Arguments GetOK {A} items.
Arguments GetBadJSON {A}.
Arguments GetErr {A} e.

(* The world outside the collector, as the collector observes it when it
   has sent n requests: the answer of the registrar to the next request,
   the state of the caller's context, the clock, and time.Parse for
   RFC 3339. *)
Record Upstream : Type := mkUpstream {
  up_domains : nat -> Z -> option string -> GetResult DomainEntry;
  up_records : nat -> string -> Z -> Z -> GetResult RecordEntry;
  up_ctx_cancelled : nat -> bool;
  up_now : nat -> GoTime;
  up_parse_RFC3339 : string -> option GoTime
}.

Record godaddyDomain : Type := mkGodaddyDomain {
  gd_name : string;
  gd_expires : option GoTime;
  gd_raw : RawData
}.

(* How a helper of the collector ends: with its value, with an error, with
   a run-time panic, or (in this model only) with its fuel spent. *)
Inductive Fetched (A : Type) : Type :=
| FetchOK (a : A)
| FetchErr (e : CollectError)
| FetchPanic
| FetchOutOfFuel.
Arguments FetchOK {A} a.
Arguments FetchErr {A} e.
Arguments FetchPanic {A}.
Arguments FetchOutOfFuel {A}.

(* The body of `for _, d := range domains` in fetchAllDomains. *)
Fixpoint scan_domains (up : Upstream) (entries : list DomainEntry)
  (allDomains : list godaddyDomain) (seen : list string)
  : list godaddyDomain * list string :=
  match entries with
  | [] => (allDomains, seen)
  | d :: rest =>
      match de_domain d with
      | None => scan_domains up rest allDomains seen
      | Some domainName =>
          if String.eqb domainName "" then scan_domains up rest allDomains seen
          else if mem_string domainName seen then scan_domains up rest allDomains seen
          else
            let seen' := domainName :: seen in
            if IsTestDomain domainName then scan_domains up rest allDomains seen'
            else
              let expires :=
                match de_expires d with
                | Some e => if String.eqb e "" then None else up_parse_RFC3339 up e
                | None => None
                end in
              scan_domains up rest
                (allDomains ++ [mkGodaddyDomain domainName expires (Some (de_raw d))])
                seen'
      end
  end.

(* The loop of fetchAllDomains; trace is the list of the requests sent so
   far, oldest first. *)
Fixpoint fetchAllDomains_loop (fuel : nat) (cfg : GoDaddyConfig) (up : Upstream)
  (allDomains : list godaddyDomain) (seen : list string) (marker : string)
  (trace : list Request) : Fetched (list godaddyDomain) * list Request :=
  match fuel with
  | O => (FetchOutOfFuel, trace)
  | S fuel' =>
      if up_ctx_cancelled up (List.length trace) then (FetchErr CollectCtxErr, trace)
      else
        let m := if String.eqb marker "" then None else Some marker in
        let trace1 := trace ++ [ReqDomains (DomainsLimit cfg) m] in
        match up_domains up (List.length trace) (DomainsLimit cfg) m with
        | GetErr e => (FetchErr (CollectFetchDomains e), trace1)
        | GetBadJSON => (FetchErr CollectParseDomains, trace1)
        | GetOK domains =>
            if Nat.eqb (List.length domains) 0 then (FetchOK allDomains, trace1)
            else
              let (allDomains', seen') := scan_domains up domains allDomains seen in
              (* Check if we got fewer than limit (last page) *)
              if (len domains <? DomainsLimit cfg)%Z then (FetchOK allDomains', trace1)
              else
                (* marker = allDomains[len(allDomains)-1].domain *)
                match rev allDomains' with
                | [] => (FetchPanic, trace1)
                | last :: _ =>
                    fetchAllDomains_loop fuel' cfg up allDomains' seen' (gd_name last)
                      trace1
                end
        end
  end.

Definition fetchAllDomains (fuel : nat) (cfg : GoDaddyConfig) (up : Upstream)
  (trace : list Request) : Fetched (list godaddyDomain) * list Request :=
  fetchAllDomains_loop fuel cfg up [] [] "" trace.

Definition record_of_entry (domain : string) (now : GoTime) (r : RecordEntry)
  : DNSRecord :=
  mkDNSRecord domain (NormalizeSubdomain (re_name r))
    (NormalizeRecordType (re_type r)) (re_data r) (re_ttl r) (re_priority r)
    "GoDaddy" "active" now now (Some (re_raw r)).

(* The loop of fetchDNSRecords. *)
Fixpoint fetchDNSRecords_loop (fuel : nat) (cfg : GoDaddyConfig) (up : Upstream)
  (domain : string) (now : GoTime) (allRecords : list DNSRecord) (offset : Z)
  (trace : list Request) : Fetched (list DNSRecord) * list Request :=
  match fuel with
  | O => (FetchOutOfFuel, trace)
  | S fuel' =>
      if up_ctx_cancelled up (List.length trace) then (FetchErr CollectCtxErr, trace)
      else
        let trace1 := trace ++ [ReqRecords domain (RecordsLimit cfg) offset] in
        match up_records up (List.length trace) domain (RecordsLimit cfg) offset with
        | GetErr e => (FetchErr (CollectHttp e), trace1)
        | GetBadJSON => (FetchErr (CollectParseRecords domain), trace1)
        | GetOK records =>
            if Nat.eqb (List.length records) 0 then (FetchOK allRecords, trace1)
            else
              let allRecords' := allRecords ++ map (record_of_entry domain now) records in
              if (len records <? RecordsLimit cfg)%Z then (FetchOK allRecords', trace1)
              else
                fetchDNSRecords_loop fuel' cfg up domain now allRecords'
                  (offset + RecordsLimit cfg) trace1
        end
  end.

Definition fetchDNSRecords (fuel : nat) (cfg : GoDaddyConfig) (up : Upstream)
  (domain : string) (trace : list Request) : Fetched (list DNSRecord) * list Request :=
  fetchDNSRecords_loop fuel cfg up domain (up_now up (List.length trace)) [] 0 trace.

(* httpclient.IsQuotaExceeded(err) and httpclient.IsNotFound(err) on the
   errors of fetchDNSRecords. *)
Definition err_IsQuotaExceeded (e : CollectError) : bool :=
  match e with
  | CollectHttp e' => IsQuotaExceeded e'
  | CollectFetchDomains e' => IsQuotaExceeded e'
  | _ => false
  end.

Definition err_IsNotFound (e : CollectError) : bool :=
  match e with
  | CollectHttp e' => IsNotFound e'
  | CollectFetchDomains e' => IsNotFound e'
  | _ => false
  end.

(* What the loop of step 2 leaves: result.DNSRecords, result.Error and the
   flag quotaExceeded. *)
Record Step2 : Type := mkStep2 {
  s2_records : list DNSRecord;
  s2_error : option CollectError;
  s2_quotaExceeded : bool
}.

(* Step 2 of Collect, `for i, domain := range domains`. The test
   `if quotaExceeded { break }` at the head of the body is never taken: the
   flag is set right before the break that leaves the loop. *)
Fixpoint collect_records (fuel : nat) (cfg : GoDaddyConfig) (up : Upstream)
  (domains : list godaddyDomain) (records : list DNSRecord)
  (trace : list Request) : Fetched Step2 * list Request :=
  match domains with
  | [] => (FetchOK (mkStep2 records None false), trace)
  | domain :: rest =>
      if up_ctx_cancelled up (List.length trace)
      then (FetchOK (mkStep2 records (Some CollectCtxErr) false), trace)
      else
        match fetchDNSRecords fuel cfg up (gd_name domain) trace with
        | (FetchOK recs, trace1) =>
            collect_records fuel cfg up rest (records ++ recs) trace1
        | (FetchErr err, trace1) =>
            if err_IsQuotaExceeded err
            then (FetchOK (mkStep2 records None true), trace1)
            else collect_records fuel cfg up rest records trace1
        | (FetchPanic, trace1) => (FetchPanic, trace1)
        | (FetchOutOfFuel, trace1) => (FetchOutOfFuel, trace1)
        end
  end.

Definition domain_of_godaddy (now : GoTime) (d : godaddyDomain) : Domain :=
  mkDomain (gd_name d) "GoDaddy" "active" (gd_expires d) now now (gd_raw d).

(* GoDaddyCollector.Collect(ctx): the result and the error, and the
   requests sent. *)
Definition Collect (fuel : nat) (cfg : GoDaddyConfig) (up : Upstream)
  : Fetched (CollectorResult * option CollectError) * list Request :=
  let start := up_now up 0 in
  match fetchAllDomains fuel cfg up [] with
  | (FetchErr err, trace) =>
      (FetchOK (mkCollectorResult [] [] start (up_now up (List.length trace)) (Some err),
                Some err), trace)
  | (FetchPanic, trace) => (FetchPanic, trace)
  | (FetchOutOfFuel, trace) => (FetchOutOfFuel, trace)
  | (FetchOK domains, trace) =>
      let now := up_now up (List.length trace) in
      let result_Domains := map (domain_of_godaddy now) domains in
      match collect_records fuel cfg up domains [] trace with
      | (FetchOK step2, trace') =>
          (FetchOK (mkCollectorResult result_Domains (s2_records step2) start
                      (up_now up (List.length trace')) (s2_error step2),
                    None), trace')
      | (FetchErr err, trace') => (FetchErr err, trace')
      | (FetchPanic, trace') => (FetchPanic, trace')
      | (FetchOutOfFuel, trace') => (FetchOutOfFuel, trace')
      end
  end.

(* The collector "godaddy_dns" with what its Collect returned. *)
Definition GoDaddyCollector (collected : CollectorResult * option CollectError)
  : Collector :=
  mkCollector "godaddy_dns" "dns_records" "GoDaddy" collected.

(* ===================================================================== *)
(* The vocabulary of the statements                                      *)
(* ===================================================================== *)

(* Identity of a Domain row: UNIQUE(domain, registrar). *)
Definition dom_key (r : DomainRow) : string * string :=
  (dom_domain r, dom_registrar r).

(* What the schema guarantees of table domains: the primary key, the
   freshness of generated ids, and UNIQUE(domain, registrar). *)
Record domains_ok (db : DB) : Prop := mk_domains_ok {
  dom_ids_unique : NoDup (map dom_id (domains db));
  dom_ids_bound : forall r, In r (domains db) -> dom_id r < next_id db;
  dom_keys_unique : NoDup (map dom_key (domains db))
}.

(* One round of the loop of MergeDomains when no statement fails: the
   SELECT followed by the INSERT or the UPDATE it decides. *)
Definition upsert_domain (source : string) (today : Date) (now : Z) (d : Domain)
  (db : DB) : DB :=
  match select_domain_id (d_Domain d) source (domains db) with
  | Some id =>
      set_domains db
        (update_domain (d_ExpiryDate d) today (d_RawData d) now id (domains db))
  | None =>
      insert_domain (d_Domain d) source (d_ExpiryDate d) today (d_RawData d) now db
  end.

(* The rounds of a whole batch, each with the NOW() of its statement. *)
Inductive upserted_domains (source : string) (today : Date)
  : list Domain -> DB -> DB -> Prop :=
| upd_nil : forall db, upserted_domains source today [] db db
| upd_cons : forall d ds now db db',
    upserted_domains source today ds (upsert_domain source today now d db) db' ->
    upserted_domains source today (d :: ds) db db'.

(* A row observed by the running merge: active and seen today. *)
Definition dom_fresh (today : Date) (name src : string) (r : DomainRow) : Prop :=
  dom_domain r = name /\ dom_registrar r = src /\
  dom_status r = active /\ dom_last_seen r = today.

(* How a row of the batch's source may differ, after the loop, from what it
   was before: not at all, or by the columns the UPDATE sets. *)
Definition dom_touched (source : string) (today : Date) (names : list string)
  (r r' : DomainRow) : Prop :=
  dom_registrar r = source /\ In (dom_domain r) names /\
  exists e raw now, r' = touch_domain_row e today raw now r.

(* A row the loop inserted. *)
Definition dom_inserted (source : string) (today : Date) (names : list string)
  (lo : nat) (r' : DomainRow) : Prop :=
  lo <= dom_id r' /\ dom_registrar r' = source /\ In (dom_domain r') names /\
  dom_status r' = active /\ dom_discovery_date r' = today /\
  dom_last_seen r' = today.

(* No database round trip fails at the steps lo, lo+1, ..., hi-1. *)
Definition no_fault (env : Env) (lo hi : nat) : Prop :=
  forall t, lo <= t < hi -> db_fault env t = false.

(* The `today` of a merge called at step t: the local calendar date of the
   one clock reading, taken right after BeginTx. *)
Definition merge_today (env : Env) (w : World) : Date :=
  Format_date (clock env (S (w_tick w))).

(* The database round trips of MergeDomains on a batch of n domains. *)
Definition domains_trips (n : nat) : nat := 3 + 2 * n.

(* The signature of a record, without its source. *)
Definition Signature : Type := (string * string * string * string)%type.

Definition dns_sig (r : DNSRow) : Signature :=
  (dns_domain r, dns_subdomain r, dns_record_type r, dns_data r).

Definition rec_sig (r : DNSRecord) : Signature :=
  (r_Domain r, r_Subdomain r, r_RecordType r, r_Data r).

(* Identity of a DNS row: UNIQUE(domain, subdomain, record_type, data, source). *)
Definition dns_key (r : DNSRow) : Signature * string := (dns_sig r, dns_source r).

Record records_ok (db : DB) : Prop := mk_records_ok {
  dns_ids_unique : NoDup (map dns_id (dns_records db));
  dns_ids_bound : forall r, In r (dns_records db) -> dns_id r < next_id db;
  dns_keys_unique : NoDup (map dns_key (dns_records db))
}.

Definition select_record (r : DNSRecord) (source : string) (rows : list DNSRow)
  : option nat :=
  select_record_id (r_Domain r) (r_Subdomain r) (r_RecordType r) (r_Data r) source rows.

(* One round of the loop of MergeDNSRecords when no statement fails. *)
Definition upsert_record (source : string) (today : Date) (now : Z) (r : DNSRecord)
  (db : DB) : DB :=
  match select_record r source (dns_records db) with
  | Some id =>
      set_dns_records db
        (update_record (r_TTL r) (r_Priority r) today (r_RawData r) now id
           (dns_records db))
  | None =>
      insert_record (r_Domain r) (r_Subdomain r) (r_RecordType r) (r_Data r)
        (r_TTL r) (r_Priority r) source today (r_RawData r) now db
  end.

Inductive upserted_records (source : string) (today : Date)
  : list DNSRecord -> DB -> DB -> Prop :=
| upr_nil : forall db, upserted_records source today [] db db
| upr_cons : forall r rs now db db',
    upserted_records source today rs (upsert_record source today now r db) db' ->
    upserted_records source today (r :: rs) db db'.

(* The tombstone statements of the domains seen, each with its NOW(). *)
Inductive buried_records (source : string) (today : Date)
  : list string -> list DNSRow -> list DNSRow -> Prop :=
| bur_nil : forall rows, buried_records source today [] rows rows
| bur_cons : forall dom doms now rows rows',
    buried_records source today doms
      (mark_removed_records source dom today now rows) rows' ->
    buried_records source today (dom :: doms) rows rows'.

Definition dns_fresh (today : Date) (sg : Signature) (src : string) (r : DNSRow) : Prop :=
  dns_sig r = sg /\ dns_source r = src /\
  dns_status r = active /\ dns_last_seen r = today.

Definition dns_touched (source : string) (today : Date) (sigs : list Signature)
  (x x' : DNSRow) : Prop :=
  dns_source x = source /\ In (dns_sig x) sigs /\
  exists ttl prio raw now, x' = touch_dns_row ttl prio today raw now x.

Definition dns_inserted (source : string) (today : Date) (sigs : list Signature)
  (lo : nat) (x' : DNSRow) : Prop :=
  lo <= dns_id x' /\ dns_source x' = source /\ In (dns_sig x') sigs /\
  dns_status x' = active /\ dns_discovery_date x' = today /\
  dns_last_seen x' = today.

(* The condition under which the sweep over the domains `doms` buries a row. *)
Definition dns_stale_in (src : string) (doms : list string) (today : Date)
  (r : DNSRow) : Prop :=
  dns_source r = src /\ In (dns_domain r) doms /\ dns_status r = active /\
  (dns_last_seen r < today)%Z.

(* The database round trips of MergeDNSRecords on a batch. *)
Definition records_trips (rs : list DNSRecord) : nat :=
  2 + 2 * List.length rs + List.length (seenDomains rs).

(* The batch is in the table: for each domain of the batch there is
   exactly one row of its identity, active and seen today. *)
Definition batch_domains_present (source : string) (today : Date) (ds : list Domain)
  (rows' : list DomainRow) : Prop :=
  forall d, In d ds ->
    exists r, In r rows' /\
      dom_domain r = d_Domain d /\ dom_registrar r = source /\
      dom_status r = active /\ dom_last_seen r = today /\
      forall r', In r' rows' ->
        dom_domain r' = d_Domain d -> dom_registrar r' = source -> r' = r.

(* The domain tombstone: a row of the source that was active, is not in
   the batch and was last seen before today is now the same row with
   status removed (and NOW() as updated_at). *)
Definition absent_domains_removed (source : string) (today : Date) (ds : list Domain)
  (rows rows' : list DomainRow) : Prop :=
  forall r, In r rows ->
    dom_registrar r = source -> dom_status r = active ->
    ~ In (dom_domain r) (map d_Domain ds) ->
    (dom_last_seen r < today)%Z ->
    exists now, In (bury_domain_row now r) rows'.

(* The scoped DNS tombstone. *)
Definition absent_records_removed (source : string) (today : Date)
  (rs : list DNSRecord) (rows rows' : list DNSRow) : Prop :=
  forall x, In x rows ->
    dns_source x = source -> dns_status x = active ->
    In (dns_domain x) (map r_Domain rs) ->
    ~ In (dns_sig x) (map rec_sig rs) ->
    (dns_last_seen x < today)%Z ->
    exists now, In (bury_dns_row now x) rows'.

(* The frame of the scoped tombstone: the rows of a parent domain that is
   not in the batch are the same rows before and after. *)
Definition unobserved_records_untouched (rs : list DNSRecord)
  (rows rows' : list DNSRow) : Prop :=
  forall x, ~ In (dns_domain x) (map r_Domain rs) ->
    (In x rows <-> In x rows').

Definition epoch : GoTime := mkTime 0 0.

(* An environment whose clock stays on one UTC day, whose NOW() counts the
   steps and whose database never fails. *)
Definition day_env (day : Z) : Env :=
  mkEnv (fun _ => mkTime (seconds_per_day * day) 0)
        (fun t => Z.of_nat t)
        (fun _ => false).

(* The same, with the round trip at step k failing. *)
Definition faulty_env (day : Z) (k : nat) : Env :=
  mkEnv (fun _ => mkTime (seconds_per_day * day) 0)
        (fun t => Z.of_nat t)
        (fun t => Nat.eqb t k).

Definition empty_db : DB := mkDB [] [] [] 0 true.

Definition gd_domain (name : string) : Domain :=
  mkDomain name "GoDaddy" "active" None epoch epoch None.

Definition gd_record (dom sub data : string) : DNSRecord :=
  mkDNSRecord dom sub "A" data 300%Z 0%Z "GoDaddy" "active" epoch epoch None.

(* Day 10: the domains a.com and b.com are first seen. *)
Definition world_day10 : World :=
  snd (MergeDomains (day_env 10%Z) "GoDaddy" [gd_domain "a.com"; gd_domain "b.com"]
         (mkWorld empty_db 0)).

Definition row_b_day10 : DomainRow :=
  mkDomainRow 1 "b.com" "GoDaddy" active None 10%Z 10%Z None 4%Z 4%Z.

(* Day 10 again: a second sweep returns a.com only. *)
Definition world_day10_again : World :=
  snd (MergeDomains (day_env 10%Z) "GoDaddy" [gd_domain "a.com"] world_day10).

(* Day 11: a sweep returns a.com only. *)
Definition world_day11 : World :=
  snd (MergeDomains (day_env 11%Z) "GoDaddy" [gd_domain "a.com"] world_day10).

(* Day 10: two records of a.com are first seen. *)
Definition rworld_day10 : World :=
  snd (MergeDNSRecords (day_env 10%Z) "GoDaddy"
         [gd_record "a.com" "www" "1.2.3.4"; gd_record "a.com" "mail" "5.6.7.8";
          gd_record "b.com" "www" "9.9.9.9"]
         (mkWorld empty_db 0)).

Definition row_mail_day10 : DNSRow :=
  mkDNSRow 1 "a.com" "mail" "A" "5.6.7.8" 300%Z 0%Z "GoDaddy" active 10%Z 10%Z None 4%Z 4%Z.

Definition rworld_day10_again : World :=
  snd (MergeDNSRecords (day_env 10%Z) "GoDaddy" [gd_record "a.com" "www" "1.2.3.4"]
         rworld_day10).

Definition rworld_day11 : World :=
  snd (MergeDNSRecords (day_env 11%Z) "GoDaddy" [gd_record "a.com" "www" "1.2.3.4"]
         rworld_day10).

Inductive MergeCall : Type :=
| CallMergeDomains (source : string) (ds : list Domain)
| CallMergeDNSRecords (source : string) (rs : list DNSRecord).

(* The world a call leaves, whether it succeeds or fails. *)
Definition run_call (env : Env) (c : MergeCall) (w : World) : World :=
  match c with
  | CallMergeDomains source ds => snd (MergeDomains env source ds w)
  | CallMergeDNSRecords source rs => snd (MergeDNSRecords env source rs w)
  end.

Fixpoint run_calls (env : Env) (cs : list MergeCall) (w : World) : World :=
  match cs with
  | [] => w
  | c :: rest => run_calls env rest (run_call env c w)
  end.

Definition db_ok (db : DB) : Prop := domains_ok db /\ records_ok db.

(* Where the discovery_date of a row of the final table comes from: the
   row was there at the start, with this discovery_date; or some call of
   the history is the first after which a row of this id exists, and the
   discovery_date is the `today` of that call. *)
Definition domain_discovered (env : Env) (cs : list MergeCall) (w : World)
  (r : DomainRow) : Prop :=
  (exists r0, In r0 (domains (w_db w)) /\ dom_id r0 = dom_id r /\
              dom_discovery_date r0 = dom_discovery_date r) \/
  (exists pre c post, cs = (pre ++ c :: post)%list /\
     (forall r0, In r0 (domains (w_db (run_calls env pre w))) ->
                 dom_id r0 <> dom_id r) /\
     (exists r1, In r1 (domains (w_db (run_call env c (run_calls env pre w)))) /\
                 dom_id r1 = dom_id r) /\
     dom_discovery_date r = merge_today env (run_calls env pre w)).

Definition record_discovered (env : Env) (cs : list MergeCall) (w : World)
  (x : DNSRow) : Prop :=
  (exists x0, In x0 (dns_records (w_db w)) /\ dns_id x0 = dns_id x /\
              dns_discovery_date x0 = dns_discovery_date x) \/
  (exists pre c post, cs = (pre ++ c :: post)%list /\
     (forall x0, In x0 (dns_records (w_db (run_calls env pre w))) ->
                 dns_id x0 <> dns_id x) /\
     (exists x1, In x1 (dns_records (w_db (run_call env c (run_calls env pre w)))) /\
                 dns_id x1 = dns_id x) /\
     dns_discovery_date x = merge_today env (run_calls env pre w)).

(* Every row: discovery_date <= last_seen <= bound. *)
Definition dates_ok (bound : Date) (db : DB) : Prop :=
  (forall r, In r (domains db) ->
     (dom_discovery_date r <= dom_last_seen r <= bound)%Z) /\
  (forall x, In x (dns_records db) ->
     (dns_discovery_date x <= dns_last_seen x <= bound)%Z).

(* The local calendar date the process reads never goes back. *)
Definition dates_never_go_back (env : Env) : Prop :=
  forall t1 t2, t1 <= t2 ->
    (Format_date (clock env t1) <= Format_date (clock env t2))%Z.

(* What a row of table domains can be after a successful
   MergeDomains(source, ds) with the date today, given the rows of before:
   a row of before, as it was; a row of before with the columns of the
   UPDATE set, last_seen = today; a new row, discovery_date = last_seen =
   today; a row of before that the tombstone statement selected by
   last_seen < today, with status removed. *)
Definition domain_row_outcome (source : string) (today : Date) (ds : list Domain)
  (rows : list DomainRow) (lo : nat) (r' : DomainRow) : Prop :=
  In r' rows \/
  (exists r, In r rows /\ dom_touched source today (map d_Domain ds) r r') \/
  ((forall r, In r rows -> dom_key r <> dom_key r') /\
   dom_inserted source today (map d_Domain ds) lo r') \/
  (exists r now, In r rows /\ domain_is_stale source today r = true /\
                 r' = bury_domain_row now r).

Definition record_row_outcome (source : string) (today : Date) (rs : list DNSRecord)
  (rows : list DNSRow) (lo : nat) (x' : DNSRow) : Prop :=
  In x' rows \/
  (exists x, In x rows /\ dns_touched source today (map rec_sig rs) x x') \/
  ((forall x, In x rows -> dns_key x <> dns_key x') /\
   dns_inserted source today (map rec_sig rs) lo x') \/
  (exists x now, In x rows /\ dns_stale_in source (map r_Domain rs) today x /\
                 x' = bury_dns_row now x).


(* A clock that is one day further at every step, in UTC. *)
Definition stepping_env : Env :=
  mkEnv (fun t => mkTime (seconds_per_day * Z.of_nat t) 0)
        (fun t => Z.of_nat t)
        (fun _ => false).

Definition history3 : list MergeCall :=
  [CallMergeDomains "GoDaddy" [gd_domain "a.com"; gd_domain "b.com"];
   CallMergeDNSRecords "GoDaddy" [gd_record "a.com" "www" "1.2.3.4"];
   CallMergeDomains "GoDaddy" [gd_domain "a.com"]].

(* A process that reads 20:00 UTC of day 10 in a zone ten hours east of
   UTC, then, from step 5 on, 21:00 UTC of the same day in UTC: the
   instant moves forward, the local calendar date goes from day 11 back
   to day 10. *)
Definition zone_change_clock (t : nat) : GoTime :=
  if Nat.ltb t 5 then mkTime (seconds_per_day * 10 + 20 * 3600) 36000
  else mkTime (seconds_per_day * 10 + 21 * 3600) 0.

Definition zone_change_env : Env :=
  mkEnv zone_change_clock (fun t => Z.of_nat t) (fun _ => false).

(* The same run with another clock. *)
Definition with_clock (env : Env) (c : nat -> GoTime) : Env :=
  mkEnv c (db_now env) (db_fault env).

(* A clock that shows day 11 at step 8 and the day of the step elsewhere. *)
Definition odd_clock (t : nat) : GoTime :=
  if Nat.eqb t 8 then mkTime (seconds_per_day * 11 + 5) 0
  else mkTime (seconds_per_day * Z.of_nat t) 0.

(* A process two hours east of UTC, at 23:00 UTC of day 10. *)
Definition east_env : Env :=
  mkEnv (fun _ => mkTime (seconds_per_day * 10 + 23 * 3600) 7200)
        (fun t => Z.of_nat t)
        (fun _ => false).

(* The running Sync Runs of a collector. *)
Definition running_rows (name : string) (db : DB) : list SyncRow :=
  filter (sync_is_running name) (sync_rows db).

(* At most one Sync Run of each collector is running. *)
Definition at_most_one_running (db : DB) : Prop :=
  forall name, List.length (running_rows name db) <= 1.

(* Another instance starts a run of the collector. *)
Definition other_instance_starts (name : string) (db : DB) : DB :=
  mkDB (domains db) (dns_records db)
       (sync_rows db ++ [new_sync_row (next_id db) name "dns_records" "scheduled" 0])
       (S (next_id db)) (idx_sync_running db).

(* The reply is a 429 or carries TOO_MANY_REQUESTS in its body. *)
Definition is_rate_limited (r : HttpReply) : bool :=
  match r with
  | Reply status body =>
      Z.eqb status StatusTooManyRequests || Contains body "TOO_MANY_REQUESTS"
  | _ => false
  end.

(* The context is never cancelled. *)
Definition ctx_background : RetryCtx :=
  mkRetryCtx (fun _ => false) (fun _ => false) (fun _ => false).

(* The backoff sleep that precedes an attempt. *)
Definition backoff_events (cfg : RateLimitConfig) (attempt : nat) : list Event :=
  if Nat.eqb attempt 0 then [] else [EvSleep (Backoff cfg attempt)].

(* The defaults: SleepOn429 30 s, MaxRetries 5, BackoffFactor 1.5 (the
   duration of math.Pow(1.5, n) truncated to whole nanoseconds, times
   time.Second, for the attempts the loop can reach). *)
Definition default_Backoff (attempt : nat) : Z :=
  match attempt with
  | 1 => 1000000000%Z
  | 2 => 2000000000%Z
  | 3 => 3000000000%Z
  | 4 => 5000000000%Z
  | 5 => 7000000000%Z
  | _ => 0%Z
  end.

Definition default_RateLimitConfig : RateLimitConfig :=
  mkRateLimitConfig 30000000000 5 default_Backoff.

Definition always_429 (n : nat) : HttpReply := Reply 429 "".

(* The database never fails. *)
Definition never_faults (env : Env) : Prop := forall t, db_fault env t = false.

Definition empty_result : CollectorResult :=
  mkCollectorResult [] [] epoch epoch None.

(* The Sync Run a completed run leaves: the row TryAcquire inserted, with
   the UPDATE of Release. *)
Definition completed_sync_row (id : nat) (name serviceType triggerType : string)
  (started finished : Z) (stats : SyncReleaseStats) : SyncRow :=
  finish_sync_row completed finished stats None
    (new_sync_row id name serviceType triggerType started).

(* The request is one for the records of the domain. *)
Definition is_records_request (domain : string) (r : Request) : Prop :=
  exists limit offset, r = ReqRecords domain limit offset.

(* Scenario: the registrar lists a.com, b.com and c.com; a.com has one
   record; the quota is exhausted when the records of b.com are asked
   for. *)
Definition entry (name : string) : DomainEntry := mkDomainEntry (Some name) None "{}".

Definition quota_upstream : Upstream :=
  mkUpstream
    (fun _ _ _ => GetOK [entry "a.com"; entry "b.com"; entry "c.com"])
    (fun _ domain _ _ =>
       if String.eqb domain "a.com"
       then GetOK [mkRecordEntry "www" "A" "1.2.3.4" 300 0 "{}"]
       else if String.eqb domain "b.com" then GetErr ErrQuotaExceeded
       else GetOK [mkRecordEntry "@" "A" "7.7.7.7" 300 0 "{}"])
    (fun _ => false)
    (fun _ => epoch)
    (fun _ => None).

Definition default_GoDaddyConfig : GoDaddyConfig := mkGoDaddyConfig 1000 100.

Definition gd (name : string) : godaddyDomain := mkGodaddyDomain name None (Some "{}").

(* A registrar with the domains a.com, test-x.com, b.com in this order,
   served in pages of two: after no marker, after a.com, after
   test-x.com, after b.com. *)
Definition marker_upstream : Upstream :=
  mkUpstream
    (fun _ _ marker =>
       match marker with
       | None => GetOK [entry "a.com"; entry "test-x.com"]
       | Some m =>
           if String.eqb m "a.com" then GetOK [entry "test-x.com"; entry "b.com"]
           else if String.eqb m "test-x.com" then GetOK [entry "b.com"]
           else GetOK []
       end)
    (fun _ _ _ _ => GetOK [])
    (fun _ => false)
    (fun _ => epoch)
    (fun _ => None).

(* A registrar whose first page holds only domains the collector filters
   out. *)
Definition filtered_upstream : Upstream :=
  mkUpstream
    (fun _ _ _ => GetOK [entry "example.com"; entry "test.com"])
    (fun _ _ _ _ => GetOK [])
    (fun _ => false)
    (fun _ => epoch)
    (fun _ => None).


(* ===================================================================== *)
(* Facts about lists used as tables                                      *)
(* ===================================================================== *)

(* Split a conjunction into its conjuncts, and nothing else. *)
Ltac splits := repeat match goal with |- _ /\ _ => split end.

Section Tables.
Context {A K : Type}.
Variable key : A -> K.

Lemma NoDup_map_key_inj (l : list A) (a b : A) :
  NoDup (map key l) -> In a l -> In b l -> key a = key b -> a = b.
Proof.
  induction l as [|x l IH]; simpl; intros Hnd Ha Hb Hk; [contradiction|].
  inversion Hnd as [|? ? Hnotin Hnd']; subst.
  destruct Ha as [Ha|Ha], Hb as [Hb|Hb]; subst; auto.
  - exfalso. apply Hnotin. rewrite Hk. now apply in_map.
  - exfalso. apply Hnotin. rewrite <- Hk. now apply in_map.
Qed.

(* A statement `UPDATE ... WHERE cond` that keeps the key of every row
   keeps the list of keys. *)
Lemma map_key_update (cond : A -> bool) (f : A -> A) (l : list A) :
  (forall a, key (f a) = key a) ->
  map key (map (fun a => if cond a then f a else a) l) = map key l.
Proof.
  intros Hf. rewrite map_map. apply map_ext. intros a.
  destruct (cond a); auto.
Qed.

Lemma in_update_elim (cond : A -> bool) (f : A -> A) (l : list A) (b : A) :
  In b (map (fun a => if cond a then f a else a) l) ->
  exists a, In a l /\ (if cond a then b = f a else b = a).
Proof.
  intros H. apply in_map_iff in H. destruct H as [a [E Ha]].
  exists a. split; auto. destruct (cond a); auto.
Qed.

Lemma in_update_intro (cond : A -> bool) (f : A -> A) (l : list A) (a : A) :
  In a l -> In (if cond a then f a else a) (map (fun a => if cond a then f a else a) l).
Proof.
  intros H. apply in_map_iff. exists a. auto.
Qed.

End Tables.

Lemma pair_eq_inv {A B : Type} (a c : A) (b d : B) :
  (a, b) = (c, d) -> a = c /\ b = d.
Proof. intros H. inversion H. auto. Qed.



(* ===================================================================== *)
(* The domain merge, statement by statement                              *)
(* ===================================================================== *)

Lemma domain_matches_true name src r :
  domain_matches name src r = true <-> dom_domain r = name /\ dom_registrar r = src.
Proof.
  unfold domain_matches. rewrite andb_true_iff, !String.eqb_eq. tauto.
Qed.

Lemma domain_matches_false name src r :
  domain_matches name src r = false <-> ~ (dom_domain r = name /\ dom_registrar r = src).
Proof.
  rewrite <- domain_matches_true. destruct (domain_matches name src r); split; congruence.
Qed.

Lemma select_domain_id_Some name src rows id :
  select_domain_id name src rows = Some id ->
  exists r, In r rows /\ dom_id r = id /\ dom_domain r = name /\ dom_registrar r = src.
Proof.
  unfold select_domain_id. intros H.
  destruct (find (domain_matches name src) rows) as [r|] eqn:E; simpl in H; [|discriminate].
  inversion H; subst. apply find_some in E. destruct E as [Hin Hm].
  apply domain_matches_true in Hm. exists r. tauto.
Qed.

Lemma select_domain_id_None name src rows :
  select_domain_id name src rows = None ->
  forall r, In r rows -> ~ (dom_domain r = name /\ dom_registrar r = src).
Proof.
  unfold select_domain_id. intros H r Hin.
  destruct (find (domain_matches name src) rows) as [r0|] eqn:E; simpl in H; [discriminate|].
  apply domain_matches_false. eapply find_none; eauto.
Qed.

Lemma select_domain_id_None_existsb name src rows :
  select_domain_id name src rows = None ->
  existsb (domain_matches name src) rows = false.
Proof.
  intros H. destruct (existsb (domain_matches name src) rows) eqn:E; auto.
  apply existsb_exists in E. destruct E as [r [Hin Hm]].
  apply domain_matches_true in Hm.
  exfalso. eapply select_domain_id_None; eauto.
Qed.

Lemma touch_domain_row_key e today raw now r :
  dom_key (touch_domain_row e today raw now r) = dom_key r.
Proof. reflexivity. Qed.

Lemma touch_domain_row_id e today raw now r :
  dom_id (touch_domain_row e today raw now r) = dom_id r.
Proof. reflexivity. Qed.

Lemma update_domain_ids e today raw now id rows :
  map dom_id (update_domain e today raw now id rows) = map dom_id rows.
Proof. unfold update_domain. apply map_key_update. reflexivity. Qed.

Lemma update_domain_keys e today raw now id rows :
  map dom_key (update_domain e today raw now id rows) = map dom_key rows.
Proof. unfold update_domain. apply map_key_update. reflexivity. Qed.

Lemma upsert_domain_other_tables source today now d db :
  dns_records (upsert_domain source today now d db) = dns_records db /\
  sync_rows (upsert_domain source today now d db) = sync_rows db /\
  idx_sync_running (upsert_domain source today now d db) = idx_sync_running db /\
  next_id db <= next_id (upsert_domain source today now d db).
Proof.
  unfold upsert_domain.
  destruct (select_domain_id (d_Domain d) source (domains db)); simpl; auto.
Qed.

Lemma upsert_domain_ok source today now d db :
  domains_ok db -> domains_ok (upsert_domain source today now d db).
Proof.
  intros [Hid Hb Hk]. unfold upsert_domain.
  destruct (select_domain_id (d_Domain d) source (domains db)) as [id|] eqn:E.
  - constructor; simpl.
    + now rewrite update_domain_ids.
    + intros r Hr. apply in_update_elim in Hr. destruct Hr as [a [Ha Hr]].
      destruct (Nat.eqb (dom_id a) id); subst; simpl; auto.
    + now rewrite update_domain_keys.
  - pose proof (select_domain_id_None _ _ _ E) as Hnone.
    constructor; simpl.
    + rewrite map_app. simpl. apply NoDup_app_remove_l with (l := []). simpl.
      apply Permutation_NoDup with (l := next_id db :: map dom_id (domains db)).
      * apply Permutation_cons_append.
      * constructor; auto. intros Hin. apply in_map_iff in Hin.
        destruct Hin as [r [Hr Hin]]. apply Hb in Hin. lia.
    + intros r Hr. apply in_app_or in Hr. destruct Hr as [Hr|[Hr|[]]].
      * apply Hb in Hr. lia.
      * subst. simpl. lia.
    + rewrite map_app. simpl.
      apply Permutation_NoDup with (l := (d_Domain d, source) :: map dom_key (domains db)).
      * apply Permutation_cons_append.
      * constructor; auto. intros Hin. apply in_map_iff in Hin.
        destruct Hin as [r [Hr Hin]]. apply (Hnone r Hin).
        unfold dom_key in Hr. inversion Hr. auto.
Qed.

(* After its round, the domain of the round is in the table, active and
   seen today. *)
Lemma upsert_domain_fresh source today now d db :
  exists r, In r (domains (upsert_domain source today now d db)) /\
            dom_fresh today (d_Domain d) source r.
Proof.
  unfold upsert_domain.
  destruct (select_domain_id (d_Domain d) source (domains db)) as [id|] eqn:E.
  - apply select_domain_id_Some in E. destruct E as [r [Hin [Hid [Hn Hs]]]].
    exists (touch_domain_row (d_ExpiryDate d) today (d_RawData d) now r). split.
    + simpl. unfold update_domain. apply in_map_iff. exists r.
      rewrite Hid, Nat.eqb_refl. auto.
    + unfold dom_fresh; simpl; auto.
  - exists (new_domain_row (next_id db) (d_Domain d) source (d_ExpiryDate d)
              today (d_RawData d) now). split.
    + simpl. apply in_or_app. right. left. reflexivity.
    + unfold dom_fresh; simpl; auto.
Qed.

(* A round leaves every row of another identity as it is. *)
Lemma upsert_domain_frame source today now d db r :
  domains_ok db ->
  In r (domains db) ->
  ~ (dom_domain r = d_Domain d /\ dom_registrar r = source) ->
  In r (domains (upsert_domain source today now d db)).
Proof.
  intros [Hid Hb Hk] Hin Hne. unfold upsert_domain.
  destruct (select_domain_id (d_Domain d) source (domains db)) as [id|] eqn:E.
  - apply select_domain_id_Some in E. destruct E as [r0 [Hin0 [Hid0 [Hn Hs]]]].
    simpl. unfold update_domain. apply in_map_iff. exists r. split; auto.
    destruct (Nat.eqb (dom_id r) id) eqn:Eid; auto.
    apply Nat.eqb_eq in Eid. exfalso. apply Hne.
    assert (r = r0) by (apply (NoDup_map_key_inj dom_id (domains db)); auto; congruence).
    subst. auto.
  - simpl. apply in_or_app. left. auto.
Qed.

(* A round keeps every row it finds, untouched or touched by the UPDATE. *)
Lemma upsert_domain_persist source today now d db r :
  domains_ok db ->
  In r (domains db) ->
  In r (domains (upsert_domain source today now d db)) \/
  (dom_domain r = d_Domain d /\ dom_registrar r = source /\
   In (touch_domain_row (d_ExpiryDate d) today (d_RawData d) now r)
      (domains (upsert_domain source today now d db))).
Proof.
  intros Hok Hin.
  destruct (domain_matches (d_Domain d) source r) eqn:Em.
  - right. apply domain_matches_true in Em. destruct Em as [Hn Hs].
    split; [auto|split; [auto|]].
    unfold upsert_domain.
    destruct (select_domain_id (d_Domain d) source (domains db)) as [id|] eqn:E.
    + apply select_domain_id_Some in E. destruct E as [r0 [Hin0 [Hid0 [Hn0 Hs0]]]].
      assert (r = r0).
      { apply (NoDup_map_key_inj dom_key (domains db)); auto.
        - apply Hok.
        - unfold dom_key. congruence. }
      subst r0. simpl. unfold update_domain. apply in_map_iff. exists r.
      rewrite Hid0, Nat.eqb_refl. auto.
    + exfalso. apply (select_domain_id_None _ _ _ E r Hin). auto.
  - left. apply domain_matches_false in Em.
    apply upsert_domain_frame; auto.
Qed.

(* Where the rows after a round come from. *)
Lemma upsert_domain_origin source today now d db r' :
  domains_ok db ->
  In r' (domains (upsert_domain source today now d db)) ->
  In r' (domains db) \/
  (exists r, In r (domains db) /\ dom_domain r = d_Domain d /\
             dom_registrar r = source /\
             r' = touch_domain_row (d_ExpiryDate d) today (d_RawData d) now r) \/
  ((forall r, In r (domains db) ->
              ~ (dom_domain r = d_Domain d /\ dom_registrar r = source)) /\
   r' = new_domain_row (next_id db) (d_Domain d) source (d_ExpiryDate d) today
          (d_RawData d) now).
Proof.
  intros Hok. unfold upsert_domain.
  destruct (select_domain_id (d_Domain d) source (domains db)) as [id|] eqn:E.
  - simpl. intros H. apply in_update_elim in H. destruct H as [a [Ha H]].
    destruct (Nat.eqb (dom_id a) id) eqn:Eid.
    + apply Nat.eqb_eq in Eid.
      apply select_domain_id_Some in E. destruct E as [r0 [Hin0 [Hid0 [Hn0 Hs0]]]].
      assert (a = r0).
      { apply (NoDup_map_key_inj dom_id (domains db)); auto.
        - apply Hok.
        - congruence. }
      subst r0. right. left. exists a. tauto.
    + left. subst. auto.
  - simpl. intros H. apply in_app_or in H. destruct H as [H|[H|[]]].
    + left; auto.
    + right. right. split; auto. apply select_domain_id_None; auto.
Qed.

(* ---------------- a whole batch ---------------- *)

Lemma upserted_domains_ok source today ds db db' :
  upserted_domains source today ds db db' -> domains_ok db -> domains_ok db'.
Proof.
  induction 1; auto using upsert_domain_ok.
Qed.

Lemma upserted_domains_other_tables source today ds db db' :
  upserted_domains source today ds db db' ->
  dns_records db' = dns_records db /\ sync_rows db' = sync_rows db /\
  idx_sync_running db' = idx_sync_running db /\ next_id db <= next_id db'.
Proof.
  induction 1 as [db|d ds now db db' H IH]; [auto|].
  destruct IH as [I1 [I2 [I3 I4]]].
  destruct (upsert_domain_other_tables source today now d db) as [J1 [J2 [J3 J4]]].
  repeat split; try congruence. lia.
Qed.

(* A row that is fresh stays fresh through the rounds that follow. *)
Lemma upsert_domain_keeps_fresh source today now d db name :
  domains_ok db ->
  (exists r, In r (domains db) /\ dom_fresh today name source r) ->
  exists r, In r (domains (upsert_domain source today now d db)) /\
            dom_fresh today name source r.
Proof.
  intros Hok [r [Hin Hf]].
  destruct (upsert_domain_persist source today now d db r Hok Hin) as [H|[Hn [Hs H]]].
  - exists r. auto.
  - eexists. split; [exact H|].
    destruct Hf as [F1 [F2 [F3 F4]]]. unfold dom_fresh. simpl. auto.
Qed.

Lemma upserted_domains_keeps_fresh source today ds db db' name :
  upserted_domains source today ds db db' ->
  domains_ok db ->
  (exists r, In r (domains db) /\ dom_fresh today name source r) ->
  exists r, In r (domains db') /\ dom_fresh today name source r.
Proof.
  induction 1 as [db|d ds now db db' H IH]; intros Hok Hex; [auto|].
  apply IH; auto using upsert_domain_ok, upsert_domain_keeps_fresh.
Qed.

(* Every domain of the batch ends up in the table, active and seen today. *)
Lemma upserted_domains_fresh source today ds db db' d :
  upserted_domains source today ds db db' ->
  domains_ok db ->
  In d ds ->
  exists r, In r (domains db') /\ dom_fresh today (d_Domain d) source r.
Proof.
  induction 1 as [db|d0 ds now db db' H IH]; intros Hok Hin; [contradiction|].
  destruct Hin as [->|Hin].
  - eapply upserted_domains_keeps_fresh; eauto using upsert_domain_ok.
    apply upsert_domain_fresh.
  - apply IH; auto using upsert_domain_ok.
Qed.

(* Rows whose identity is not in the batch are left as they are. *)
Lemma upserted_domains_frame source today ds db db' r :
  upserted_domains source today ds db db' ->
  domains_ok db ->
  In r (domains db) ->
  ~ (dom_registrar r = source /\ In (dom_domain r) (map d_Domain ds)) ->
  In r (domains db').
Proof.
  induction 1 as [db|d ds now db db' H IH]; intros Hok Hin Hne; [auto|].
  apply IH; auto using upsert_domain_ok.
  - apply upsert_domain_frame; auto.
    intros [Hn Hs]. apply Hne. split; auto. simpl. auto.
  - intros [Hs Hn]. apply Hne. split; auto. simpl. auto.
Qed.

Lemma upserted_domains_persist source today ds db db' :
  upserted_domains source today ds db db' ->
  domains_ok db ->
  forall r, In r (domains db) ->
  In r (domains db') \/
  exists r', In r' (domains db') /\ dom_touched source today (map d_Domain ds) r r'.
Proof.
  induction 1 as [db|d ds now db db' H IH]; intros Hok r Hin; [auto|].
  pose proof (upsert_domain_ok source today now d db Hok) as Hok1.
  destruct (upsert_domain_persist source today now d db r Hok Hin) as [H1|[Hn [Hs H1]]].
  - destruct (IH Hok1 r H1) as [H2|[r' [H2 [T1 [T2 T3]]]]]; auto.
    right. exists r'. split; auto. split; auto. split; auto. simpl; auto.
  - right. destruct (IH Hok1 _ H1) as [H2|[r' [H2 [T1 [T2 [e [raw [now' T3]]]]]]]].
    + eexists. split; [exact H2|]. split; auto. split; [simpl; auto|].
      eauto.
    + exists r'. split; auto. split; auto. split; [simpl; auto|].
      exists e, raw, now'. subst r'. reflexivity.
Qed.

Lemma upserted_domains_origin source today ds db db' r' :
  upserted_domains source today ds db db' ->
  domains_ok db ->
  In r' (domains db') ->
  In r' (domains db) \/
  (exists r, In r (domains db) /\ dom_touched source today (map d_Domain ds) r r') \/
  ((forall r, In r (domains db) -> dom_key r <> dom_key r') /\
   dom_inserted source today (map d_Domain ds) (next_id db) r').
Proof.
  induction 1 as [db|d ds now db db' H IH]; intros Hok Hin; [auto|].
  pose proof (upsert_domain_ok source today now d db Hok) as Hok1.
  destruct (upsert_domain_other_tables source today now d db) as [_ [_ [_ Hnext]]].
  destruct (IH Hok1 Hin) as [H1|[[r1 [H1 [T1 [T2 [e [raw [now' T3]]]]]]]|[Hnew H1]]].
  - destruct (upsert_domain_origin source today now d db r' Hok H1)
      as [H2|[[r [H2 [Hn [Hs E]]]]|[Hnone E]]].
    + auto.
    + right. left. exists r. split; auto. split; auto. split; [simpl; auto|]. eauto.
    + right. right. split.
      * intros r Hr Hk. apply (Hnone r Hr). subst r'. unfold dom_key in Hk.
        simpl in Hk. inversion Hk. auto.
      * subst r'. unfold dom_inserted. simpl. repeat split; auto.
  - destruct (upsert_domain_origin source today now d db r1 Hok H1)
      as [H2|[[r [H2 [Hn [Hs E]]]]|[Hnone E]]].
    + right. left. exists r1. split; auto. split; auto. split; [simpl; auto|]. eauto.
    + right. left. exists r. split; auto. split; auto. split; [simpl; auto|].
      exists e, raw, now'. rewrite T3, E. reflexivity.
    + right. right. split.
      * intros r Hr Hk. apply (Hnone r Hr).
        rewrite T3, touch_domain_row_key, E in Hk. unfold dom_key in Hk.
        simpl in Hk. inversion Hk. auto.
      * rewrite T3, E. unfold dom_inserted. simpl. repeat split; auto.
  - right. right. destruct H1 as [I1 [I2 [I3 [I4 [I5 I6]]]]]. split.
    + intros r Hr Hk.
      destruct (upsert_domain_persist source today now d db r Hok Hr) as [P|[_ [_ P]]].
      * apply (Hnew r P Hk).
      * apply (Hnew _ P). rewrite touch_domain_row_key. exact Hk.
    + unfold dom_inserted. repeat split; auto; try lia. simpl; auto.
Qed.

(* ---------------- the tombstone statement ---------------- *)

Lemma domain_is_stale_true src today r :
  domain_is_stale src today r = true <->
  dom_registrar r = src /\ dom_status r = active /\ (dom_last_seen r < today)%Z.
Proof.
  unfold domain_is_stale. rewrite !andb_true_iff, String.eqb_eq, Z.ltb_lt.
  destruct (dom_status r); simpl; intuition congruence.
Qed.

Lemma mark_removed_domains_ok src today now db :
  domains_ok db ->
  domains_ok (set_domains db (mark_removed_domains src today now (domains db))).
Proof.
  intros [Hid Hb Hk]. unfold mark_removed_domains. constructor; simpl.
  - rewrite map_key_update; auto.
  - intros r Hr. apply in_update_elim in Hr. destruct Hr as [a [Ha Hr]].
    destruct (domain_is_stale src today a); subst; simpl; auto.
  - rewrite map_key_update; auto.
Qed.

Lemma mark_removed_domains_stale src today now rows r :
  In r rows -> domain_is_stale src today r = true ->
  In (bury_domain_row now r) (mark_removed_domains src today now rows).
Proof.
  intros Hin Hs. unfold mark_removed_domains. apply in_map_iff. exists r.
  rewrite Hs. auto.
Qed.

Lemma mark_removed_domains_kept src today now rows r :
  In r rows -> domain_is_stale src today r = false ->
  In r (mark_removed_domains src today now rows).
Proof.
  intros Hin Hs. unfold mark_removed_domains. apply in_map_iff. exists r.
  rewrite Hs. auto.
Qed.

Lemma mark_removed_domains_origin src today now rows r' :
  In r' (mark_removed_domains src today now rows) ->
  exists r, In r rows /\
    ((domain_is_stale src today r = true /\ r' = bury_domain_row now r) \/
     (domain_is_stale src today r = false /\ r' = r)).
Proof.
  intros H. apply in_update_elim in H. destruct H as [a [Ha H]].
  exists a. split; auto. destruct (domain_is_stale src today a); auto.
Qed.

Lemma dom_fresh_not_stale today name src src' r :
  dom_fresh today name src r -> domain_is_stale src' today r = false.
Proof.
  intros [_ [_ [_ H]]]. destruct (domain_is_stale src' today r) eqn:E; auto.
  apply domain_is_stale_true in E. lia.
Qed.



(* ---------------- the code against the rounds ---------------- *)

Lemma merge_domains_round env source today d rest stats tx stats' tx' :
  merge_domains_loop env source today (d :: rest) stats tx = (inr stats', tx') ->
  db_fault env (tx_tick tx) = false /\
  db_fault env (S (tx_tick tx)) = false /\
  exists stats2,
    merge_domains_loop env source today rest stats2
      (mkTx (tx_committed tx)
            (upsert_domain source today (db_now env (S (tx_tick tx))) d (tx_work tx))
            (tx_done tx) (S (S (tx_tick tx)))) = (inr stats', tx') /\
    (Added stats2 + Updated stats2 = Added stats + Updated stats + 1)%Z /\
    Removed stats2 = Removed stats.
Proof.
  simpl. unfold tx_QueryRow_domain_id, upsert_domain.
  destruct (db_fault env (tx_tick tx)) eqn:F0; [discriminate|].
  destruct (select_domain_id (d_Domain d) source (domains (tx_work tx))) as [id|] eqn:E.
  - unfold tx_Exec_update_domain. simpl.
    destruct (db_fault env (S (tx_tick tx))) eqn:F1; [discriminate|].
    intros H. split; auto. split; auto.
    exists (inc_Updated stats). split; [exact H|]. simpl. split; [lia|auto].
  - unfold tx_Exec_insert_domain. simpl.
    destruct (db_fault env (S (tx_tick tx))) eqn:F1; [discriminate|].
    rewrite (select_domain_id_None_existsb _ _ _ E).
    intros H. split; auto. split; auto.
    exists (inc_Added stats). split; [exact H|]. simpl. split; [lia|auto].
Qed.

Lemma merge_domains_loop_success env source today ds :
  forall stats tx stats' tx',
  merge_domains_loop env source today ds stats tx = (inr stats', tx') ->
  upserted_domains source today ds (tx_work tx) (tx_work tx') /\
  tx_committed tx' = tx_committed tx /\
  tx_done tx' = tx_done tx /\
  tx_tick tx' = tx_tick tx + 2 * List.length ds /\
  no_fault env (tx_tick tx) (tx_tick tx') /\
  (Added stats' + Updated stats' =
   Added stats + Updated stats + Z.of_nat (List.length ds))%Z /\
  Removed stats' = Removed stats.
Proof.
  induction ds as [|d rest IH]; intros stats tx stats' tx' H.
  - simpl in H. inversion H; subst.
    split; [constructor|]. split; [auto|]. split; [auto|].
    split; [simpl; lia|]. split; [intros t Ht; lia|]. split; [simpl; lia|auto].
  - apply merge_domains_round in H.
    destruct H as [F0 [F1 [stats2 [H [Hs Hr]]]]].
    apply IH in H. simpl in H.
    destruct H as [Hu [Hc [Hd [Ht [Hf [Hs' Hr']]]]]].
    split; [econstructor; exact Hu|]. split; [auto|]. split; [auto|].
    split; [simpl List.length; lia|].
    split; [|split; [simpl List.length; lia|congruence]].
    intros t Hlt.
    destruct (Nat.eq_dec t (tx_tick tx)) as [->|N0]; auto.
    destruct (Nat.eq_dec t (S (tx_tick tx))) as [->|N1]; auto.
    apply Hf. lia.
Qed.

(* Whatever the loop returns, it has written to the transaction only. *)
Lemma merge_domains_loop_tx env source today ds :
  forall stats tx res tx',
  merge_domains_loop env source today ds stats tx = (res, tx') ->
  tx_committed tx' = tx_committed tx /\ tx_done tx' = tx_done tx.
Proof.
  induction ds as [|d rest IH]; intros stats tx res tx' H; simpl in H.
  - inversion H; subst; auto.
  - unfold tx_QueryRow_domain_id in H.
    destruct (db_fault env (tx_tick tx)).
    + inversion H; subst; auto.
    + destruct (select_domain_id (d_Domain d) source (domains (tx_work tx))).
      * unfold tx_Exec_update_domain in H. simpl in H.
        destruct (db_fault env (S (tx_tick tx))).
        -- inversion H; subst; auto.
        -- apply IH in H. simpl in H. exact H.
      * unfold tx_Exec_insert_domain in H. simpl in H.
        destruct (db_fault env (S (tx_tick tx))).
        -- inversion H; subst; auto.
        -- destruct (existsb (domain_matches (d_Domain d) source)
                       (domains (tx_work tx))).
           ++ inversion H; subst; auto.
           ++ apply IH in H. simpl in H. exact H.
Qed.

(* With no fault the loop goes through the whole batch. *)
Lemma merge_domains_loop_total env source today ds :
  forall stats tx,
  no_fault env (tx_tick tx) (tx_tick tx + 2 * List.length ds) ->
  exists stats' tx',
    merge_domains_loop env source today ds stats tx = (inr stats', tx').
Proof.
  induction ds as [|d rest IH]; intros stats tx Hf; simpl.
  - eauto.
  - unfold tx_QueryRow_domain_id.
    rewrite (Hf (tx_tick tx)) by (simpl; lia).
    destruct (select_domain_id (d_Domain d) source (domains (tx_work tx))) eqn:E.
    + unfold tx_Exec_update_domain. simpl.
      rewrite (Hf (S (tx_tick tx))) by (simpl; lia).
      apply IH. simpl. intros t Ht. apply Hf. simpl List.length. lia.
    + unfold tx_Exec_insert_domain. simpl.
      rewrite (Hf (S (tx_tick tx))) by (simpl; lia).
      rewrite (select_domain_id_None_existsb _ _ _ E).
      apply IH. simpl. intros t Ht. apply Hf. simpl List.length. lia.
Qed.

(* A successful MergeDomains is: the rounds of the batch, then the
   tombstone statement, all with the one `today`, then Commit. *)
Lemma MergeDomains_success env source ds w stats w' :
  MergeDomains env source ds w = (inr stats, w') ->
  exists db1 now,
    upserted_domains source (merge_today env w) ds (w_db w) db1 /\
    w_db w' = set_domains db1
      (mark_removed_domains source (merge_today env w) now (domains db1)) /\
    Removed stats = Z.of_nat (List.length
      (filter (domain_is_stale source (merge_today env w)) (domains db1))) /\
    (Added stats + Updated stats = Z.of_nat (List.length ds))%Z /\
    w_tick w' = w_tick w + domains_trips (List.length ds) /\
    no_fault env (w_tick w) (w_tick w').
Proof.
  unfold MergeDomains, db_BeginTx, merge_today, domains_trips.
  destruct (db_fault env (w_tick w)) eqn:F0; [discriminate|].
  unfold merge_domains_body, time_Now. simpl.
  destruct (merge_domains_loop env source (Format_date (clock env (S (w_tick w)))) ds
              (mkMergeStats 0 0 0)
              (mkTx (w_db w) (w_db w) false (S (w_tick w))))
    as [[e|stats1] tx1] eqn:L; [discriminate|].
  apply merge_domains_loop_success in L. simpl in L.
  destruct L as [Hu [Hc [Hd [Ht [Hf [Hs Hr]]]]]].
  unfold tx_Exec_mark_removed_domains.
  destruct (db_fault env (tx_tick tx1)) eqn:F1; [discriminate|].
  unfold tx_Commit. simpl. rewrite Hd.
  destruct (db_fault env (S (tx_tick tx1))) eqn:F2; [discriminate|].
  unfold tx_Rollback, tx_close. simpl.
  intros H. inversion H; subst; clear H. simpl.
  exists (tx_work tx1), (db_now env (tx_tick tx1)).
  split; [exact Hu|]. split; [reflexivity|]. split; [reflexivity|].
  split; [lia|]. split; [lia|].
  intros t Hlt.
  destruct (Nat.eq_dec t (w_tick w)) as [->|N0]; auto.
  destruct (Nat.eq_dec t (tx_tick tx1)) as [->|N1]; auto.
  destruct (Nat.eq_dec t (S (tx_tick tx1))) as [->|N2]; auto.
  apply Hf. lia.
Qed.

(* With no fault on its round trips MergeDomains succeeds. *)
Lemma MergeDomains_total env source ds w :
  no_fault env (w_tick w) (w_tick w + domains_trips (List.length ds)) ->
  exists stats w', MergeDomains env source ds w = (inr stats, w').
Proof.
  unfold domains_trips. intros Hf. unfold MergeDomains, db_BeginTx.
  rewrite (Hf (w_tick w)) by lia.
  unfold merge_domains_body, time_Now. simpl.
  destruct (merge_domains_loop_total env source
              (Format_date (clock env (S (w_tick w)))) ds (mkMergeStats 0 0 0)
              (mkTx (w_db w) (w_db w) false (S (w_tick w)))) as [s1 [tx1 L]].
  { simpl. intros t Ht. apply Hf. lia. }
  rewrite L.
  apply merge_domains_loop_success in L. simpl in L.
  destruct L as [Hu [Hc [Hd [Ht [Hf' [Hs Hr]]]]]].
  unfold tx_Exec_mark_removed_domains.
  rewrite (Hf (tx_tick tx1)) by lia.
  unfold tx_Commit. simpl. rewrite Hd.
  rewrite (Hf (S (tx_tick tx1))) by lia.
  eauto.
Qed.

(* Atomicity: on any error the committed database is the one of the call. *)
Lemma MergeDomains_error env source ds w e w' :
  MergeDomains env source ds w = (inl e, w') -> w_db w' = w_db w.
Proof.
  unfold MergeDomains, db_BeginTx.
  destruct (db_fault env (w_tick w)).
  - intros H. inversion H; subst. reflexivity.
  - unfold merge_domains_body, time_Now. simpl.
    destruct (merge_domains_loop env source (Format_date (clock env (S (w_tick w)))) ds
                (mkMergeStats 0 0 0)
                (mkTx (w_db w) (w_db w) false (S (w_tick w))))
      as [[e1|stats1] tx1] eqn:L;
      apply merge_domains_loop_tx in L; simpl in L; destruct L as [Hc Hd].
    + intros H. inversion H; subst. unfold tx_Rollback, tx_close.
      rewrite Hd. simpl. auto.
    + unfold tx_Exec_mark_removed_domains.
      destruct (db_fault env (tx_tick tx1)).
      * intros H. inversion H; subst. unfold tx_Rollback, tx_close. simpl.
        rewrite Hd. simpl. auto.
      * unfold tx_Commit. simpl. rewrite Hd.
        destruct (db_fault env (S (tx_tick tx1))).
        -- intros H. inversion H; subst. unfold tx_Rollback, tx_close. simpl. auto.
        -- intros H. inversion H.
Qed.



(* ===================================================================== *)
(* The DNS record merge, statement by statement                          *)
(* ===================================================================== *)

Lemma record_matches_true dom sub typ dat src r :
  record_matches dom sub typ dat src r = true <->
  dns_sig r = (dom, sub, typ, dat) /\ dns_source r = src.
Proof.
  unfold record_matches, dns_sig. rewrite !andb_true_iff, !String.eqb_eq.
  split.
  - intros [[[[-> ->] ->] ->] ->]. auto.
  - intros [H ->]. inversion H. auto.
Qed.

Lemma record_matches_false dom sub typ dat src r :
  record_matches dom sub typ dat src r = false <->
  ~ (dns_sig r = (dom, sub, typ, dat) /\ dns_source r = src).
Proof.
  rewrite <- record_matches_true.
  destruct (record_matches dom sub typ dat src r); split; congruence.
Qed.

Lemma select_record_Some r source rows id :
  select_record r source rows = Some id ->
  exists x, In x rows /\ dns_id x = id /\ dns_sig x = rec_sig r /\ dns_source x = source.
Proof.
  unfold select_record, select_record_id. intros H.
  destruct (find (record_matches (r_Domain r) (r_Subdomain r) (r_RecordType r)
                    (r_Data r) source) rows) as [x|] eqn:E; simpl in H; [|discriminate].
  inversion H; subst. apply find_some in E. destruct E as [Hin Hm].
  apply record_matches_true in Hm. exists x. unfold rec_sig. tauto.
Qed.

Lemma select_record_None r source rows :
  select_record r source rows = None ->
  forall x, In x rows -> ~ (dns_sig x = rec_sig r /\ dns_source x = source).
Proof.
  unfold select_record, select_record_id. intros H x Hin.
  destruct (find (record_matches (r_Domain r) (r_Subdomain r) (r_RecordType r)
                    (r_Data r) source) rows) as [x0|] eqn:E; simpl in H; [discriminate|].
  apply record_matches_false. eapply find_none; eauto.
Qed.

Lemma select_record_None_existsb r source rows :
  select_record r source rows = None ->
  existsb (record_matches (r_Domain r) (r_Subdomain r) (r_RecordType r)
             (r_Data r) source) rows = false.
Proof.
  intros H.
  destruct (existsb (record_matches (r_Domain r) (r_Subdomain r) (r_RecordType r)
                       (r_Data r) source) rows) eqn:E; auto.
  apply existsb_exists in E. destruct E as [x [Hin Hm]].
  apply record_matches_true in Hm.
  exfalso. eapply select_record_None; eauto.
Qed.

Lemma touch_dns_row_key ttl prio today raw now r :
  dns_key (touch_dns_row ttl prio today raw now r) = dns_key r.
Proof. reflexivity. Qed.

Lemma update_record_ids ttl prio today raw now id rows :
  map dns_id (update_record ttl prio today raw now id rows) = map dns_id rows.
Proof. unfold update_record. apply map_key_update. reflexivity. Qed.

Lemma update_record_keys ttl prio today raw now id rows :
  map dns_key (update_record ttl prio today raw now id rows) = map dns_key rows.
Proof. unfold update_record. apply map_key_update. reflexivity. Qed.

Lemma upsert_record_other_tables source today now r db :
  domains (upsert_record source today now r db) = domains db /\
  sync_rows (upsert_record source today now r db) = sync_rows db /\
  idx_sync_running (upsert_record source today now r db) = idx_sync_running db /\
  next_id db <= next_id (upsert_record source today now r db).
Proof.
  unfold upsert_record.
  destruct (select_record r source (dns_records db)); simpl; auto.
Qed.

Lemma upsert_record_ok source today now r db :
  records_ok db -> records_ok (upsert_record source today now r db).
Proof.
  intros [Hid Hb Hk]. unfold upsert_record.
  destruct (select_record r source (dns_records db)) as [id|] eqn:E.
  - constructor; simpl.
    + now rewrite update_record_ids.
    + intros x Hx. apply in_update_elim in Hx. destruct Hx as [a [Ha Hx]].
      destruct (Nat.eqb (dns_id a) id); subst; simpl; auto.
    + now rewrite update_record_keys.
  - pose proof (select_record_None _ _ _ E) as Hnone.
    constructor; simpl.
    + rewrite map_app. simpl.
      apply Permutation_NoDup with (l := next_id db :: map dns_id (dns_records db)).
      * apply Permutation_cons_append.
      * constructor; auto. intros Hin. apply in_map_iff in Hin.
        destruct Hin as [x [Hx Hin]]. apply Hb in Hin. lia.
    + intros x Hx. apply in_app_or in Hx. destruct Hx as [Hx|[Hx|[]]].
      * apply Hb in Hx. lia.
      * subst. simpl. lia.
    + rewrite map_app. simpl.
      apply Permutation_NoDup with (l := (rec_sig r, source) :: map dns_key (dns_records db)).
      * apply Permutation_cons_append.
      * constructor; auto. intros Hin. apply in_map_iff in Hin.
        destruct Hin as [x [Hx Hin]]. apply (Hnone x Hin).
        unfold dns_key in Hx. apply pair_eq_inv in Hx. exact Hx.
Qed.

Lemma upsert_record_fresh source today now r db :
  exists x, In x (dns_records (upsert_record source today now r db)) /\
            dns_fresh today (rec_sig r) source x.
Proof.
  unfold upsert_record.
  destruct (select_record r source (dns_records db)) as [id|] eqn:E.
  - apply select_record_Some in E. destruct E as [x [Hin [Hid [Hn Hs]]]].
    exists (touch_dns_row (r_TTL r) (r_Priority r) today (r_RawData r) now x). split.
    + simpl. unfold update_record. apply in_map_iff. exists x.
      rewrite Hid, Nat.eqb_refl. auto.
    + unfold dns_fresh; simpl; auto.
  - exists (new_dns_row (next_id db) (r_Domain r) (r_Subdomain r) (r_RecordType r)
              (r_Data r) (r_TTL r) (r_Priority r) source today (r_RawData r) now).
    split.
    + simpl. apply in_or_app. right. left. reflexivity.
    + unfold dns_fresh; simpl; auto.
Qed.

Lemma upsert_record_frame source today now r db x :
  records_ok db ->
  In x (dns_records db) ->
  ~ (dns_sig x = rec_sig r /\ dns_source x = source) ->
  In x (dns_records (upsert_record source today now r db)).
Proof.
  intros [Hid Hb Hk] Hin Hne. unfold upsert_record.
  destruct (select_record r source (dns_records db)) as [id|] eqn:E.
  - apply select_record_Some in E. destruct E as [x0 [Hin0 [Hid0 [Hn Hs]]]].
    simpl. unfold update_record. apply in_map_iff. exists x. split; auto.
    destruct (Nat.eqb (dns_id x) id) eqn:Eid; auto.
    apply Nat.eqb_eq in Eid. exfalso. apply Hne.
    assert (x = x0) by (apply (NoDup_map_key_inj dns_id (dns_records db)); auto; congruence).
    subst. auto.
  - simpl. apply in_or_app. left. auto.
Qed.

Lemma upsert_record_persist source today now r db x :
  records_ok db ->
  In x (dns_records db) ->
  In x (dns_records (upsert_record source today now r db)) \/
  (dns_sig x = rec_sig r /\ dns_source x = source /\
   In (touch_dns_row (r_TTL r) (r_Priority r) today (r_RawData r) now x)
      (dns_records (upsert_record source today now r db))).
Proof.
  intros Hok Hin.
  destruct (record_matches (r_Domain r) (r_Subdomain r) (r_RecordType r) (r_Data r)
              source x) eqn:Em.
  - right. apply record_matches_true in Em. destruct Em as [Hn Hs].
    split; [auto|split; [auto|]].
    unfold upsert_record.
    destruct (select_record r source (dns_records db)) as [id|] eqn:E.
    + apply select_record_Some in E. destruct E as [x0 [Hin0 [Hid0 [Hn0 Hs0]]]].
      assert (x = x0).
      { apply (NoDup_map_key_inj dns_key (dns_records db)); auto.
        - apply Hok.
        - unfold dns_key. rewrite Hn, Hn0. unfold rec_sig. congruence. }
      subst x0. simpl. unfold update_record. apply in_map_iff. exists x.
      rewrite Hid0, Nat.eqb_refl. auto.
    + exfalso. apply (select_record_None _ _ _ E x Hin). auto.
  - left. apply record_matches_false in Em.
    apply upsert_record_frame; auto.
Qed.

Lemma upsert_record_origin source today now r db x' :
  records_ok db ->
  In x' (dns_records (upsert_record source today now r db)) ->
  In x' (dns_records db) \/
  (exists x, In x (dns_records db) /\ dns_sig x = rec_sig r /\
             dns_source x = source /\
             x' = touch_dns_row (r_TTL r) (r_Priority r) today (r_RawData r) now x) \/
  ((forall x, In x (dns_records db) ->
              ~ (dns_sig x = rec_sig r /\ dns_source x = source)) /\
   x' = new_dns_row (next_id db) (r_Domain r) (r_Subdomain r) (r_RecordType r)
          (r_Data r) (r_TTL r) (r_Priority r) source today (r_RawData r) now).
Proof.
  intros Hok. unfold upsert_record.
  destruct (select_record r source (dns_records db)) as [id|] eqn:E.
  - simpl. intros H. apply in_update_elim in H. destruct H as [a [Ha H]].
    destruct (Nat.eqb (dns_id a) id) eqn:Eid.
    + apply Nat.eqb_eq in Eid.
      apply select_record_Some in E. destruct E as [x0 [Hin0 [Hid0 [Hn0 Hs0]]]].
      assert (a = x0).
      { apply (NoDup_map_key_inj dns_id (dns_records db)); auto.
        - apply Hok.
        - congruence. }
      subst x0. right. left. exists a. tauto.
    + left. subst. auto.
  - simpl. intros H. apply in_app_or in H. destruct H as [H|[H|[]]].
    + left; auto.
    + right. right. split; auto. apply select_record_None; auto.
Qed.



(* ---------------- a whole batch of records ---------------- *)

Lemma upserted_records_ok source today rs db db' :
  upserted_records source today rs db db' -> records_ok db -> records_ok db'.
Proof.
  induction 1; auto using upsert_record_ok.
Qed.

Lemma upserted_records_other_tables source today rs db db' :
  upserted_records source today rs db db' ->
  domains db' = domains db /\ sync_rows db' = sync_rows db /\
  idx_sync_running db' = idx_sync_running db /\ next_id db <= next_id db'.
Proof.
  induction 1 as [db|r rs now db db' H IH]; [auto|].
  destruct IH as [I1 [I2 [I3 I4]]].
  destruct (upsert_record_other_tables source today now r db) as [J1 [J2 [J3 J4]]].
  repeat split; try congruence. lia.
Qed.

Lemma upsert_record_keeps_fresh source today now r db sg :
  records_ok db ->
  (exists x, In x (dns_records db) /\ dns_fresh today sg source x) ->
  exists x, In x (dns_records (upsert_record source today now r db)) /\
            dns_fresh today sg source x.
Proof.
  intros Hok [x [Hin Hf]].
  destruct (upsert_record_persist source today now r db x Hok Hin) as [H|[Hn [Hs H]]].
  - exists x. auto.
  - eexists. split; [exact H|].
    destruct Hf as [F1 [F2 [F3 F4]]]. unfold dns_fresh. simpl. auto.
Qed.

Lemma upserted_records_keeps_fresh source today rs db db' sg :
  upserted_records source today rs db db' ->
  records_ok db ->
  (exists x, In x (dns_records db) /\ dns_fresh today sg source x) ->
  exists x, In x (dns_records db') /\ dns_fresh today sg source x.
Proof.
  induction 1 as [db|r rs now db db' H IH]; intros Hok Hex; [auto|].
  apply IH; auto using upsert_record_ok, upsert_record_keeps_fresh.
Qed.

Lemma upserted_records_fresh source today rs db db' r :
  upserted_records source today rs db db' ->
  records_ok db ->
  In r rs ->
  exists x, In x (dns_records db') /\ dns_fresh today (rec_sig r) source x.
Proof.
  induction 1 as [db|r0 rs now db db' H IH]; intros Hok Hin; [contradiction|].
  destruct Hin as [->|Hin].
  - eapply upserted_records_keeps_fresh; eauto using upsert_record_ok.
    apply upsert_record_fresh.
  - apply IH; auto using upsert_record_ok.
Qed.

(* Rows whose signature is not in the batch are left as they are. *)
Lemma upserted_records_frame source today rs db db' x :
  upserted_records source today rs db db' ->
  records_ok db ->
  In x (dns_records db) ->
  ~ (dns_source x = source /\ In (dns_sig x) (map rec_sig rs)) ->
  In x (dns_records db').
Proof.
  induction 1 as [db|r rs now db db' H IH]; intros Hok Hin Hne; [auto|].
  apply IH; auto using upsert_record_ok.
  - apply upsert_record_frame; auto.
    intros [Hn Hs]. apply Hne. split; auto. simpl. auto.
  - intros [Hs Hn]. apply Hne. split; auto. simpl. auto.
Qed.

Lemma upserted_records_persist source today rs db db' :
  upserted_records source today rs db db' ->
  records_ok db ->
  forall x, In x (dns_records db) ->
  In x (dns_records db') \/
  exists x', In x' (dns_records db') /\ dns_touched source today (map rec_sig rs) x x'.
Proof.
  induction 1 as [db|r rs now db db' H IH]; intros Hok x Hin; [auto|].
  pose proof (upsert_record_ok source today now r db Hok) as Hok1.
  destruct (upsert_record_persist source today now r db x Hok Hin) as [H1|[Hn [Hs H1]]].
  - destruct (IH Hok1 x H1) as [H2|[x' [H2 [T1 [T2 T3]]]]]; auto.
    right. exists x'. split; auto. split; auto. split; auto. simpl; auto.
  - right.
    destruct (IH Hok1 _ H1) as [H2|[x' [H2 [T1 [T2 [ttl [prio [raw [now' T3]]]]]]]]].
    + eexists. split; [exact H2|]. split; auto. split; [simpl; auto|].
      eauto.
    + exists x'. split; auto. split; auto. split; [simpl; auto|].
      exists ttl, prio, raw, now'. subst x'. reflexivity.
Qed.

Lemma upserted_records_origin source today rs db db' x' :
  upserted_records source today rs db db' ->
  records_ok db ->
  In x' (dns_records db') ->
  In x' (dns_records db) \/
  (exists x, In x (dns_records db) /\ dns_touched source today (map rec_sig rs) x x') \/
  ((forall x, In x (dns_records db) -> dns_key x <> dns_key x') /\
   dns_inserted source today (map rec_sig rs) (next_id db) x').
Proof.
  induction 1 as [db|r rs now db db' H IH]; intros Hok Hin; [auto|].
  pose proof (upsert_record_ok source today now r db Hok) as Hok1.
  destruct (upsert_record_other_tables source today now r db) as [_ [_ [_ Hnext]]].
  destruct (IH Hok1 Hin)
    as [H1|[[x1 [H1 [T1 [T2 [ttl [prio [raw [now' T3]]]]]]]]|[Hnew H1]]].
  - destruct (upsert_record_origin source today now r db x' Hok H1)
      as [H2|[[x [H2 [Hn [Hs E]]]]|[Hnone E]]].
    + auto.
    + right. left. exists x. split; auto. split; auto.
      split; [simpl; left; auto|]. eauto.
    + right. right. split.
      * intros x Hx Hk. apply (Hnone x Hx). rewrite E in Hk. unfold dns_key in Hk.
        apply pair_eq_inv in Hk. exact Hk.
      * rewrite E. unfold dns_inserted. simpl. repeat split; auto.
  - destruct (upsert_record_origin source today now r db x1 Hok H1)
      as [H2|[[x [H2 [Hn [Hs E]]]]|[Hnone E]]].
    + right. left. exists x1. split; auto. split; auto. split; [simpl; auto|]. eauto.
    + right. left. exists x. split; auto. split; auto.
      split; [simpl; left; auto|].
      exists ttl, prio, raw, now'. rewrite T3, E. reflexivity.
    + right. right. split.
      * intros x Hx Hk. apply (Hnone x Hx).
        rewrite T3, touch_dns_row_key, E in Hk. unfold dns_key in Hk.
        apply pair_eq_inv in Hk. exact Hk.
      * rewrite T3, E. unfold dns_inserted. simpl. repeat split; auto.
  - right. right. destruct H1 as [I1 [I2 [I3 [I4 [I5 I6]]]]]. split.
    + intros x Hx Hk.
      destruct (upsert_record_persist source today now r db x Hok Hx) as [P|[_ [_ P]]].
      * apply (Hnew x P Hk).
      * apply (Hnew _ P). rewrite touch_dns_row_key. exact Hk.
    + unfold dns_inserted. repeat split; auto; try lia. simpl; auto.
Qed.

(* ---------------- the tombstone statements ---------------- *)

Lemma record_is_stale_true src dom today r :
  record_is_stale src dom today r = true <->
  dns_source r = src /\ dns_domain r = dom /\ dns_status r = active /\
  (dns_last_seen r < today)%Z.
Proof.
  unfold record_is_stale. rewrite !andb_true_iff, !String.eqb_eq, Z.ltb_lt.
  destruct (dns_status r); simpl; intuition congruence.
Qed.

Lemma mark_removed_records_keys src dom today now rows :
  map dns_key (mark_removed_records src dom today now rows) = map dns_key rows.
Proof. unfold mark_removed_records. apply map_key_update. reflexivity. Qed.

Lemma mark_removed_records_ids src dom today now rows :
  map dns_id (mark_removed_records src dom today now rows) = map dns_id rows.
Proof. unfold mark_removed_records. apply map_key_update. reflexivity. Qed.

Lemma buried_records_keys src today doms rows rows' :
  buried_records src today doms rows rows' ->
  map dns_key rows' = map dns_key rows /\ map dns_id rows' = map dns_id rows.
Proof.
  induction 1 as [rows|dom doms now rows rows' H [IH1 IH2]]; [auto|].
  rewrite IH1, IH2, mark_removed_records_keys, mark_removed_records_ids. auto.
Qed.

Lemma buried_records_ok src today doms db rows' :
  buried_records src today doms (dns_records db) rows' ->
  records_ok db -> records_ok (set_dns_records db rows').
Proof.
  intros H [Hid Hb Hk]. destruct (buried_records_keys _ _ _ _ _ H) as [K I].
  constructor; simpl.
  - rewrite I. auto.
  - intros r Hr.
    assert (In (dns_id r) (map dns_id (dns_records db))) as Hin
      by (rewrite <- I; now apply in_map).
    apply in_map_iff in Hin. destruct Hin as [x [E Hx]]. rewrite <- E. auto.
  - rewrite K. auto.
Qed.

(* A row no statement of the sweep selects is left as it is. *)
Lemma buried_records_kept src today doms rows rows' r :
  buried_records src today doms rows rows' ->
  In r rows -> ~ dns_stale_in src doms today r -> In r rows'.
Proof.
  induction 1 as [rows|dom doms now rows rows' H IH]; intros Hin Hns; [auto|].
  apply IH.
  - unfold mark_removed_records. apply in_map_iff. exists r. split; auto.
    destruct (record_is_stale src dom today r) eqn:E; auto.
    exfalso. apply Hns. apply record_is_stale_true in E.
    destruct E as [E1 [E2 [E3 E4]]]. unfold dns_stale_in. simpl. auto.
  - intros [S1 [S2 [S3 S4]]]. apply Hns. unfold dns_stale_in. simpl. auto.
Qed.

(* A row a statement of the sweep selects is buried, once. *)
Lemma buried_records_stale src today doms rows rows' r :
  buried_records src today doms rows rows' ->
  In r rows -> dns_stale_in src doms today r ->
  exists now, In (bury_dns_row now r) rows'.
Proof.
  induction 1 as [rows|dom doms now rows rows' H IH]; intros Hin Hs.
  - destruct Hs as [_ [[] _]].
  - destruct (record_is_stale src dom today r) eqn:E.
    + exists now. eapply buried_records_kept; eauto.
      * unfold mark_removed_records. apply in_map_iff. exists r. rewrite E. auto.
      * intros [_ [_ [S3 _]]]. simpl in S3. discriminate.
    + apply IH.
      * unfold mark_removed_records. apply in_map_iff. exists r. rewrite E. auto.
      * destruct Hs as [S1 [S2 [S3 S4]]]. unfold dns_stale_in.
        repeat split; auto. destruct S2 as [S2|S2]; auto.
        exfalso. assert (record_is_stale src dom today r = true)
          by (apply record_is_stale_true; auto).
        congruence.
Qed.

Lemma buried_records_origin src today doms rows rows' r' :
  buried_records src today doms rows rows' ->
  In r' rows' ->
  In r' rows \/
  exists r now, In r rows /\ dns_stale_in src doms today r /\ r' = bury_dns_row now r.
Proof.
  induction 1 as [rows|dom doms now rows rows' H IH]; intros Hin; [auto|].
  destruct (IH Hin) as [H1|[r [now' [H1 [S E]]]]].
  - apply in_update_elim in H1. destruct H1 as [a [Ha H1]].
    destruct (record_is_stale src dom today a) eqn:Es.
    + right. exists a, now. split; auto. split; auto.
      apply record_is_stale_true in Es. destruct Es as [E1 [E2 [E3 E4]]].
      unfold dns_stale_in. simpl. auto.
    + left. subst. auto.
  - apply in_update_elim in H1. destruct H1 as [a [Ha H1]].
    destruct (record_is_stale src dom today a) eqn:Es.
    + exfalso. subst r. destruct S as [_ [_ [S3 _]]]. simpl in S3. discriminate.
    + right. exists a, now'. subst r. split; auto. split; auto.
      destruct S as [S1 [S2 [S3 S4]]]. unfold dns_stale_in. simpl. auto.
Qed.

Lemma dns_fresh_not_stale today sg src src' doms r :
  dns_fresh today sg src r -> ~ dns_stale_in src' doms today r.
Proof.
  intros [_ [_ [_ H]]] [_ [_ [_ S]]]. lia.
Qed.

Lemma in_seenDomains rs dom :
  In dom (seenDomains rs) <-> In dom (map r_Domain rs).
Proof. unfold seenDomains. apply nodup_In. Qed.



(* ---------------- the code against the rounds ---------------- *)

Lemma merge_records_round env source today r rest stats tx stats' tx' :
  merge_records_loop env source today (r :: rest) stats tx = (inr stats', tx') ->
  db_fault env (tx_tick tx) = false /\
  db_fault env (S (tx_tick tx)) = false /\
  exists stats2,
    merge_records_loop env source today rest stats2
      (mkTx (tx_committed tx)
            (upsert_record source today (db_now env (S (tx_tick tx))) r (tx_work tx))
            (tx_done tx) (S (S (tx_tick tx)))) = (inr stats', tx') /\
    (Added stats2 + Updated stats2 = Added stats + Updated stats + 1)%Z /\
    Removed stats2 = Removed stats.
Proof.
  simpl. unfold tx_QueryRow_record_id, upsert_record.
  destruct (db_fault env (tx_tick tx)) eqn:F0; [discriminate|].
  fold (select_record r source (dns_records (tx_work tx))).
  destruct (select_record r source (dns_records (tx_work tx))) as [id|] eqn:E.
  - unfold tx_Exec_update_record. simpl.
    destruct (db_fault env (S (tx_tick tx))) eqn:F1; [discriminate|].
    intros H. split; auto. split; auto.
    exists (inc_Updated stats). split; [exact H|]. simpl. split; [lia|auto].
  - unfold tx_Exec_insert_record. simpl.
    destruct (db_fault env (S (tx_tick tx))) eqn:F1; [discriminate|].
    rewrite (select_record_None_existsb _ _ _ E).
    intros H. split; auto. split; auto.
    exists (inc_Added stats). split; [exact H|]. simpl. split; [lia|auto].
Qed.

Lemma merge_records_loop_success env source today rs :
  forall stats tx stats' tx',
  merge_records_loop env source today rs stats tx = (inr stats', tx') ->
  upserted_records source today rs (tx_work tx) (tx_work tx') /\
  tx_committed tx' = tx_committed tx /\
  tx_done tx' = tx_done tx /\
  tx_tick tx' = tx_tick tx + 2 * List.length rs /\
  no_fault env (tx_tick tx) (tx_tick tx') /\
  (Added stats' + Updated stats' =
   Added stats + Updated stats + Z.of_nat (List.length rs))%Z /\
  Removed stats' = Removed stats.
Proof.
  induction rs as [|r rest IH]; intros stats tx stats' tx' H.
  - simpl in H. inversion H; subst.
    split; [constructor|]. split; [auto|]. split; [auto|].
    split; [simpl; lia|]. split; [intros t Ht; lia|]. split; [simpl; lia|auto].
  - apply merge_records_round in H.
    destruct H as [F0 [F1 [stats2 [H [Hs Hr]]]]].
    apply IH in H. simpl in H.
    destruct H as [Hu [Hc [Hd [Ht [Hf [Hs' Hr']]]]]].
    split; [econstructor; exact Hu|]. split; [auto|]. split; [auto|].
    split; [simpl List.length; lia|].
    split; [|split; [simpl List.length; lia|congruence]].
    intros t Hlt.
    destruct (Nat.eq_dec t (tx_tick tx)) as [->|N0]; auto.
    destruct (Nat.eq_dec t (S (tx_tick tx))) as [->|N1]; auto.
    apply Hf. lia.
Qed.

Lemma merge_records_loop_tx env source today rs :
  forall stats tx res tx',
  merge_records_loop env source today rs stats tx = (res, tx') ->
  tx_committed tx' = tx_committed tx /\ tx_done tx' = tx_done tx.
Proof.
  induction rs as [|r rest IH]; intros stats tx res tx' H; simpl in H.
  - inversion H; subst; auto.
  - unfold tx_QueryRow_record_id in H.
    destruct (db_fault env (tx_tick tx)).
    + inversion H; subst; auto.
    + destruct (select_record_id (r_Domain r) (r_Subdomain r) (r_RecordType r)
                  (r_Data r) source (dns_records (tx_work tx))).
      * unfold tx_Exec_update_record in H. simpl in H.
        destruct (db_fault env (S (tx_tick tx))).
        -- inversion H; subst; auto.
        -- apply IH in H. simpl in H. exact H.
      * unfold tx_Exec_insert_record in H. simpl in H.
        destruct (db_fault env (S (tx_tick tx))).
        -- inversion H; subst; auto.
        -- destruct (existsb (record_matches (r_Domain r) (r_Subdomain r)
                                (r_RecordType r) (r_Data r) source)
                       (dns_records (tx_work tx))).
           ++ inversion H; subst; auto.
           ++ apply IH in H. simpl in H. exact H.
Qed.

Lemma merge_records_loop_total env source today rs :
  forall stats tx,
  no_fault env (tx_tick tx) (tx_tick tx + 2 * List.length rs) ->
  exists stats' tx',
    merge_records_loop env source today rs stats tx = (inr stats', tx').
Proof.
  induction rs as [|r rest IH]; intros stats tx Hf; simpl.
  - eauto.
  - unfold tx_QueryRow_record_id.
    rewrite (Hf (tx_tick tx)) by (simpl; lia).
    fold (select_record r source (dns_records (tx_work tx))).
    destruct (select_record r source (dns_records (tx_work tx))) eqn:E.
    + unfold tx_Exec_update_record. simpl.
      rewrite (Hf (S (tx_tick tx))) by (simpl; lia).
      apply IH. simpl. intros t Ht. apply Hf. simpl List.length. lia.
    + unfold tx_Exec_insert_record. simpl.
      rewrite (Hf (S (tx_tick tx))) by (simpl; lia).
      rewrite (select_record_None_existsb _ _ _ E).
      apply IH. simpl. intros t Ht. apply Hf. simpl List.length. lia.
Qed.

Lemma mark_removed_loop_success env source today doms :
  forall stats tx stats' tx',
  mark_removed_loop env source today doms stats tx = (inr stats', tx') ->
  buried_records source today doms (dns_records (tx_work tx))
    (dns_records (tx_work tx')) /\
  domains (tx_work tx') = domains (tx_work tx) /\
  sync_rows (tx_work tx') = sync_rows (tx_work tx) /\
  next_id (tx_work tx') = next_id (tx_work tx) /\
  idx_sync_running (tx_work tx') = idx_sync_running (tx_work tx) /\
  tx_committed tx' = tx_committed tx /\
  tx_done tx' = tx_done tx /\
  tx_tick tx' = tx_tick tx + List.length doms /\
  no_fault env (tx_tick tx) (tx_tick tx') /\
  Added stats' = Added stats /\ Updated stats' = Updated stats.
Proof.
  induction doms as [|dom rest IH]; intros stats tx stats' tx' H; simpl in H.
  - inversion H; subst.
    splits; auto; try (simpl; lia).
    + constructor.
    + intros t Ht; lia.
  - unfold tx_Exec_mark_removed_records in H.
    destruct (db_fault env (tx_tick tx)) eqn:F0; [discriminate|].
    apply IH in H. simpl in H.
    destruct H as [Hb [H1 [H2 [H3 [H4 [H5 [H6 [H7 [H8 [H9 H10]]]]]]]]]].
    splits; auto; try (simpl List.length; lia).
    + econstructor; exact Hb.
    + intros t Hlt.
      destruct (Nat.eq_dec t (tx_tick tx)) as [->|N0]; auto.
      apply H8. lia.
Qed.

Lemma mark_removed_loop_tx env source today doms :
  forall stats tx res tx',
  mark_removed_loop env source today doms stats tx = (res, tx') ->
  tx_committed tx' = tx_committed tx /\ tx_done tx' = tx_done tx.
Proof.
  induction doms as [|dom rest IH]; intros stats tx res tx' H; simpl in H.
  - inversion H; subst; auto.
  - unfold tx_Exec_mark_removed_records in H.
    destruct (db_fault env (tx_tick tx)).
    + inversion H; subst; auto.
    + apply IH in H. simpl in H. exact H.
Qed.

Lemma mark_removed_loop_total env source today doms :
  forall stats tx,
  no_fault env (tx_tick tx) (tx_tick tx + List.length doms) ->
  exists stats' tx',
    mark_removed_loop env source today doms stats tx = (inr stats', tx').
Proof.
  induction doms as [|dom rest IH]; intros stats tx Hf; simpl.
  - eauto.
  - unfold tx_Exec_mark_removed_records.
    rewrite (Hf (tx_tick tx)) by (simpl; lia).
    apply IH. simpl. intros t Ht. apply Hf. simpl List.length. lia.
Qed.

(* A successful MergeDNSRecords is: the rounds of the batch, then one
   tombstone statement per domain seen, all with the one `today`, then
   Commit. *)
Lemma MergeDNSRecords_success env source rs w stats w' :
  MergeDNSRecords env source rs w = (inr stats, w') ->
  exists db1 rows',
    upserted_records source (merge_today env w) rs (w_db w) db1 /\
    buried_records source (merge_today env w) (seenDomains rs)
      (dns_records db1) rows' /\
    w_db w' = set_dns_records db1 rows' /\
    (Added stats + Updated stats = Z.of_nat (List.length rs))%Z /\
    w_tick w' = w_tick w + records_trips rs /\
    no_fault env (w_tick w) (w_tick w').
Proof.
  unfold MergeDNSRecords, db_BeginTx, merge_today, records_trips.
  destruct (db_fault env (w_tick w)) eqn:F0; [discriminate|].
  unfold merge_records_body, time_Now. simpl.
  destruct (merge_records_loop env source (Format_date (clock env (S (w_tick w)))) rs
              (mkMergeStats 0 0 0)
              (mkTx (w_db w) (w_db w) false (S (w_tick w))))
    as [[e|stats1] tx1] eqn:L; [discriminate|].
  apply merge_records_loop_success in L. simpl in L.
  destruct L as [Hu [Hc [Hd [Ht [Hf [Hs Hr]]]]]].
  destruct (mark_removed_loop env source (Format_date (clock env (S (w_tick w))))
              (seenDomains rs) stats1 tx1) as [[e|stats2] tx2] eqn:M; [discriminate|].
  apply mark_removed_loop_success in M.
  destruct M as [Hb [M1 [M2 [M3 [M4 [M5 [M6 [M7 [M8 [M9 M10]]]]]]]]]].
  unfold tx_Commit. rewrite M6, Hd.
  destruct (db_fault env (tx_tick tx2)) eqn:F2; [discriminate|].
  unfold tx_Rollback, tx_close. simpl.
  intros H. inversion H; subst; clear H. simpl.
  exists (tx_work tx1), (dns_records (tx_work tx2)).
  split; [exact Hu|]. split; [exact Hb|].
  split.
  { destruct (tx_work tx2); simpl in *. unfold set_dns_records. congruence. }
  split; [lia|]. split; [lia|].
  intros t Hlt.
  destruct (Nat.eq_dec t (w_tick w)) as [->|N0]; auto.
  destruct (Nat.eq_dec t (tx_tick tx2)) as [->|N1]; auto.
  destruct (le_lt_dec (tx_tick tx1) t).
  - apply M8. lia.
  - apply Hf. lia.
Qed.

Lemma MergeDNSRecords_total env source rs w :
  no_fault env (w_tick w) (w_tick w + records_trips rs) ->
  exists stats w', MergeDNSRecords env source rs w = (inr stats, w').
Proof.
  unfold records_trips. intros Hf. unfold MergeDNSRecords, db_BeginTx.
  rewrite (Hf (w_tick w)) by lia.
  unfold merge_records_body, time_Now. simpl.
  destruct (merge_records_loop_total env source
              (Format_date (clock env (S (w_tick w)))) rs (mkMergeStats 0 0 0)
              (mkTx (w_db w) (w_db w) false (S (w_tick w)))) as [s1 [tx1 L]].
  { simpl. intros t Ht. apply Hf. lia. }
  rewrite L.
  apply merge_records_loop_success in L. simpl in L.
  destruct L as [Hu [Hc [Hd [Ht [Hf' [Hs Hr]]]]]].
  destruct (mark_removed_loop_total env source
              (Format_date (clock env (S (w_tick w)))) (seenDomains rs) s1 tx1)
    as [s2 [tx2 M]].
  { intros t Hlt. apply Hf. lia. }
  rewrite M.
  apply mark_removed_loop_success in M.
  destruct M as [Hb [M1 [M2 [M3 [M4 [M5 [M6 [M7 [M8 [M9 M10]]]]]]]]]].
  unfold tx_Commit. rewrite M6, Hd.
  rewrite (Hf (tx_tick tx2)) by lia.
  eauto.
Qed.

Lemma MergeDNSRecords_error env source rs w e w' :
  MergeDNSRecords env source rs w = (inl e, w') -> w_db w' = w_db w.
Proof.
  unfold MergeDNSRecords, db_BeginTx.
  destruct (db_fault env (w_tick w)).
  - intros H. inversion H; subst. reflexivity.
  - unfold merge_records_body, time_Now. simpl.
    destruct (merge_records_loop env source (Format_date (clock env (S (w_tick w)))) rs
                (mkMergeStats 0 0 0)
                (mkTx (w_db w) (w_db w) false (S (w_tick w))))
      as [[e1|stats1] tx1] eqn:L;
      apply merge_records_loop_tx in L; simpl in L; destruct L as [Hc Hd].
    + intros H. inversion H; subst. unfold tx_Rollback, tx_close.
      rewrite Hd. simpl. auto.
    + destruct (mark_removed_loop env source (Format_date (clock env (S (w_tick w))))
                  (seenDomains rs) stats1 tx1) as [[e2|stats2] tx2] eqn:M;
        apply mark_removed_loop_tx in M; destruct M as [Mc Md].
      * intros H. inversion H; subst. unfold tx_Rollback, tx_close.
        rewrite Md, Hd. simpl. congruence.
      * unfold tx_Commit. rewrite Md, Hd.
        destruct (db_fault env (tx_tick tx2)).
        -- intros H. inversion H; subst. unfold tx_Rollback, tx_close. simpl.
           congruence.
        -- intros H. inversion H.
Qed.



(* ===================================================================== *)
(* What a successful merge leaves in the inventory                       *)
(* ===================================================================== *)

Lemma in_rec_sig_domain rs x :
  In (dns_sig x) (map rec_sig rs) -> In (dns_domain x) (map r_Domain rs).
Proof.
  intros H. apply in_map_iff in H. destruct H as [r [E Hr]].
  apply in_map_iff. exists r. split; auto.
  unfold rec_sig, dns_sig in E. inversion E. auto.
Qed.

Lemma MergeDomains_present env source ds w stats w' :
  domains_ok (w_db w) ->
  MergeDomains env source ds w = (inr stats, w') ->
  domains_ok (w_db w') /\
  batch_domains_present source (merge_today env w) ds (domains (w_db w')).
Proof.
  intros Hok H. apply MergeDomains_success in H.
  destruct H as [db1 [now [Hu [Hdb _]]]].
  pose proof (upserted_domains_ok _ _ _ _ _ Hu Hok) as Hok1.
  pose proof (mark_removed_domains_ok source (merge_today env w) now db1 Hok1) as Hok'.
  rewrite <- Hdb in Hok'. split; auto.
  intros d Hd.
  destruct (upserted_domains_fresh _ _ _ _ _ d Hu Hok Hd) as [r [Hin Hf]].
  exists r.
  assert (In r (domains (w_db w'))) as Hin'.
  { rewrite Hdb. simpl. apply mark_removed_domains_kept; auto.
    eapply dom_fresh_not_stale; eauto. }
  destruct Hf as [F1 [F2 [F3 F4]]].
  repeat split; auto.
  intros r' Hr' E1 E2.
  apply (NoDup_map_key_inj dom_key (domains (w_db w'))); auto.
  - apply Hok'.
  - unfold dom_key. congruence.
Qed.

Lemma MergeDomains_removes env source ds w stats w' :
  domains_ok (w_db w) ->
  MergeDomains env source ds w = (inr stats, w') ->
  absent_domains_removed source (merge_today env w) ds
    (domains (w_db w)) (domains (w_db w')).
Proof.
  intros Hok H. apply MergeDomains_success in H.
  destruct H as [db1 [now [Hu [Hdb _]]]].
  intros r Hin Hs Ha Hn Hl.
  exists now. rewrite Hdb. simpl.
  apply mark_removed_domains_stale.
  - eapply upserted_domains_frame; eauto. tauto.
  - apply domain_is_stale_true. auto.
Qed.

Lemma MergeDNSRecords_removes env source rs w stats w' :
  records_ok (w_db w) ->
  MergeDNSRecords env source rs w = (inr stats, w') ->
  absent_records_removed source (merge_today env w) rs
    (dns_records (w_db w)) (dns_records (w_db w')).
Proof.
  intros Hok H. apply MergeDNSRecords_success in H.
  destruct H as [db1 [rows' [Hu [Hb [Hdb _]]]]].
  intros x Hin Hs Ha Hd Hn Hl.
  rewrite Hdb. simpl.
  eapply buried_records_stale; eauto.
  - eapply upserted_records_frame; eauto. tauto.
  - unfold dns_stale_in. rewrite in_seenDomains. auto.
Qed.

Lemma MergeDNSRecords_frame env source rs w stats w' :
  records_ok (w_db w) ->
  MergeDNSRecords env source rs w = (inr stats, w') ->
  unobserved_records_untouched rs (dns_records (w_db w)) (dns_records (w_db w')).
Proof.
  intros Hok H. apply MergeDNSRecords_success in H.
  destruct H as [db1 [rows' [Hu [Hb [Hdb _]]]]].
  intros x Hx. rewrite Hdb. simpl. split.
  - intros Hin. eapply buried_records_kept; eauto.
    + eapply upserted_records_frame; eauto.
      intros [_ Hs]. apply Hx. now apply in_rec_sig_domain.
    + intros [_ [S2 _]]. apply Hx. now apply in_seenDomains.
  - intros Hin.
    destruct (buried_records_origin _ _ _ _ _ _ Hb Hin) as [H1|[r [now [H1 [S E]]]]].
    + destruct (upserted_records_origin _ _ _ _ _ _ Hu Hok H1)
        as [H2|[[x0 [H2 [T1 [T2 [ttl [prio [raw [now' T3]]]]]]]]|[_ I]]].
      * exact H2.
      * exfalso. apply Hx. apply in_rec_sig_domain.
        rewrite T3. exact T2.
      * exfalso. apply Hx. apply in_rec_sig_domain.
        destruct I as [_ [_ [I3 _]]]. exact I3.
    + exfalso. apply Hx. subst x. simpl.
      destruct S as [_ [S2 _]]. now apply in_seenDomains.
Qed.



(* ===================================================================== *)
(* Concrete runs                                                         *)
(* ===================================================================== *)

(* Proves domains_ok / records_ok of a table written out in full. *)
Ltac table_ok :=
  constructor; simpl;
  [ repeat constructor; simpl; intuition (try discriminate; try lia)
  | intros ? Hin; simpl in Hin; intuition (subst; simpl; lia)
  | repeat constructor; simpl; intuition (try discriminate; try congruence) ].

Lemma world_day10_ok : domains_ok (w_db world_day10).
Proof. table_ok. Qed.

Lemma rworld_day10_ok : records_ok (w_db rworld_day10).
Proof. table_ok. Qed.

(* ===================================================================== *)
(* The merge operations                                                  *)
(* ===================================================================== *)

(** C1 (as the code has it). After a successful
    MergeDNSRecords(source, rs): every row that was in dns_records with
    this source, status active, a parent domain that occurs in the batch,
    a signature that does not occur in the batch AND last_seen < today is
    now the same row with status removed; and the rows whose parent domain
    does not occur in the batch are exactly the rows that were there,
    unchanged. *)
Theorem MergeDNSRecords_scoped_tombstone env source rs w stats w' :
  records_ok (w_db w) ->
  MergeDNSRecords env source rs w = (inr stats, w') ->
  absent_records_removed source (merge_today env w) rs
    (dns_records (w_db w)) (dns_records (w_db w')) /\
  unobserved_records_untouched rs (dns_records (w_db w)) (dns_records (w_db w')).
Proof.
  intros Hok H. split.
  - eapply MergeDNSRecords_removes; eauto.
  - eapply MergeDNSRecords_frame; eauto.
Qed.

Lemma MergeDNSRecords_scoped_tombstone_witness :
  In (bury_dns_row 13%Z row_mail_day10) (dns_records (w_db rworld_day11)) /\
  absent_records_removed "GoDaddy" (merge_today (day_env 11%Z) rworld_day10)
    [gd_record "a.com" "www" "1.2.3.4"]
    (dns_records (w_db rworld_day10)) (dns_records (w_db rworld_day11)) /\
  unobserved_records_untouched [gd_record "a.com" "www" "1.2.3.4"]
    (dns_records (w_db rworld_day10)) (dns_records (w_db rworld_day11)).
Proof.
  split; [vm_compute; tauto|].
  apply (MergeDNSRecords_scoped_tombstone (day_env 11%Z) "GoDaddy"
           [gd_record "a.com" "www" "1.2.3.4"] rworld_day10
           (mkMergeStats 0%Z 1%Z 1%Z) rworld_day11).
  - table_ok.
  - vm_compute. reflexivity.
Defined.

(** C1, the claim as stated fails: on day 10 the records www and mail of
    a.com are merged; a second merge the same day brings www only. The
    row of mail was there before that merge, has the source of the merge,
    is active, its parent a.com is in the batch and its signature is not;
    the merge succeeds and the row is still in the table, active. *)
Lemma MergeDNSRecords_same_day_keeps_absent_record :
  MergeDNSRecords (day_env 10%Z) "GoDaddy" [gd_record "a.com" "www" "1.2.3.4"]
    rworld_day10 = (inr (mkMergeStats 0%Z 1%Z 0%Z), rworld_day10_again) /\
  In row_mail_day10 (dns_records (w_db rworld_day10)) /\
  dns_source row_mail_day10 = "GoDaddy" /\
  dns_status row_mail_day10 = active /\
  In (dns_domain row_mail_day10)
     (map r_Domain [gd_record "a.com" "www" "1.2.3.4"]) /\
  ~ In (dns_sig row_mail_day10)
       (map rec_sig [gd_record "a.com" "www" "1.2.3.4"]) /\
  filter (record_matches "a.com" "mail" "A" "5.6.7.8" "GoDaddy")
         (dns_records (w_db rworld_day10_again)) = [row_mail_day10].
Proof.
  split; [vm_compute; reflexivity|].
  split; [vm_compute; tauto|].
  split; [reflexivity|]. split; [reflexivity|].
  split; [simpl; auto|].
  split; [|vm_compute; reflexivity].
  intros [H|[]]. apply (f_equal (fun s => snd (fst (fst s)))) in H.
  vm_compute in H. discriminate H.
Qed.

(** C2 (as the code has it). After a successful MergeDomains(source, ds):
    for each domain of the batch the table holds exactly one row with its
    identity (name, source), and that row is active with last_seen =
    today (so no domain of the batch is removed); and every row that was
    in the table with this source, status active, a name that is not in
    the batch AND last_seen < today is now the same row with status
    removed. *)
Theorem MergeDomains_reconciles env source ds w stats w' :
  domains_ok (w_db w) ->
  MergeDomains env source ds w = (inr stats, w') ->
  batch_domains_present source (merge_today env w) ds (domains (w_db w')) /\
  absent_domains_removed source (merge_today env w) ds
    (domains (w_db w)) (domains (w_db w')).
Proof.
  intros Hok H. split.
  - eapply MergeDomains_present; eauto.
  - eapply MergeDomains_removes; eauto.
Qed.

Lemma MergeDomains_reconciles_witness :
  In (bury_domain_row 10%Z row_b_day10) (domains (w_db world_day11)) /\
  batch_domains_present "GoDaddy" (merge_today (day_env 11%Z) world_day10)
    [gd_domain "a.com"] (domains (w_db world_day11)) /\
  absent_domains_removed "GoDaddy" (merge_today (day_env 11%Z) world_day10)
    [gd_domain "a.com"] (domains (w_db world_day10)) (domains (w_db world_day11)).
Proof.
  split; [vm_compute; tauto|].
  apply (MergeDomains_reconciles (day_env 11%Z) "GoDaddy" [gd_domain "a.com"]
           world_day10 (mkMergeStats 0%Z 1%Z 1%Z) world_day11).
  - table_ok.
  - vm_compute. reflexivity.
Defined.

(** C2, the claim as stated fails: on day 10 a.com and b.com are merged; a
    second merge the same day brings a.com only. The row of b.com was
    there before that merge, has the source of the merge, is active and
    is not in the batch; the merge succeeds and the row is still in the
    table, active. *)
Lemma MergeDomains_same_day_keeps_absent_domain :
  MergeDomains (day_env 10%Z) "GoDaddy" [gd_domain "a.com"] world_day10
    = (inr (mkMergeStats 0%Z 1%Z 0%Z), world_day10_again) /\
  In row_b_day10 (domains (w_db world_day10)) /\
  dom_registrar row_b_day10 = "GoDaddy" /\
  dom_status row_b_day10 = active /\
  ~ In (dom_domain row_b_day10) (map d_Domain [gd_domain "a.com"]) /\
  filter (domain_matches "b.com" "GoDaddy") (domains (w_db world_day10_again))
    = [row_b_day10].
Proof.
  split; [vm_compute; reflexivity|].
  split; [vm_compute; tauto|].
  split; [reflexivity|]. split; [reflexivity|].
  split; [|vm_compute; reflexivity].
  intros [H|[]]. vm_compute in H. discriminate H.
Qed.

(** C3. Both merge operations are atomic. Whatever error a merge returns
    (BeginTx, a lookup, an insert, an update, a tombstone statement or
    Commit failed), the committed inventory is exactly the one of before
    the call; and a failure of any one of the merge's database round
    trips does make the merge return an error. *)
Theorem merges_are_atomic env source w :
  (forall ds e w', MergeDomains env source ds w = (inl e, w') -> w_db w' = w_db w) /\
  (forall rs e w', MergeDNSRecords env source rs w = (inl e, w') -> w_db w' = w_db w) /\
  (forall ds t,
     w_tick w <= t < w_tick w + domains_trips (List.length ds) ->
     db_fault env t = true ->
     exists e w', MergeDomains env source ds w = (inl e, w') /\ w_db w' = w_db w) /\
  (forall rs t,
     w_tick w <= t < w_tick w + records_trips rs ->
     db_fault env t = true ->
     exists e w', MergeDNSRecords env source rs w = (inl e, w') /\ w_db w' = w_db w).
Proof.
  split; [intros; eapply MergeDomains_error; eauto|].
  split; [intros; eapply MergeDNSRecords_error; eauto|].
  split.
  - intros ds t Ht Hf.
    destruct (MergeDomains env source ds w) as [[e|stats] w'] eqn:E.
    + exists e, w'. split; auto. eapply MergeDomains_error; eauto.
    + exfalso. apply MergeDomains_success in E.
      destruct E as [db1 [now [_ [_ [_ [_ [Htick Hnf]]]]]]].
      rewrite (Hnf t) in Hf by lia. discriminate.
  - intros rs t Ht Hf.
    destruct (MergeDNSRecords env source rs w) as [[e|stats] w'] eqn:E.
    + exists e, w'. split; auto. eapply MergeDNSRecords_error; eauto.
    + exfalso. apply MergeDNSRecords_success in E.
      destruct E as [db1 [rows' [_ [_ [_ [_ [Htick Hnf]]]]]]].
      rewrite (Hnf t) in Hf by lia. discriminate.
Qed.

(* The UPDATE of the second domain of the batch fails: the INSERT and
   UPDATE that came before are rolled back with it. *)
Lemma merges_are_atomic_witness :
  MergeDomains (faulty_env 11%Z 11) "GoDaddy"
    [gd_domain "c.com"; gd_domain "a.com"] world_day10
  = (inl (ErrUpdateDomain "a.com"), mkWorld (w_db world_day10) 12) /\
  exists e w',
    MergeDomains (faulty_env 11%Z 11) "GoDaddy"
      [gd_domain "c.com"; gd_domain "a.com"] world_day10 = (inl e, w') /\
    w_db w' = w_db world_day10.
Proof.
  split; [vm_compute; reflexivity|].
  apply (proj1 (proj2 (proj2 (merges_are_atomic (faulty_env 11%Z 11) "GoDaddy" world_day10)))
           [gd_domain "c.com"; gd_domain "a.com"] 11).
  - vm_compute. lia.
  - reflexivity.
Defined.



(* ===================================================================== *)
(* Histories of merges                                                   *)
(* ===================================================================== *)

(* ---------------- steps are counted, also on errors ---------------- *)

Lemma merge_domains_loop_tick env source today ds :
  forall stats tx res tx',
  merge_domains_loop env source today ds stats tx = (res, tx') ->
  tx_tick tx <= tx_tick tx'.
Proof.
  induction ds as [|d rest IH]; intros stats tx res tx' H; simpl in H.
  - inversion H; subst; auto.
  - unfold tx_QueryRow_domain_id in H.
    destruct (db_fault env (tx_tick tx)).
    + inversion H; subst; simpl; lia.
    + destruct (select_domain_id (d_Domain d) source (domains (tx_work tx))).
      * unfold tx_Exec_update_domain in H. simpl in H.
        destruct (db_fault env (S (tx_tick tx))).
        -- inversion H; subst; simpl; lia.
        -- apply IH in H. simpl in H. lia.
      * unfold tx_Exec_insert_domain in H. simpl in H.
        destruct (db_fault env (S (tx_tick tx))).
        -- inversion H; subst; simpl; lia.
        -- destruct (existsb (domain_matches (d_Domain d) source)
                       (domains (tx_work tx))).
           ++ inversion H; subst; simpl; lia.
           ++ apply IH in H. simpl in H. lia.
Qed.

Lemma merge_records_loop_tick env source today rs :
  forall stats tx res tx',
  merge_records_loop env source today rs stats tx = (res, tx') ->
  tx_tick tx <= tx_tick tx'.
Proof.
  induction rs as [|r rest IH]; intros stats tx res tx' H; simpl in H.
  - inversion H; subst; auto.
  - unfold tx_QueryRow_record_id in H.
    destruct (db_fault env (tx_tick tx)).
    + inversion H; subst; simpl; lia.
    + destruct (select_record_id (r_Domain r) (r_Subdomain r) (r_RecordType r)
                  (r_Data r) source (dns_records (tx_work tx))).
      * unfold tx_Exec_update_record in H. simpl in H.
        destruct (db_fault env (S (tx_tick tx))).
        -- inversion H; subst; simpl; lia.
        -- apply IH in H. simpl in H. lia.
      * unfold tx_Exec_insert_record in H. simpl in H.
        destruct (db_fault env (S (tx_tick tx))).
        -- inversion H; subst; simpl; lia.
        -- destruct (existsb (record_matches (r_Domain r) (r_Subdomain r)
                                (r_RecordType r) (r_Data r) source)
                       (dns_records (tx_work tx))).
           ++ inversion H; subst; simpl; lia.
           ++ apply IH in H. simpl in H. lia.
Qed.

Lemma mark_removed_loop_tick env source today doms :
  forall stats tx res tx',
  mark_removed_loop env source today doms stats tx = (res, tx') ->
  tx_tick tx <= tx_tick tx'.
Proof.
  induction doms as [|dom rest IH]; intros stats tx res tx' H; simpl in H.
  - inversion H; subst; auto.
  - unfold tx_Exec_mark_removed_records in H.
    destruct (db_fault env (tx_tick tx)).
    + inversion H; subst; simpl; lia.
    + apply IH in H. simpl in H. lia.
Qed.

Lemma MergeDomains_tick env source ds w res w' :
  MergeDomains env source ds w = (res, w') -> w_tick w < w_tick w'.
Proof.
  unfold MergeDomains, db_BeginTx.
  destruct (db_fault env (w_tick w)).
  - intros H. inversion H; subst. simpl. lia.
  - unfold merge_domains_body, time_Now. simpl.
    destruct (merge_domains_loop env source (Format_date (clock env (S (w_tick w)))) ds
                (mkMergeStats 0 0 0)
                (mkTx (w_db w) (w_db w) false (S (w_tick w))))
      as [[e1|stats1] tx1] eqn:L;
      pose proof (merge_domains_loop_tx _ _ _ _ _ _ _ _ L) as [_ Hd];
      apply merge_domains_loop_tick in L; simpl in L, Hd.
    + intros H. inversion H; subst. unfold tx_Rollback, tx_close.
      rewrite Hd. simpl. lia.
    + unfold tx_Exec_mark_removed_domains.
      destruct (db_fault env (tx_tick tx1)).
      * intros H. inversion H; subst. unfold tx_Rollback, tx_close. simpl.
        rewrite Hd. simpl. lia.
      * unfold tx_Commit. simpl. rewrite Hd.
        destruct (db_fault env (S (tx_tick tx1)));
          intros H; inversion H; subst; unfold tx_Rollback, tx_close; simpl; lia.
Qed.

Lemma MergeDNSRecords_tick env source rs w res w' :
  MergeDNSRecords env source rs w = (res, w') -> w_tick w < w_tick w'.
Proof.
  unfold MergeDNSRecords, db_BeginTx.
  destruct (db_fault env (w_tick w)).
  - intros H. inversion H; subst. simpl. lia.
  - unfold merge_records_body, time_Now. simpl.
    destruct (merge_records_loop env source (Format_date (clock env (S (w_tick w)))) rs
                (mkMergeStats 0 0 0)
                (mkTx (w_db w) (w_db w) false (S (w_tick w))))
      as [[e1|stats1] tx1] eqn:L;
      pose proof (merge_records_loop_tx _ _ _ _ _ _ _ _ L) as [_ Hd];
      apply merge_records_loop_tick in L; simpl in L, Hd.
    + intros H. inversion H; subst. unfold tx_Rollback, tx_close.
      rewrite Hd. simpl. lia.
    + destruct (mark_removed_loop env source (Format_date (clock env (S (w_tick w))))
                  (seenDomains rs) stats1 tx1) as [[e2|stats2] tx2] eqn:M;
        pose proof (mark_removed_loop_tx _ _ _ _ _ _ _ _ M) as [_ Md];
        apply mark_removed_loop_tick in M.
      * intros H. inversion H; subst. unfold tx_Rollback, tx_close.
        rewrite Md, Hd. simpl. lia.
      * unfold tx_Commit. rewrite Md, Hd.
        destruct (db_fault env (tx_tick tx2));
          intros H; inversion H; subst; unfold tx_Rollback, tx_close; simpl; lia.
Qed.



(* ---------------- every row of the result, classified ---------------- *)

Lemma MergeDomains_outcome env source ds w stats w' :
  domains_ok (w_db w) ->
  MergeDomains env source ds w = (inr stats, w') ->
  forall r', In r' (domains (w_db w')) ->
    domain_row_outcome source (merge_today env w) ds (domains (w_db w))
      (next_id (w_db w)) r'.
Proof.
  intros Hok H r' Hr'. apply MergeDomains_success in H.
  destruct H as [db1 [now [Hu [Hdb _]]]].
  rewrite Hdb in Hr'. simpl in Hr'.
  apply mark_removed_domains_origin in Hr'.
  destruct Hr' as [r1 [Hr1 [[Hs E]|[Hs E]]]]; subst r'.
  - (* selected by the tombstone statement *)
    apply domain_is_stale_true in Hs. destruct Hs as [S1 [S2 S3]].
    destruct (upserted_domains_origin _ _ _ _ _ _ Hu Hok Hr1)
      as [H1|[[r [H1 [T1 [T2 [e [raw [now' T3]]]]]]]|[_ I]]].
    + right. right. right. exists r1, now. split; auto. split; auto.
      apply domain_is_stale_true. auto.
    + exfalso. subst r1. simpl in S3. lia.
    + exfalso. destruct I as [_ [_ [_ [_ [_ I6]]]]]. lia.
  - destruct (upserted_domains_origin _ _ _ _ _ _ Hu Hok Hr1)
      as [H1|[[r [H1 T]]|I]].
    + left. auto.
    + right. left. exists r. auto.
    + right. right. left. auto.
Qed.

Lemma MergeDNSRecords_outcome env source rs w stats w' :
  records_ok (w_db w) ->
  MergeDNSRecords env source rs w = (inr stats, w') ->
  forall x', In x' (dns_records (w_db w')) ->
    record_row_outcome source (merge_today env w) rs (dns_records (w_db w))
      (next_id (w_db w)) x'.
Proof.
  intros Hok H x' Hx'. apply MergeDNSRecords_success in H.
  destruct H as [db1 [rows' [Hu [Hb [Hdb _]]]]].
  rewrite Hdb in Hx'. simpl in Hx'.
  destruct (buried_records_origin _ _ _ _ _ _ Hb Hx') as [H1|[x1 [now [H1 [S E]]]]].
  - destruct (upserted_records_origin _ _ _ _ _ _ Hu Hok H1)
      as [H2|[[x [H2 T]]|I]].
    + left. auto.
    + right. left. exists x. auto.
    + right. right. left. auto.
  - destruct S as [S1 [S2 [S3 S4]]]. apply in_seenDomains in S2.
    destruct (upserted_records_origin _ _ _ _ _ _ Hu Hok H1)
      as [H2|[[x [H2 [T1 [T2 [ttl [prio [raw [now' T3]]]]]]]]|[_ I]]].
    + right. right. right. exists x1, now. split; auto. split; auto.
      unfold dns_stale_in. auto.
    + exfalso. subst x1. simpl in S4. lia.
    + exfalso. destruct I as [_ [_ [_ [_ [_ I6]]]]]. lia.
Qed.

(* Every row of before is still there: same id, same discovery_date. *)
Lemma MergeDomains_keeps_rows env source ds w stats w' :
  domains_ok (w_db w) ->
  MergeDomains env source ds w = (inr stats, w') ->
  forall r, In r (domains (w_db w)) ->
    exists r', In r' (domains (w_db w')) /\ dom_id r' = dom_id r /\
               dom_discovery_date r' = dom_discovery_date r.
Proof.
  intros Hok H r Hr. apply MergeDomains_success in H.
  destruct H as [db1 [now [Hu [Hdb _]]]].
  assert (exists r1, In r1 (domains db1) /\ dom_id r1 = dom_id r /\
                     dom_discovery_date r1 = dom_discovery_date r) as [r1 [H1 [E1 E2]]].
  { destruct (upserted_domains_persist _ _ _ _ _ Hu Hok r Hr)
      as [H1|[r1 [H1 [_ [_ [e [raw [now' T]]]]]]]].
    - exists r. auto.
    - exists r1. subst r1. auto. }
  rewrite Hdb. simpl.
  exists (if domain_is_stale source (merge_today env w) r1
          then bury_domain_row now r1 else r1).
  split.
  - unfold mark_removed_domains.
    apply (in_update_intro (domain_is_stale source (merge_today env w))
             (bury_domain_row now)); auto.
  - destruct (domain_is_stale source (merge_today env w) r1); simpl; auto.
Qed.

(* One tombstone statement keeps every row, id and dates. *)
Lemma mark_removed_records_keeps src dom today now rows x :
  In x rows ->
  exists x', In x' (mark_removed_records src dom today now rows) /\
             dns_id x' = dns_id x /\
             dns_discovery_date x' = dns_discovery_date x.
Proof.
  intros Hin.
  exists (if record_is_stale src dom today x then bury_dns_row now x else x).
  split.
  - apply (in_update_intro (record_is_stale src dom today) (bury_dns_row now)); auto.
  - destruct (record_is_stale src dom today x); simpl; auto.
Qed.

Lemma buried_records_keeps src today doms rows rows' :
  buried_records src today doms rows rows' ->
  forall x, In x rows ->
  exists x', In x' rows' /\ dns_id x' = dns_id x /\
             dns_discovery_date x' = dns_discovery_date x.
Proof.
  induction 1 as [rows|dom doms now rows rows' H IH]; intros x Hin.
  - exists x. auto.
  - destruct (mark_removed_records_keeps src dom today now rows x Hin)
      as [x1 [H1 [E1 E2]]].
    destruct (IH x1 H1) as [x' [H2 [E3 E4]]].
    exists x'. split; auto. split; congruence.
Qed.

Lemma MergeDNSRecords_keeps_rows env source rs w stats w' :
  records_ok (w_db w) ->
  MergeDNSRecords env source rs w = (inr stats, w') ->
  forall x, In x (dns_records (w_db w)) ->
    exists x', In x' (dns_records (w_db w')) /\ dns_id x' = dns_id x /\
               dns_discovery_date x' = dns_discovery_date x.
Proof.
  intros Hok H x Hx. apply MergeDNSRecords_success in H.
  destruct H as [db1 [rows' [Hu [Hb [Hdb _]]]]].
  assert (exists x1, In x1 (dns_records db1) /\ dns_id x1 = dns_id x /\
                     dns_discovery_date x1 = dns_discovery_date x) as [x1 [H1 [E1 E2]]].
  { destruct (upserted_records_persist _ _ _ _ _ Hu Hok x Hx)
      as [H1|[x1 [H1 [_ [_ [ttl [prio [raw [now' T]]]]]]]]].
    - exists x. auto.
    - exists x1. subst x1. auto. }
  destruct (buried_records_keeps _ _ _ _ _ Hb x1 H1) as [x' [H2 [E3 E4]]].
  exists x'. rewrite Hdb. simpl. split; auto. split; congruence.
Qed.

(* The other table is not written, ids stay fresh. *)
Lemma MergeDomains_other_tables env source ds w stats w' :
  MergeDomains env source ds w = (inr stats, w') ->
  dns_records (w_db w') = dns_records (w_db w) /\
  sync_rows (w_db w') = sync_rows (w_db w) /\
  next_id (w_db w) <= next_id (w_db w').
Proof.
  intros H. apply MergeDomains_success in H.
  destruct H as [db1 [now [Hu [Hdb _]]]].
  destruct (upserted_domains_other_tables _ _ _ _ _ Hu) as [O1 [O2 [O3 O4]]].
  rewrite Hdb. simpl. auto.
Qed.

Lemma MergeDNSRecords_other_tables env source rs w stats w' :
  MergeDNSRecords env source rs w = (inr stats, w') ->
  domains (w_db w') = domains (w_db w) /\
  sync_rows (w_db w') = sync_rows (w_db w) /\
  next_id (w_db w) <= next_id (w_db w').
Proof.
  intros H. apply MergeDNSRecords_success in H.
  destruct H as [db1 [rows' [Hu [Hb [Hdb _]]]]].
  destruct (upserted_records_other_tables _ _ _ _ _ Hu) as [O1 [O2 [O3 O4]]].
  rewrite Hdb. simpl. auto.
Qed.

Lemma MergeDNSRecords_ok env source rs w stats w' :
  records_ok (w_db w) ->
  MergeDNSRecords env source rs w = (inr stats, w') ->
  records_ok (w_db w').
Proof.
  intros Hok H. apply MergeDNSRecords_success in H.
  destruct H as [db1 [rows' [Hu [Hb [Hdb _]]]]].
  rewrite Hdb. apply (buried_records_ok source (merge_today env w) (seenDomains rs)); auto.
  eapply upserted_records_ok; eauto.
Qed.

Lemma records_ok_other db db' :
  records_ok db -> dns_records db' = dns_records db -> next_id db <= next_id db' ->
  records_ok db'.
Proof.
  intros [H1 H2 H3] E L. constructor; rewrite E; auto.
  intros r Hr. apply H2 in Hr. lia.
Qed.

Lemma domains_ok_other db db' :
  domains_ok db -> domains db' = domains db -> next_id db <= next_id db' ->
  domains_ok db'.
Proof.
  intros [H1 H2 H3] E L. constructor; rewrite E; auto.
  intros r Hr. apply H2 in Hr. lia.
Qed.

(* A call keeps the schema's guarantees. *)
Lemma run_call_ok env c w : db_ok (w_db w) -> db_ok (w_db (run_call env c w)).
Proof.
  intros [Hd Hr]. destruct c as [source ds|source rs]; simpl.
  - destruct (MergeDomains env source ds w) as [[e|stats] w'] eqn:E; simpl.
    + rewrite (MergeDomains_error _ _ _ _ _ _ E). split; auto.
    + destruct (MergeDomains_other_tables _ _ _ _ _ _ E) as [O1 [O2 O3]].
      split.
      * eapply MergeDomains_present; eauto.
      * eapply records_ok_other; eauto.
  - destruct (MergeDNSRecords env source rs w) as [[e|stats] w'] eqn:E; simpl.
    + rewrite (MergeDNSRecords_error _ _ _ _ _ _ E). split; auto.
    + destruct (MergeDNSRecords_other_tables _ _ _ _ _ _ E) as [O1 [O2 O3]].
      split.
      * eapply domains_ok_other; eauto.
      * eapply MergeDNSRecords_ok; eauto.
Qed.

Lemma run_call_tick env c w : w_tick w < w_tick (run_call env c w).
Proof.
  destruct c as [source ds|source rs]; simpl.
  - destruct (MergeDomains env source ds w) as [res w'] eqn:E; simpl.
    eapply MergeDomains_tick; eauto.
  - destruct (MergeDNSRecords env source rs w) as [res w'] eqn:E; simpl.
    eapply MergeDNSRecords_tick; eauto.
Qed.



(* ---------------- one call of a history ---------------- *)

Lemma domain_row_outcome_discovery source today ds rows lo r' :
  (forall r, In r rows -> dom_id r < lo) ->
  domain_row_outcome source today ds rows lo r' ->
  (exists r, In r rows /\ dom_id r = dom_id r' /\
             dom_discovery_date r = dom_discovery_date r') \/
  ((forall r, In r rows -> dom_id r <> dom_id r') /\ dom_discovery_date r' = today).
Proof.
  intros Hlo [H|[[r [H [_ [_ [e [raw [now T]]]]]]]|[[_ I]|[r [now [H [_ E]]]]]]].
  - left. exists r'. auto.
  - left. exists r. subst r'. auto.
  - right. destruct I as [I1 [_ [_ [_ [I5 _]]]]]. split; auto.
    intros r Hr. apply Hlo in Hr. lia.
  - left. exists r. subst r'. auto.
Qed.

Lemma record_row_outcome_discovery source today rs rows lo x' :
  (forall x, In x rows -> dns_id x < lo) ->
  record_row_outcome source today rs rows lo x' ->
  (exists x, In x rows /\ dns_id x = dns_id x' /\
             dns_discovery_date x = dns_discovery_date x') \/
  ((forall x, In x rows -> dns_id x <> dns_id x') /\ dns_discovery_date x' = today).
Proof.
  intros Hlo [H|[[x [H [_ [_ [ttl [prio [raw [now T]]]]]]]]|[[_ I]|[x [now [H [_ E]]]]]]].
  - left. exists x'. auto.
  - left. exists x. subst x'. auto.
  - right. destruct I as [I1 [_ [_ [_ [I5 _]]]]]. split; auto.
    intros x Hx. apply Hlo in Hx. lia.
  - left. exists x. subst x'. auto.
Qed.

Lemma run_call_domain_origin env c w r1 :
  db_ok (w_db w) ->
  In r1 (domains (w_db (run_call env c w))) ->
  (exists r0, In r0 (domains (w_db w)) /\ dom_id r0 = dom_id r1 /\
              dom_discovery_date r0 = dom_discovery_date r1) \/
  ((forall r0, In r0 (domains (w_db w)) -> dom_id r0 <> dom_id r1) /\
   dom_discovery_date r1 = merge_today env w).
Proof.
  intros [Hd Hr]. destruct c as [source ds|source rs]; simpl.
  - destruct (MergeDomains env source ds w) as [[e|stats] w'] eqn:E; simpl.
    + rewrite (MergeDomains_error _ _ _ _ _ _ E). intros H. left. exists r1. auto.
    + intros H.
      eapply domain_row_outcome_discovery; [apply Hd|].
      eapply MergeDomains_outcome; eauto.
  - destruct (MergeDNSRecords env source rs w) as [[e|stats] w'] eqn:E; simpl.
    + rewrite (MergeDNSRecords_error _ _ _ _ _ _ E). intros H. left. exists r1. auto.
    + destruct (MergeDNSRecords_other_tables _ _ _ _ _ _ E) as [O1 _].
      rewrite O1. intros H. left. exists r1. auto.
Qed.

Lemma run_call_record_origin env c w x1 :
  db_ok (w_db w) ->
  In x1 (dns_records (w_db (run_call env c w))) ->
  (exists x0, In x0 (dns_records (w_db w)) /\ dns_id x0 = dns_id x1 /\
              dns_discovery_date x0 = dns_discovery_date x1) \/
  ((forall x0, In x0 (dns_records (w_db w)) -> dns_id x0 <> dns_id x1) /\
   dns_discovery_date x1 = merge_today env w).
Proof.
  intros [Hd Hr]. destruct c as [source ds|source rs]; simpl.
  - destruct (MergeDomains env source ds w) as [[e|stats] w'] eqn:E; simpl.
    + rewrite (MergeDomains_error _ _ _ _ _ _ E). intros H. left. exists x1. auto.
    + destruct (MergeDomains_other_tables _ _ _ _ _ _ E) as [O1 _].
      rewrite O1. intros H. left. exists x1. auto.
  - destruct (MergeDNSRecords env source rs w) as [[e|stats] w'] eqn:E; simpl.
    + rewrite (MergeDNSRecords_error _ _ _ _ _ _ E). intros H. left. exists x1. auto.
    + intros H.
      eapply record_row_outcome_discovery; [apply Hr|].
      eapply MergeDNSRecords_outcome; eauto.
Qed.

Lemma run_call_domain_keeps env c w r0 :
  db_ok (w_db w) ->
  In r0 (domains (w_db w)) ->
  exists r1, In r1 (domains (w_db (run_call env c w))) /\ dom_id r1 = dom_id r0 /\
             dom_discovery_date r1 = dom_discovery_date r0.
Proof.
  intros [Hd Hr] Hin. destruct c as [source ds|source rs]; simpl.
  - destruct (MergeDomains env source ds w) as [[e|stats] w'] eqn:E; simpl.
    + rewrite (MergeDomains_error _ _ _ _ _ _ E). exists r0. auto.
    + eapply MergeDomains_keeps_rows; eauto.
  - destruct (MergeDNSRecords env source rs w) as [[e|stats] w'] eqn:E; simpl.
    + rewrite (MergeDNSRecords_error _ _ _ _ _ _ E). exists r0. auto.
    + destruct (MergeDNSRecords_other_tables _ _ _ _ _ _ E) as [O1 _].
      rewrite O1. exists r0. auto.
Qed.

Lemma run_call_record_keeps env c w x0 :
  db_ok (w_db w) ->
  In x0 (dns_records (w_db w)) ->
  exists x1, In x1 (dns_records (w_db (run_call env c w))) /\ dns_id x1 = dns_id x0 /\
             dns_discovery_date x1 = dns_discovery_date x0.
Proof.
  intros [Hd Hr] Hin. destruct c as [source ds|source rs]; simpl.
  - destruct (MergeDomains env source ds w) as [[e|stats] w'] eqn:E; simpl.
    + rewrite (MergeDomains_error _ _ _ _ _ _ E). exists x0. auto.
    + destruct (MergeDomains_other_tables _ _ _ _ _ _ E) as [O1 _].
      rewrite O1. exists x0. auto.
  - destruct (MergeDNSRecords env source rs w) as [[e|stats] w'] eqn:E; simpl.
    + rewrite (MergeDNSRecords_error _ _ _ _ _ _ E). exists x0. auto.
    + eapply MergeDNSRecords_keeps_rows; eauto.
Qed.

Lemma domain_row_outcome_dates source today ds rows lo r' bound bound' :
  (forall r, In r rows -> (dom_discovery_date r <= dom_last_seen r <= bound)%Z) ->
  (bound <= today)%Z -> (today <= bound')%Z ->
  domain_row_outcome source today ds rows lo r' ->
  (dom_discovery_date r' <= dom_last_seen r' <= bound')%Z.
Proof.
  intros Hrows B1 B2
    [H|[[r [H [_ [_ [e [raw [now T]]]]]]]|[[_ I]|[r [now [H [_ E]]]]]]].
  - apply Hrows in H. lia.
  - apply Hrows in H. subst r'. simpl. lia.
  - destruct I as [_ [_ [_ [_ [I5 I6]]]]]. lia.
  - apply Hrows in H. subst r'. simpl. lia.
Qed.

Lemma record_row_outcome_dates source today rs rows lo x' bound bound' :
  (forall x, In x rows -> (dns_discovery_date x <= dns_last_seen x <= bound)%Z) ->
  (bound <= today)%Z -> (today <= bound')%Z ->
  record_row_outcome source today rs rows lo x' ->
  (dns_discovery_date x' <= dns_last_seen x' <= bound')%Z.
Proof.
  intros Hrows B1 B2
    [H|[[x [H [_ [_ [ttl [prio [raw [now T]]]]]]]]|[[_ I]|[x [now [H [_ E]]]]]]].
  - apply Hrows in H. lia.
  - apply Hrows in H. subst x'. simpl. lia.
  - destruct I as [_ [_ [_ [_ [I5 I6]]]]]. lia.
  - apply Hrows in H. subst x'. simpl. lia.
Qed.

Lemma dates_ok_weaken bound bound' db :
  (bound <= bound')%Z -> dates_ok bound db -> dates_ok bound' db.
Proof.
  intros B [H1 H2]. split; intros r Hr; [apply H1 in Hr|apply H2 in Hr]; lia.
Qed.

Lemma run_call_dates env c w :
  dates_never_go_back env ->
  db_ok (w_db w) ->
  dates_ok (Format_date (clock env (w_tick w))) (w_db w) ->
  dates_ok (Format_date (clock env (w_tick (run_call env c w))))
           (w_db (run_call env c w)).
Proof.
  intros Hmono [Hd Hr] Hdates.
  pose proof (run_call_tick env c w) as Htick.
  assert (Format_date (clock env (w_tick w)) <= merge_today env w)%Z as B1
    by (apply Hmono; lia).
  assert (merge_today env w <= Format_date (clock env (w_tick (run_call env c w))))%Z
    as B2 by (apply Hmono; lia).
  destruct c as [source ds|source rs]; simpl in *.
  - destruct (MergeDomains env source ds w) as [[e|stats] w'] eqn:E; simpl in *.
    + rewrite (MergeDomains_error _ _ _ _ _ _ E).
      eapply dates_ok_weaken; [|exact Hdates]. lia.
    + destruct (MergeDomains_other_tables _ _ _ _ _ _ E) as [O1 _].
      destruct Hdates as [D1 D2]. split.
      * intros r' Hr'.
        eapply domain_row_outcome_dates; [exact D1|exact B1|exact B2|].
        eapply MergeDomains_outcome; eauto.
      * rewrite O1. intros x Hx. apply D2 in Hx. lia.
  - destruct (MergeDNSRecords env source rs w) as [[e|stats] w'] eqn:E; simpl in *.
    + rewrite (MergeDNSRecords_error _ _ _ _ _ _ E).
      eapply dates_ok_weaken; [|exact Hdates]. lia.
    + destruct (MergeDNSRecords_other_tables _ _ _ _ _ _ E) as [O1 _].
      destruct Hdates as [D1 D2]. split.
      * rewrite O1. intros r Hr0. apply D1 in Hr0. lia.
      * intros x' Hx'.
        eapply record_row_outcome_dates; [exact D2|exact B1|exact B2|].
        eapply MergeDNSRecords_outcome; eauto.
Qed.

(* ---------------- a whole history ---------------- *)

Lemma run_calls_ok env cs : forall w, db_ok (w_db w) -> db_ok (w_db (run_calls env cs w)).
Proof.
  induction cs as [|c cs IH]; intros w Hok; simpl; auto using run_call_ok.
Qed.

Lemma run_calls_dates env cs :
  dates_never_go_back env ->
  forall w, db_ok (w_db w) ->
  dates_ok (Format_date (clock env (w_tick w))) (w_db w) ->
  dates_ok (Format_date (clock env (w_tick (run_calls env cs w))))
           (w_db (run_calls env cs w)).
Proof.
  intros Hmono. induction cs as [|c cs IH]; intros w Hok Hd; simpl; auto.
  apply IH; auto using run_call_ok, run_call_dates.
Qed.

Lemma run_calls_domain_keeps env cs :
  forall w, db_ok (w_db w) ->
  forall r, In r (domains (w_db w)) ->
  exists r', In r' (domains (w_db (run_calls env cs w))) /\ dom_id r' = dom_id r /\
             dom_discovery_date r' = dom_discovery_date r.
Proof.
  induction cs as [|c cs IH]; intros w Hok r Hr; simpl.
  - exists r. auto.
  - destruct (run_call_domain_keeps env c w r Hok Hr) as [r1 [H1 [E1 E2]]].
    destruct (IH _ (run_call_ok env c w Hok) r1 H1) as [r' [H2 [E3 E4]]].
    exists r'. split; auto. split; congruence.
Qed.

Lemma run_calls_record_keeps env cs :
  forall w, db_ok (w_db w) ->
  forall x, In x (dns_records (w_db w)) ->
  exists x', In x' (dns_records (w_db (run_calls env cs w))) /\ dns_id x' = dns_id x /\
             dns_discovery_date x' = dns_discovery_date x.
Proof.
  induction cs as [|c cs IH]; intros w Hok x Hx; simpl.
  - exists x. auto.
  - destruct (run_call_record_keeps env c w x Hok Hx) as [x1 [H1 [E1 E2]]].
    destruct (IH _ (run_call_ok env c w Hok) x1 H1) as [x' [H2 [E3 E4]]].
    exists x'. split; auto. split; congruence.
Qed.

Lemma run_calls_domain_discovered env cs :
  forall w, db_ok (w_db w) ->
  forall r, In r (domains (w_db (run_calls env cs w))) ->
  domain_discovered env cs w r.
Proof.
  induction cs as [|c cs IH]; intros w Hok r Hr; simpl in Hr.
  - left. exists r. auto.
  - destruct (IH _ (run_call_ok env c w Hok) r Hr)
      as [[r1 [H1 [E1 E2]]]|[pre [c' [post [Ecs [Hnot [Hyes Hday]]]]]]].
    + destruct (run_call_domain_origin env c w r1 Hok H1)
        as [[r0 [H0 [E3 E4]]]|[Hnew Hday]].
      * left. exists r0. split; auto. split; congruence.
      * right. exists [], c, cs. simpl. split; auto. split.
        -- intros r0 H0. rewrite <- E1. auto.
        -- split; [exists r1; auto|congruence].
    + right. exists (c :: pre), c', post. simpl. split; [congruence|auto].
Qed.

Lemma run_calls_record_discovered env cs :
  forall w, db_ok (w_db w) ->
  forall x, In x (dns_records (w_db (run_calls env cs w))) ->
  record_discovered env cs w x.
Proof.
  induction cs as [|c cs IH]; intros w Hok x Hx; simpl in Hx.
  - left. exists x. auto.
  - destruct (IH _ (run_call_ok env c w Hok) x Hx)
      as [[x1 [H1 [E1 E2]]]|[pre [c' [post [Ecs [Hnot [Hyes Hday]]]]]]].
    + destruct (run_call_record_origin env c w x1 Hok H1)
        as [[x0 [H0 [E3 E4]]]|[Hnew Hday]].
      * left. exists x0. split; auto. split; congruence.
      * right. exists [], c, cs. simpl. split; auto. split.
        -- intros x0 H0. rewrite <- E1. auto.
        -- split; [exists x1; auto|congruence].
    + right. exists (c :: pre), c', post. simpl. split; [congruence|auto].
Qed.

(** C4 (as the code has it). discovery_date is write-once. Along any
    history of merges (of domains and of DNS records, successful or
    failed):
    - every row of the final tables has, as discovery_date, the `today`
      of the merge that first inserted a row of its id (or the
      discovery_date it had when the history started);
    - every row keeps its discovery_date through all the merges that
      follow: the update path and the tombstone leave it unchanged;
    - as long as the local calendar date the merges read never goes back,
      discovery_date <= last_seen holds for every row after every merge
      (once it holds at the start, as it does of the empty inventory). *)
Theorem discovery_date_write_once env cs w :
  db_ok (w_db w) ->
  (forall r, In r (domains (w_db (run_calls env cs w))) ->
     domain_discovered env cs w r) /\
  (forall x, In x (dns_records (w_db (run_calls env cs w))) ->
     record_discovered env cs w x) /\
  (forall r, In r (domains (w_db w)) ->
     exists r', In r' (domains (w_db (run_calls env cs w))) /\
                dom_id r' = dom_id r /\
                dom_discovery_date r' = dom_discovery_date r) /\
  (forall x, In x (dns_records (w_db w)) ->
     exists x', In x' (dns_records (w_db (run_calls env cs w))) /\
                dns_id x' = dns_id x /\
                dns_discovery_date x' = dns_discovery_date x) /\
  (dates_never_go_back env ->
   dates_ok (Format_date (clock env (w_tick w))) (w_db w) ->
   dates_ok (Format_date (clock env (w_tick (run_calls env cs w))))
            (w_db (run_calls env cs w))).
Proof.
  intros Hok.
  split; [apply run_calls_domain_discovered; auto|].
  split; [apply run_calls_record_discovered; auto|].
  split; [apply run_calls_domain_keeps; auto|].
  split; [apply run_calls_record_keeps; auto|].
  intros Hmono Hd. apply run_calls_dates; auto.
Qed.


Lemma stepping_env_date t : Format_date (clock stepping_env t) = Z.of_nat t.
Proof.
  unfold Format_date, stepping_env, seconds_per_day.
  cbn [clock unix_sec zone_offset].
  rewrite Z.add_0_r, Z.mul_comm. apply Z.div_mul. discriminate.
Qed.

Lemma stepping_env_dates : dates_never_go_back stepping_env.
Proof.
  intros t1 t2 H. rewrite !stepping_env_date. lia.
Qed.

Lemma empty_db_ok : db_ok empty_db.
Proof.
  split; constructor; simpl; try constructor; intros ? [].
Qed.

Lemma empty_db_dates bound : dates_ok bound empty_db.
Proof. split; intros ? []. Qed.

Lemma discovery_date_write_once_witness :
  (forall r, In r (domains (w_db (run_calls stepping_env history3 (mkWorld empty_db 0)))) ->
     domain_discovered stepping_env history3 (mkWorld empty_db 0) r) /\
  dates_ok
    (Format_date (clock stepping_env
       (w_tick (run_calls stepping_env history3 (mkWorld empty_db 0)))))
    (w_db (run_calls stepping_env history3 (mkWorld empty_db 0))).
Proof.
  destruct (discovery_date_write_once stepping_env history3 (mkWorld empty_db 0)
              empty_db_ok) as [H1 [_ [_ [_ H5]]]].
  split; [exact H1|].
  apply H5; [exact stepping_env_dates|apply empty_db_dates].
Defined.

(** C4, the claim as stated fails: a.com is merged at 20:00 UTC by a
    process ten hours east of UTC (today = day 11), and merged again an
    hour later by a process in UTC (today = day 10). Both merges succeed;
    the second takes the update path, keeps discovery_date = day 11 and
    sets last_seen = day 10: the row has last_seen < discovery_date. *)
Lemma last_seen_before_discovery_date :
  (unix_sec (zone_change_clock 1) < unix_sec (zone_change_clock 6))%Z /\
  MergeDomains zone_change_env "GoDaddy" [gd_domain "a.com"] (mkWorld empty_db 0) =
    (inr (mkMergeStats 1%Z 0%Z 0%Z),
     mkWorld (mkDB [mkDomainRow 0 "a.com" "GoDaddy" active None 11%Z 11%Z None 2%Z 2%Z]
                [] [] 1 true) 5) /\
  MergeDomains zone_change_env "GoDaddy" [gd_domain "a.com"]
    (mkWorld (mkDB [mkDomainRow 0 "a.com" "GoDaddy" active None 11%Z 11%Z None 2%Z 2%Z]
                [] [] 1 true) 5) =
    (inr (mkMergeStats 0%Z 1%Z 0%Z),
     mkWorld (mkDB [mkDomainRow 0 "a.com" "GoDaddy" active None 11%Z 10%Z None 2%Z 7%Z]
                [] [] 1 true) 10) /\
  (dom_last_seen (mkDomainRow 0 "a.com" "GoDaddy" active None 11%Z 10%Z None 2%Z 7%Z)
   < dom_discovery_date (mkDomainRow 0 "a.com" "GoDaddy" active None 11%Z 10%Z None 2%Z 7%Z))%Z.
Proof.
  split; [vm_compute; reflexivity|].
  split; [vm_compute; reflexivity|].
  split; vm_compute; reflexivity.
Qed.

(* ===================================================================== *)
(* The date of a merge                                                   *)
(* ===================================================================== *)

Lemma merge_domains_loop_clock c1 c2 now fault source today ds :
  forall stats tx,
  merge_domains_loop (mkEnv c1 now fault) source today ds stats tx =
  merge_domains_loop (mkEnv c2 now fault) source today ds stats tx.
Proof.
  induction ds as [|d rest IH]; intros stats tx; simpl; [reflexivity|].
  unfold tx_QueryRow_domain_id, tx_Exec_insert_domain, tx_Exec_update_domain.
  simpl.
  destruct (fault (tx_tick tx)); auto.
  destruct (select_domain_id (d_Domain d) source (domains (tx_work tx))); simpl;
    destruct (fault (S (tx_tick tx))); auto.
  destruct (existsb (domain_matches (d_Domain d) source) (domains (tx_work tx))); auto.
Qed.

Lemma merge_records_loop_clock c1 c2 now fault source today rs :
  forall stats tx,
  merge_records_loop (mkEnv c1 now fault) source today rs stats tx =
  merge_records_loop (mkEnv c2 now fault) source today rs stats tx.
Proof.
  induction rs as [|r rest IH]; intros stats tx; simpl; [reflexivity|].
  unfold tx_QueryRow_record_id, tx_Exec_insert_record, tx_Exec_update_record.
  simpl.
  destruct (fault (tx_tick tx)); auto.
  destruct (select_record_id (r_Domain r) (r_Subdomain r) (r_RecordType r)
              (r_Data r) source (dns_records (tx_work tx))); simpl;
    destruct (fault (S (tx_tick tx))); auto.
  destruct (existsb (record_matches (r_Domain r) (r_Subdomain r) (r_RecordType r)
                       (r_Data r) source) (dns_records (tx_work tx))); auto.
Qed.

Lemma mark_removed_loop_clock c1 c2 now fault source today doms :
  forall stats tx,
  mark_removed_loop (mkEnv c1 now fault) source today doms stats tx =
  mark_removed_loop (mkEnv c2 now fault) source today doms stats tx.
Proof.
  induction doms as [|dom rest IH]; intros stats tx; simpl; [reflexivity|].
  unfold tx_Exec_mark_removed_records. simpl.
  destruct (fault (tx_tick tx)); auto.
Qed.

Lemma MergeDomains_clock env c source ds w :
  Format_date (c (S (w_tick w))) = merge_today env w ->
  MergeDomains (with_clock env c) source ds w = MergeDomains env source ds w.
Proof.
  destruct env as [c0 now fault]. unfold with_clock, merge_today. simpl.
  intros Hc. unfold MergeDomains, db_BeginTx. simpl.
  destruct (fault (w_tick w)); auto.
  unfold merge_domains_body, time_Now. simpl. rewrite Hc.
  rewrite (merge_domains_loop_clock c c0).
  destruct (merge_domains_loop (mkEnv c0 now fault) source
              (Format_date (c0 (S (w_tick w)))) ds (mkMergeStats 0 0 0)
              (mkTx (w_db w) (w_db w) false (S (w_tick w)))) as [[e|s] tx1]; auto.
Qed.

Lemma MergeDNSRecords_clock env c source rs w :
  Format_date (c (S (w_tick w))) = merge_today env w ->
  MergeDNSRecords (with_clock env c) source rs w = MergeDNSRecords env source rs w.
Proof.
  destruct env as [c0 now fault]. unfold with_clock, merge_today. simpl.
  intros Hc. unfold MergeDNSRecords, db_BeginTx. simpl.
  destruct (fault (w_tick w)); auto.
  unfold merge_records_body, time_Now. simpl. rewrite Hc.
  rewrite (merge_records_loop_clock c c0).
  destruct (merge_records_loop (mkEnv c0 now fault) source
              (Format_date (c0 (S (w_tick w)))) rs (mkMergeStats 0 0 0)
              (mkTx (w_db w) (w_db w) false (S (w_tick w)))) as [[e|s] tx1]; auto.
  rewrite (mark_removed_loop_clock c c0).
  destruct (mark_removed_loop (mkEnv c0 now fault) source
              (Format_date (c0 (S (w_tick w)))) (seenDomains rs) s tx1)
    as [[e|s'] tx2]; auto.
Qed.

(** C7 (as the code has it). In both merge operations `today` is the
    calendar date, in the process's local time zone, of one reading of the
    clock, taken once the transaction is open: the result of a merge is
    the same under any other clock that shows the same local date at that
    one step, whatever it shows at every other step. That single value is
    the discovery_date and last_seen of every row inserted, the last_seen
    of every row updated, and the date every tombstone compares last_seen
    with: each row of the result is a row of before as it was, a row of
    before updated with last_seen = today, a new row with discovery_date =
    last_seen = today, or a row of before with last_seen < today turned
    to removed. *)
Theorem merge_uses_one_today env source w :
  (forall c ds,
     Format_date (c (S (w_tick w))) = merge_today env w ->
     MergeDomains (with_clock env c) source ds w = MergeDomains env source ds w) /\
  (forall c rs,
     Format_date (c (S (w_tick w))) = merge_today env w ->
     MergeDNSRecords (with_clock env c) source rs w = MergeDNSRecords env source rs w) /\
  (forall ds stats w',
     domains_ok (w_db w) ->
     MergeDomains env source ds w = (inr stats, w') ->
     forall r', In r' (domains (w_db w')) ->
       domain_row_outcome source (merge_today env w) ds (domains (w_db w))
         (next_id (w_db w)) r') /\
  (forall rs stats w',
     records_ok (w_db w) ->
     MergeDNSRecords env source rs w = (inr stats, w') ->
     forall x', In x' (dns_records (w_db w')) ->
       record_row_outcome source (merge_today env w) rs (dns_records (w_db w))
         (next_id (w_db w)) x').
Proof.
  split; [intros; apply MergeDomains_clock; auto|].
  split; [intros; apply MergeDNSRecords_clock; auto|].
  split; [intros; eapply MergeDomains_outcome; eauto|].
  intros; eapply MergeDNSRecords_outcome; eauto.
Qed.

Lemma merge_uses_one_today_witness :
  MergeDomains (with_clock (day_env 11%Z) odd_clock) "GoDaddy"
    [gd_domain "c.com"; gd_domain "a.com"] world_day10
  = MergeDomains (day_env 11%Z) "GoDaddy"
      [gd_domain "c.com"; gd_domain "a.com"] world_day10.
Proof.
  apply (proj1 (merge_uses_one_today (day_env 11%Z) "GoDaddy" world_day10)
           odd_clock [gd_domain "c.com"; gd_domain "a.com"]).
  vm_compute. reflexivity.
Defined.

(** C7, the claim as stated fails: at 23:00 UTC of day 10 a process whose
    local zone is two hours east of UTC merges a new domain. The current
    UTC calendar date is day 10; the row is inserted with discovery_date
    and last_seen day 11, the local date. *)
Lemma merge_today_is_local_not_UTC :
  UTC_date (clock east_env 1) = 10%Z /\
  MergeDomains east_env "GoDaddy" [gd_domain "a.com"] (mkWorld empty_db 0)
  = (inr (mkMergeStats 1%Z 0%Z 0%Z),
     mkWorld (mkDB [mkDomainRow 0 "a.com" "GoDaddy" active None 11%Z 11%Z None 2%Z 2%Z]
                   [] [] 1 true) 5).
Proof.
  split; vm_compute; reflexivity.
Qed.



(* ===================================================================== *)
(* The lock manager                                                      *)
(* ===================================================================== *)

Lemma mutex_held_set locks name b :
  mutex_held locks name <> None ->
  mutex_held (mutex_set locks name b) name = Some b.
Proof.
  induction locks as [|[n b0] rest IH]; cbn [mutex_held mutex_set]; intros H;
    [congruence|].
  destruct (String.eqb n name) eqn:E; cbn [mutex_held]; rewrite E; auto.
Qed.

Lemma mutex_held_getLock locks name :
  mutex_held (getLock locks name) name <> None.
Proof.
  unfold getLock. destruct (mutex_held locks name) eqn:E.
  - congruence.
  - cbn [mutex_held]. rewrite (String.eqb_refl name). discriminate.
Qed.

Lemma mutex_free_getLock locks name :
  mutex_held locks name <> Some true ->
  mutex_held (getLock locks name) name <> Some true.
Proof.
  intros H. unfold getLock. destruct (mutex_held locks name) eqn:E.
  - rewrite E. exact H.
  - cbn [mutex_held]. rewrite (String.eqb_refl name). discriminate.
Qed.

(* TryLock on a free mutex, then Unlock: the mutex is there and free. *)
Lemma TryLock_free locks name :
  mutex_held locks name <> Some true ->
  TryLock (getLock locks name) name =
    (true, mutex_set (getLock locks name) name true) /\
  mutex_held (mutex_set (getLock locks name) name true) name = Some true /\
  mutex_held (Unlock (mutex_set (getLock locks name) name true) name) name = Some false.
Proof.
  intros Hfree. pose proof (mutex_free_getLock locks name Hfree) as Hf.
  pose proof (mutex_held_getLock locks name) as Hsome.
  assert (mutex_held (mutex_set (getLock locks name) name true) name = Some true) as H1
    by (apply mutex_held_set; auto).
  split; [|split; auto].
  - unfold TryLock. destruct (mutex_held (getLock locks name) name) as [[|]|]; congruence.
  - unfold Unlock. apply mutex_held_set. congruence.
Qed.

Lemma TryLock_held locks name :
  mutex_held locks name = Some true ->
  TryLock (getLock locks name) name = (false, locks).
Proof.
  intros H. unfold getLock. rewrite H. unfold TryLock. rewrite H. reflexivity.
Qed.

Lemma select_running_id_existsb name rows :
  select_running_id name rows = None <-> existsb (sync_is_running name) rows = false.
Proof.
  unfold select_running_id. split; intros H.
  - destruct (find (sync_is_running name) rows) eqn:E; [discriminate|].
    destruct (existsb (sync_is_running name) rows) eqn:X; auto.
    apply existsb_exists in X. destruct X as [r [Hin Hr]].
    rewrite (find_none _ _ E r Hin) in Hr. discriminate.
  - destruct (find (sync_is_running name) rows) eqn:E; [|reflexivity].
    apply find_some in E. destruct E as [Hin Hr].
    assert (existsb (sync_is_running name) rows = true)
      by (apply existsb_exists; eauto).
    congruence.
Qed.

Lemma existsb_false_filter {A : Type} (f : A -> bool) (l : list A) :
  existsb f l = false -> filter f l = [].
Proof.
  induction l as [|a l IH]; simpl; auto.
  destruct (f a); simpl; [discriminate|auto].
Qed.

Lemma sync_is_running_name name name' r :
  sync_is_running name r = true -> sync_is_running name' r = true -> name = name'.
Proof.
  unfold sync_is_running. rewrite !andb_true_iff, !String.eqb_eq.
  intros [H1 _] [H2 _]. congruence.
Qed.

(* The INSERT of TryAcquire under the index keeps at most one running. *)
Lemma insert_sync_keeps_one_running env name svc trig w res w' :
  idx_sync_running (w_db w) = true ->
  at_most_one_running (w_db w) ->
  db_QueryRow_insert_sync env name svc trig w = (res, w') ->
  at_most_one_running (w_db w').
Proof.
  intros Hidx Hone. unfold db_QueryRow_insert_sync. rewrite Hidx. simpl.
  destruct (db_fault env (w_tick w)).
  - intros H. inversion H; subst. auto.
  - destruct (existsb (sync_is_running name) (sync_rows (w_db w))) eqn:X.
    + intros H. inversion H; subst. auto.
    + intros H. inversion H; subst. clear H. intros name'.
      unfold running_rows. simpl. rewrite filter_app, length_app. simpl.
      destruct (sync_is_running name'
                  (new_sync_row (next_id (w_db w)) name svc trig
                     (db_now env (w_tick w)))) eqn:R.
      * assert (name' = name) as ->.
        { unfold sync_is_running in R. simpl in R.
          apply andb_true_iff in R. destruct R as [R _].
          apply String.eqb_eq in R. auto. }
        rewrite (existsb_false_filter _ _ X). simpl. lia.
      * simpl. specialize (Hone name'). unfold running_rows in Hone. lia.
Qed.

(** C5 (as the code has it). With the partial unique index
    idx_sync_running in force (the schema of 001_initial_schema.up.sql),
    at most one Sync Run row per collector_name has status running after a
    TryAcquire, whatever the other instances commit between its SELECT and
    its INSERT (they are bound by the same index). A TryAcquire that
    observes a running row returns not-acquired with a nil error, writes
    nothing and leaves the in-process mutex free. A TryAcquire whose
    INSERT violates the index returns acquired = false together with the
    error "create sync record" (an error, not the silent not-acquired),
    leaves no second running row and leaves the mutex free. *)
Theorem TryAcquire_one_running env others name svc trig locks w :
  (idx_sync_running (w_db w) = true ->
   at_most_one_running (w_db w) ->
   idx_sync_running (others (w_db w)) = true ->
   at_most_one_running (others (w_db w)) ->
   at_most_one_running (w_db (snd (TryAcquire env others name svc trig locks w)))) /\
  (forall id,
     mutex_held locks name <> Some true ->
     db_fault env (w_tick w) = false ->
     select_running_id name (sync_rows (w_db w)) = Some id ->
     exists locks',
       TryAcquire env others name svc trig locks w =
         (mkAcquired None false None, locks', mkWorld (w_db w) (S (w_tick w))) /\
       mutex_held locks' name = Some false) /\
  (mutex_held locks name <> Some true ->
   db_fault env (w_tick w) = false ->
   db_fault env (S (w_tick w)) = false ->
   select_running_id name (sync_rows (w_db w)) = None ->
   idx_sync_running (others (w_db w)) = true ->
   existsb (sync_is_running name) (sync_rows (others (w_db w))) = true ->
   exists locks',
     TryAcquire env others name svc trig locks w =
       (mkAcquired None false (Some ErrCreateSyncRecord), locks',
        mkWorld (others (w_db w)) (S (S (w_tick w)))) /\
     mutex_held locks' name = Some false).
Proof.
  split; [|split].
  - intros Hidx Hone Hidx' Hone'. unfold TryAcquire.
    destruct (TryLock (getLock locks name) name) as [[|] locks1]; simpl; auto.
    unfold db_QueryRow_running_id.
    destruct (db_fault env (w_tick w)); simpl; auto.
    destruct (select_running_id name (sync_rows (w_db w))); simpl; auto.
    destruct (db_QueryRow_insert_sync env name svc trig
                (mkWorld (others (w_db w)) (S (w_tick w)))) as [res w3] eqn:I.
    apply insert_sync_keeps_one_running in I; auto.
    destruct res; simpl; auto.
  - intros id Hfree Hf Hsel. destruct (TryLock_free locks name Hfree) as [T [_ U]].
    eexists. unfold TryAcquire. rewrite T. unfold db_QueryRow_running_id.
    rewrite Hf, Hsel. split; [reflexivity|exact U].
  - intros Hfree Hf0 Hf1 Hsel Hidx Hex.
    destruct (TryLock_free locks name Hfree) as [T [_ U]].
    eexists. unfold TryAcquire. rewrite T. unfold db_QueryRow_running_id.
    rewrite Hf0, Hsel. unfold db_QueryRow_insert_sync. simpl.
    rewrite Hf1, Hidx, Hex. simpl. split; [reflexivity|exact U].
Qed.

Lemma initial_schema_one_running :
  at_most_one_running (other_instance_starts "godaddy_dns" initial_schema_up_sql).
Proof.
  intros name. unfold running_rows. simpl.
  destruct (sync_is_running name _); simpl; lia.
Qed.

Lemma TryAcquire_one_running_witness :
  at_most_one_running
    (w_db (snd (TryAcquire (day_env 10) (other_instance_starts "godaddy_dns")
                  "godaddy_dns" "dns_records" "manual" []
                  (mkWorld initial_schema_up_sql 0)))) /\
  exists locks',
    TryAcquire (day_env 10) (other_instance_starts "godaddy_dns")
      "godaddy_dns" "dns_records" "manual" [] (mkWorld initial_schema_up_sql 0) =
      (mkAcquired None false (Some ErrCreateSyncRecord), locks',
       mkWorld (other_instance_starts "godaddy_dns" initial_schema_up_sql) 2) /\
    mutex_held locks' "godaddy_dns" = Some false.
Proof.
  destruct (TryAcquire_one_running (day_env 10) (other_instance_starts "godaddy_dns")
              "godaddy_dns" "dns_records" "manual" []
              (mkWorld initial_schema_up_sql 0)) as [H1 [_ H3]].
  split.
  - apply H1; try reflexivity.
    + intros name. simpl. lia.
    + exact initial_schema_one_running.
  - apply H3; try reflexivity. simpl. discriminate.
Defined.

(** C5, the claim as stated fails: the schema has the index; this
    instance finds no running row; another instance starts a run before
    this one inserts; the INSERT violates the index and TryAcquire returns
    the error "create sync record", not a plain not-acquired. *)
Lemma TryAcquire_insert_violation_is_an_error :
  idx_sync_running initial_schema_up_sql = true /\
  TryAcquire (day_env 10) (other_instance_starts "godaddy_dns")
    "godaddy_dns" "dns_records" "manual" [] (mkWorld initial_schema_up_sql 0) =
    (mkAcquired None false (Some ErrCreateSyncRecord),
     [("godaddy_dns", false)],
     mkWorld (other_instance_starts "godaddy_dns" initial_schema_up_sql) 2).
Proof.
  split; vm_compute; reflexivity.
Qed.

(* Under the schema RunMigrations creates (migrationSQL, without the
   index) the same interleaving leaves two running rows. *)
Remark TryAcquire_migrationSQL_two_running :
  TryAcquire (day_env 10) (other_instance_starts "godaddy_dns")
    "godaddy_dns" "dns_records" "manual" [] (mkWorld migrationSQL 0) =
    (mkAcquired (Some 1) true None,
     [("godaddy_dns", true)],
     mkWorld (mkDB [] []
                [new_sync_row 0 "godaddy_dns" "dns_records" "scheduled" 0;
                 new_sync_row 1 "godaddy_dns" "dns_records" "manual" 1]
                2 false) 2).
Proof.
  vm_compute. reflexivity.
Qed.



(* ===================================================================== *)
(* The fetch client                                                      *)
(* ===================================================================== *)

Lemma attempts_made_app evs1 evs2 :
  attempts_made (evs1 ++ evs2) = attempts_made evs1 + attempts_made evs2.
Proof.
  unfold attempts_made. rewrite filter_app, length_app. reflexivity.
Qed.

Lemma attempts_made_backoff cfg attempt :
  attempts_made (backoff_events cfg attempt) = 0.
Proof.
  unfold backoff_events. destruct (Nat.eqb attempt 0); reflexivity.
Qed.

Lemma attempts_made_then evs (r : (HttpError + string) * list Event) :
  attempts_made (snd (then_events evs r)) = attempts_made evs + attempts_made (snd r).
Proof. unfold then_events. cbn [snd]. apply attempts_made_app. Qed.

(* One iteration of the loop. *)
Lemma retry_loop_S cfg ctx bad do remaining attempt lastErr :
  retry_loop cfg ctx bad do (S remaining) attempt lastErr =
  if ctx_Err ctx attempt then (inl ErrContext, [])
  else if negb (Nat.eqb attempt 0) && ctx_Done_in_backoff ctx attempt
  then (inl ErrContext, [])
  else
    then_events (backoff_events cfg attempt)
      (if bad then (inl ErrCreateRequest, [])
       else
         then_events [EvDo attempt]
           match do attempt with
           | DoFailed =>
               retry_loop cfg ctx bad do remaining (S attempt) (Some ErrRequestFailed)
           | ReadFailed =>
               retry_loop cfg ctx bad do remaining (S attempt) (Some ErrReadResponse)
           | Reply status body =>
               if Z.eqb status StatusTooManyRequests
                  || Contains body "TOO_MANY_REQUESTS"
               then
                 if ctx_Done_in_sleep429 ctx attempt then (inl ErrContext, [])
                 else
                   then_events [EvSleep (SleepOn429 cfg)]
                     (retry_loop cfg ctx bad do remaining (S attempt)
                        (Some ErrRateLimited))
               else if Contains body "QUOTA_EXCEEDED" then (inl ErrQuotaExceeded, [])
               else if Z.eqb status StatusNotFound then (inl ErrNotFound, [])
               else if Z.leb 200 status && Z.ltb status 300 then (inr body, [])
               else
                 if Z.leb 400 status && Z.ltb status 500
                 then (inl (ErrHTTP status (truncateString body 500)), [])
                 else
                   retry_loop cfg ctx bad do remaining (S attempt)
                     (Some (ErrHTTP status (truncateString body 500)))
           end).
Proof. reflexivity. Qed.

(* The loop sends at most one request per iteration. *)
Lemma retry_loop_attempts cfg ctx bad do remaining :
  forall attempt lastErr,
  attempts_made (snd (retry_loop cfg ctx bad do remaining attempt lastErr)) <= remaining.
Proof.
  induction remaining as [|n IH]; intros attempt lastErr.
  - cbn. lia.
  - rewrite retry_loop_S.
    destruct (ctx_Err ctx attempt); [cbn; lia|].
    destruct (negb (Nat.eqb attempt 0) && ctx_Done_in_backoff ctx attempt); [cbn; lia|].
    rewrite attempts_made_then, attempts_made_backoff.
    destruct bad; [cbn; lia|].
    rewrite attempts_made_then.
    change (attempts_made [EvDo attempt]) with 1.
    destruct (do attempt) as [| |status body].
    + specialize (IH (S attempt) (Some ErrRequestFailed)). lia.
    + specialize (IH (S attempt) (Some ErrReadResponse)). lia.
    + destruct (Z.eqb status StatusTooManyRequests || Contains body "TOO_MANY_REQUESTS").
      * destruct (ctx_Done_in_sleep429 ctx attempt); [cbn; lia|].
        rewrite attempts_made_then.
        change (attempts_made [EvSleep (SleepOn429 cfg)]) with 0.
        specialize (IH (S attempt) (Some ErrRateLimited)). lia.
      * destruct (Contains body "QUOTA_EXCEEDED"); [cbn; lia|].
        destruct (Z.eqb status StatusNotFound); [cbn; lia|].
        destruct (Z.leb 200 status && Z.ltb status 300); [cbn; lia|].
        destruct (Z.leb 400 status && Z.ltb status 500); [cbn; lia|].
        specialize (IH (S attempt) (Some (ErrHTTP status (truncateString body 500)))).
        lia.
Qed.

(* A rate-limited reply: the request, the sleep of SleepOn429, then the
   next iteration of the loop, with one iteration fewer to go. *)
Lemma retry_loop_rate_limited cfg ctx do remaining attempt lastErr :
  ctx_Err ctx attempt = false ->
  ctx_Done_in_backoff ctx attempt = false ->
  ctx_Done_in_sleep429 ctx attempt = false ->
  is_rate_limited (do attempt) = true ->
  retry_loop cfg ctx false do (S remaining) attempt lastErr =
  then_events (backoff_events cfg attempt ++ [EvDo attempt; EvSleep (SleepOn429 cfg)])
    (retry_loop cfg ctx false do remaining (S attempt) (Some ErrRateLimited)).
Proof.
  intros H1 H2 H3 H4. rewrite retry_loop_S. rewrite H1, H2, andb_false_r.
  destruct (do attempt) as [| |status body]; cbn [is_rate_limited] in H4;
    try discriminate.
  rewrite H4, H3. unfold then_events. cbn [fst snd].
  rewrite <- app_assoc. reflexivity.
Qed.

(* When every reply is rate-limited the client gives up after one attempt
   per iteration, each followed by the sleep of SleepOn429. *)
Lemma retry_loop_always_rate_limited cfg do remaining :
  (forall n, is_rate_limited (do n) = true) ->
  forall attempt lastErr,
  fst (retry_loop cfg ctx_background false do (S remaining) attempt lastErr) =
    inl (ErrMaxRetries ErrRateLimited) /\
  attempts_made (snd (retry_loop cfg ctx_background false do (S remaining) attempt lastErr))
    = S remaining.
Proof.
  intros Hall. induction remaining as [|n IH]; intros attempt lastErr.
  - rewrite retry_loop_rate_limited by auto.
    rewrite attempts_made_then, attempts_made_app, attempts_made_backoff.
    split; reflexivity.
  - rewrite retry_loop_rate_limited by auto.
    destruct (IH (S attempt) (Some ErrRateLimited)) as [I1 I2].
    rewrite attempts_made_then, attempts_made_app, attempts_made_backoff, I2.
    split; [exact I1|reflexivity].
Qed.

(** C8 (as the code has it). A reply with status 429 or with
    TOO_MANY_REQUESTS in its body makes the client wait SleepOn429 and go
    on to the next iteration of its loop, and that attempt has used up one
    of the loop's iterations like any other. The loop has MaxRetries + 1
    iterations: the client never sends more than MaxRetries + 1 requests,
    and when every reply is rate-limited it sends exactly MaxRetries + 1
    and gives up with "max retries exceeded: rate limited". *)
Theorem DoWithRetry_rate_limit cfg :
  (forall ctx bad do,
     attempts_made (snd (DoWithRetry cfg ctx bad do)) <= Z.to_nat (MaxRetries cfg + 1)) /\
  (forall ctx do remaining attempt lastErr,
     ctx_Err ctx attempt = false ->
     ctx_Done_in_backoff ctx attempt = false ->
     ctx_Done_in_sleep429 ctx attempt = false ->
     is_rate_limited (do attempt) = true ->
     retry_loop cfg ctx false do (S remaining) attempt lastErr =
     then_events
       (backoff_events cfg attempt ++ [EvDo attempt; EvSleep (SleepOn429 cfg)])
       (retry_loop cfg ctx false do remaining (S attempt) (Some ErrRateLimited))) /\
  (forall do,
     (0 <= MaxRetries cfg)%Z ->
     (forall n, is_rate_limited (do n) = true) ->
     fst (DoWithRetry cfg ctx_background false do) = inl (ErrMaxRetries ErrRateLimited) /\
     attempts_made (snd (DoWithRetry cfg ctx_background false do))
       = Z.to_nat (MaxRetries cfg + 1)).
Proof.
  split; [|split].
  - intros. apply retry_loop_attempts.
  - intros. apply retry_loop_rate_limited; auto.
  - intros do Hpos Hall. unfold DoWithRetry.
    destruct (Z.to_nat (MaxRetries cfg + 1)) as [|n] eqn:E; [lia|].
    apply retry_loop_always_rate_limited; auto.
Qed.

Lemma DoWithRetry_rate_limit_witness :
  fst (DoWithRetry default_RateLimitConfig ctx_background false always_429)
    = inl (ErrMaxRetries ErrRateLimited) /\
  attempts_made (snd (DoWithRetry default_RateLimitConfig ctx_background false always_429))
    = Z.to_nat (MaxRetries default_RateLimitConfig + 1).
Proof.
  apply (proj2 (proj2 (DoWithRetry_rate_limit default_RateLimitConfig)) always_429).
  - vm_compute. discriminate.
  - intros n. reflexivity.
Defined.

(** C8, the claim as stated fails: with the default configuration
    (MaxRetries = 5) and an upstream that answers 429 to every request,
    the client sends six requests, one more than MaxRetries, and then
    gives up with "max retries exceeded: rate limited": the decision to
    give up rests on rate-limited attempts alone. *)
Lemma DoWithRetry_counts_rate_limited_attempts :
  MaxRetries default_RateLimitConfig = 5%Z /\
  DoWithRetry default_RateLimitConfig ctx_background false always_429 =
    (inl (ErrMaxRetries ErrRateLimited),
     [EvDo 0; EvSleep 30000000000;
      EvSleep 1000000000; EvDo 1; EvSleep 30000000000;
      EvSleep 2000000000; EvDo 2; EvSleep 30000000000;
      EvSleep 3000000000; EvDo 3; EvSleep 30000000000;
      EvSleep 5000000000; EvDo 4; EvSleep 30000000000;
      EvSleep 7000000000; EvDo 5; EvSleep 30000000000]) /\
  attempts_made (snd (DoWithRetry default_RateLimitConfig ctx_background false always_429))
    = 6.
Proof.
  split; [reflexivity|]. split; vm_compute; reflexivity.
Qed.



(* ===================================================================== *)
(* The orchestrator                                                      *)
(* ===================================================================== *)

Lemma never_faults_no_fault env lo hi : never_faults env -> no_fault env lo hi.
Proof. intros H t _. apply H. Qed.

(** C10. When the sweep of a collector returns no domain, no DNS record
    and no error, RunCollector calls neither merge: it returns the stats
    found = added = updated = removed = 0 with a nil error and the
    database, step counter included, is the one of before the call; so
    every row of the inventory, the active rows of the collector's source
    among them, is as it was. *)
Theorem RunCollector_empty_sweep env c w result :
  c_Collect c = (result, None) ->
  res_Domains result = [] ->
  res_DNSRecords result = [] ->
  RunCollector env c w = (Some (mkSyncStats 0 0 0 0), None, w) /\
  (forall r, In r (domains (w_db w)) ->
     dom_registrar r = c_Source c -> dom_status r = active ->
     In r (domains (w_db (snd (RunCollector env c w))))) /\
  (forall x, In x (dns_records (w_db w)) ->
     dns_source x = c_Source c -> dns_status x = active ->
     In x (dns_records (w_db (snd (RunCollector env c w))))).
Proof.
  intros Hc Hd Hr.
  assert (RunCollector env c w = (Some (mkSyncStats 0 0 0 0), None, w)) as E.
  { unfold RunCollector. rewrite Hc, Hd, Hr. reflexivity. }
  rewrite E. simpl. auto.
Qed.

Lemma RunCollector_empty_sweep_witness :
  RunCollector (day_env 11) (GoDaddyCollector (empty_result, None)) world_day10
    = (Some (mkSyncStats 0 0 0 0), None, world_day10) /\
  In row_b_day10
    (domains (w_db (snd (RunCollector (day_env 11)
                           (GoDaddyCollector (empty_result, None)) world_day10)))).
Proof.
  destruct (RunCollector_empty_sweep (day_env 11)
              (GoDaddyCollector (empty_result, None)) world_day10 empty_result
              eq_refl eq_refl eq_refl) as [H1 [H2 _]].
  split; [exact H1|].
  apply H2; [vm_compute; tauto|reflexivity|reflexivity].
Defined.

(* ---------------- a run whose merges succeed ---------------- *)

Lemma RunCollector_success env c w result :
  never_faults env ->
  c_Collect c = (result, None) ->
  exists stats w',
    RunCollector env c w = (Some stats, None, w') /\
    st_Found stats = (len (res_Domains result) + len (res_DNSRecords result))%Z /\
    sync_rows (w_db w') = sync_rows (w_db w).
Proof.
  intros Hnf Hc. unfold RunCollector. rewrite Hc.
  destruct (len (res_Domains result) >? 0)%Z.
  - destruct (MergeDomains_total env (c_Source c) (res_Domains result) w)
      as [ds [w1 E1]]; [apply never_faults_no_fault; auto|].
    rewrite E1.
    destruct (MergeDomains_other_tables _ _ _ _ _ _ E1) as [_ [S1 _]].
    destruct (len (res_DNSRecords result) >? 0)%Z.
    + destruct (MergeDNSRecords_total env (c_Source c) (res_DNSRecords result) w1)
        as [rs [w2 E2]]; [apply never_faults_no_fault; auto|].
      rewrite E2.
      destruct (MergeDNSRecords_other_tables _ _ _ _ _ _ E2) as [_ [S2 _]].
      eexists. eexists. split; [reflexivity|]. simpl. split; [reflexivity|congruence].
    + eexists. eexists. split; [reflexivity|]. simpl. split; [reflexivity|congruence].
  - destruct (len (res_DNSRecords result) >? 0)%Z.
    + destruct (MergeDNSRecords_total env (c_Source c) (res_DNSRecords result) w)
        as [rs [w2 E2]]; [apply never_faults_no_fault; auto|].
      rewrite E2.
      destruct (MergeDNSRecords_other_tables _ _ _ _ _ _ E2) as [_ [S2 _]].
      eexists. eexists. split; [reflexivity|]. simpl. split; [reflexivity|congruence].
    + eexists. eexists. split; [reflexivity|]. simpl. split; [reflexivity|reflexivity].
Qed.

(* A collector that returns a result and a nil error, run by an instance
   that is alone, with no run of it in progress and a database that does
   not fail: the Sync Run is recorded completed, with the counts. *)
Lemma runCollector_completed env c triggerType locks w result :
  never_faults env ->
  mutex_held locks (c_Name c) <> Some true ->
  select_running_id (c_Name c) (sync_rows (w_db w)) = None ->
  c_Collect c = (result, None) ->
  exists stats locks' w' started finished,
    runCollector env (fun db => db) c triggerType locks w =
      (Synced (Some (next_id (w_db w))) stats None true, locks', w') /\
    rel_Found stats = (len (res_Domains result) + len (res_DNSRecords result))%Z /\
    In (completed_sync_row (next_id (w_db w)) (c_Name c) (c_Type c) triggerType
          started finished stats)
       (sync_rows (w_db w')).
Proof.
  intros Hnf Hfree Hsel Hc.
  destruct (TryLock_free locks (c_Name c) Hfree) as [T _].
  unfold runCollector, TryAcquire. rewrite T.
  unfold db_QueryRow_running_id. rewrite (Hnf (w_tick w)), Hsel.
  unfold db_QueryRow_insert_sync. cbn [w_db w_tick].
  rewrite (Hnf (S (w_tick w))).
  apply select_running_id_existsb in Hsel. rewrite Hsel, andb_false_r.
  cbn [acq_error acq_acquired acq_syncID negb].
  match goal with
  | |- context [RunCollector env c ?w1] =>
      destruct (RunCollector_success env c w1 result Hnf Hc) as [stats [w2 [E [F S]]]]
  end.
  rewrite E. unfold Release. rewrite (Hnf (w_tick w2)).
  cbn [option_map].
  eexists. eexists. eexists. eexists. eexists.
  split; [reflexivity|]. split; [exact F|].
  cbn [w_db sync_rows set_sync_rows]. rewrite S. cbn [w_db sync_rows].
  unfold update_sync_status. apply in_map_iff.
  eexists. split; [|apply in_or_app; right; left; reflexivity].
  cbn [sync_id new_sync_row]. rewrite Nat.eqb_refl. reflexivity.
Qed.



(* ===================================================================== *)
(* The marker-paginated collector                                        *)
(* ===================================================================== *)

(* fetchDNSRecords sends requests for its own domain only. *)
Lemma fetchDNSRecords_loop_trace fuel cfg up domain now :
  forall allRecords offset trace res trace',
  fetchDNSRecords_loop fuel cfg up domain now allRecords offset trace = (res, trace') ->
  exists reqs, trace' = trace ++ reqs /\ Forall (is_records_request domain) reqs.
Proof.
  induction fuel as [|fuel IH]; intros allRecords offset trace res trace' H; simpl in H.
  - inversion H; subst. exists []. rewrite app_nil_r. auto.
  - destruct (up_ctx_cancelled up (List.length trace)).
    { inversion H; subst. exists []. rewrite app_nil_r. auto. }
    assert (Forall (is_records_request domain)
              [ReqRecords domain (RecordsLimit cfg) offset]) as Hone.
    { constructor; [|constructor]. exists (RecordsLimit cfg), offset. reflexivity. }
    destruct (up_records up (List.length trace) domain (RecordsLimit cfg) offset)
      as [records| |e].
    + destruct (Nat.eqb (List.length records) 0).
      { inversion H; subst. eexists. split; [reflexivity|exact Hone]. }
      destruct (len records <? RecordsLimit cfg)%Z.
      { inversion H; subst. eexists. split; [reflexivity|exact Hone]. }
      apply IH in H. destruct H as [reqs [E F]].
      exists (ReqRecords domain (RecordsLimit cfg) offset :: reqs).
      split.
      * rewrite E, <- app_assoc. reflexivity.
      * constructor; auto. exists (RecordsLimit cfg), offset. reflexivity.
    + inversion H; subst. eexists. split; [reflexivity|exact Hone].
    + inversion H; subst. eexists. split; [reflexivity|exact Hone].
Qed.

(* The first page of a domain answers QUOTA_EXCEEDED: fetchDNSRecords
   returns the client's error as it is. *)
Lemma fetchDNSRecords_quota fuel cfg up domain trace :
  up_ctx_cancelled up (List.length trace) = false ->
  up_records up (List.length trace) domain (RecordsLimit cfg) 0 = GetErr ErrQuotaExceeded ->
  fetchDNSRecords (S fuel) cfg up domain trace =
    (FetchErr (CollectHttp ErrQuotaExceeded),
     trace ++ [ReqRecords domain (RecordsLimit cfg) 0]).
Proof.
  intros Hc Hq. unfold fetchDNSRecords. simpl. rewrite Hc, Hq. reflexivity.
Qed.

(* A prefix of the domains that the loop of step 2 goes through to its
   end, then the rest. *)
Lemma collect_records_app fuel cfg up pre rest :
  forall records trace recs trace1,
  collect_records fuel cfg up pre records trace =
    (FetchOK (mkStep2 recs None false), trace1) ->
  collect_records fuel cfg up (pre ++ rest) records trace =
  collect_records fuel cfg up rest recs trace1.
Proof.
  induction pre as [|d pre IH]; intros records trace recs trace1 H; simpl in H.
  - inversion H; subst. reflexivity.
  - simpl. destruct (up_ctx_cancelled up (List.length trace)); [discriminate|].
    destruct (fetchDNSRecords fuel cfg up (gd_name d) trace) as [[rs|e| |] tr].
    + apply IH. exact H.
    + destruct (err_IsQuotaExceeded e); [discriminate|]. apply IH. exact H.
    + discriminate.
    + discriminate.
Qed.

(** C6. The domain list was fetched; the record fetches of the domains
    before dk went through (each returned records, or an error that is
    not a quota error and was skipped); the fetch client reports
    QuotaExceeded during the record fetch of dk. Then Collect returns a
    nil error and a result that holds every domain of the list (the ones
    after dk too) and every record collected before dk, with result.Error
    nil (the records collected are those of result.DNSRecords: pages of
    dk read before the quota error are dropped by fetchDNSRecords, which
    returns nil records with its error); after the requests for dk it
    sends no request at all, so no
    domain after dk is enumerated; and the orchestrator, run by an
    instance that holds no run of this collector and whose database does
    not fail, releases the lock with a nil error: the Sync Run is recorded
    completed, with found = the domains plus the records collected, and
    the export is called. *)
Theorem Collect_quota_exceeded fuel cfg up pre dk post trace0 recs trace1 e trace2 :
  fetchAllDomains fuel cfg up [] = (FetchOK (pre ++ dk :: post), trace0) ->
  collect_records fuel cfg up pre [] trace0 =
    (FetchOK (mkStep2 recs None false), trace1) ->
  up_ctx_cancelled up (List.length trace1) = false ->
  fetchDNSRecords fuel cfg up (gd_name dk) trace1 = (FetchErr e, trace2) ->
  err_IsQuotaExceeded e = true ->
  exists result,
    Collect fuel cfg up = (FetchOK (result, None), trace2) /\
    res_Domains result =
      map (domain_of_godaddy (up_now up (List.length trace0))) (pre ++ dk :: post) /\
    res_DNSRecords result = recs /\
    res_Error result = None /\
    (exists reqs, trace2 = trace1 ++ reqs /\
                  Forall (is_records_request (gd_name dk)) reqs) /\
    (forall env triggerType locks w,
       never_faults env ->
       mutex_held locks "godaddy_dns" <> Some true ->
       select_running_id "godaddy_dns" (sync_rows (w_db w)) = None ->
       exists stats locks' w' started finished,
         runCollector env (fun db => db) (GoDaddyCollector (result, None))
           triggerType locks w =
           (Synced (Some (next_id (w_db w))) stats None true, locks', w') /\
         rel_Found stats = (len (pre ++ dk :: post) + len recs)%Z /\
         In (completed_sync_row (next_id (w_db w)) "godaddy_dns" "dns_records"
               triggerType started finished stats)
            (sync_rows (w_db w'))).
Proof.
  intros Hdom Hpre Hctx Hfetch Hquota.
  eexists. split; [|split; [|split; [|split; [|split]]]].
  - unfold Collect. rewrite Hdom.
    rewrite (collect_records_app fuel cfg up pre (dk :: post) [] trace0 recs trace1 Hpre).
    cbn [collect_records]. rewrite Hctx, Hfetch, Hquota.
    cbn [s2_records s2_error]. reflexivity.
  - reflexivity.
  - reflexivity.
  - reflexivity.
  - unfold fetchDNSRecords in Hfetch.
    eapply fetchDNSRecords_loop_trace; eauto.
  - intros env triggerType locks w Hnf Hfree Hsel.
    match goal with
    | |- context [GoDaddyCollector (?res, None)] =>
        destruct (runCollector_completed env (GoDaddyCollector (res, None)) triggerType
                    locks w res Hnf Hfree Hsel eq_refl)
          as [stats [locks' [w' [started [finished [R [F I]]]]]]]
    end.
    exists stats, locks', w', started, finished.
    split; [exact R|]. split; [|exact I].
    rewrite F. cbn [res_Domains res_DNSRecords]. unfold len.
    rewrite length_map. reflexivity.
Qed.

Lemma never_faults_day_env day : never_faults (day_env day).
Proof. intros t. reflexivity. Qed.

Lemma Collect_quota_exceeded_witness :
  exists result,
    Collect 5 default_GoDaddyConfig quota_upstream =
      (FetchOK (result, None),
       [ReqDomains 1000 None; ReqRecords "a.com" 100 0; ReqRecords "b.com" 100 0]) /\
    res_Domains result =
      map (domain_of_godaddy epoch) [gd "a.com"; gd "b.com"; gd "c.com"] /\
    res_DNSRecords result =
      [mkDNSRecord "a.com" "www" "A" "1.2.3.4" 300 0 "GoDaddy" "active" epoch epoch
         (Some "{}")] /\
    exists stats locks' w' started finished,
      runCollector (day_env 10) (fun db => db) (GoDaddyCollector (result, None))
        "manual" [] (mkWorld initial_schema_up_sql 0) =
        (Synced (Some 0) stats None true, locks', w') /\
      rel_Found stats = 4%Z /\
      In (completed_sync_row 0 "godaddy_dns" "dns_records" "manual"
            started finished stats)
         (sync_rows (w_db w')).
Proof.
  destruct (Collect_quota_exceeded 5 default_GoDaddyConfig quota_upstream
              [gd "a.com"] (gd "b.com") [gd "c.com"]
              [ReqDomains 1000 None]
              [mkDNSRecord "a.com" "www" "A" "1.2.3.4" 300 0 "GoDaddy" "active"
                 epoch epoch (Some "{}")]
              [ReqDomains 1000 None; ReqRecords "a.com" 100 0]
              (CollectHttp ErrQuotaExceeded)
              [ReqDomains 1000 None; ReqRecords "a.com" 100 0; ReqRecords "b.com" 100 0])
    as [result [H1 [H2 [H3 [H4 [H5 H6]]]]]];
    try (vm_compute; reflexivity).
  exists result. split; [exact H1|]. split; [exact H2|]. split; [exact H3|].
  apply (H6 (day_env 10) "manual" [] (mkWorld initial_schema_up_sql 0)).
  - apply never_faults_day_env.
  - discriminate.
  - reflexivity.
Defined.

(* ---------------- the marker ---------------- *)

(** C9, the code at the failing inputs. With a page size of two, the
    first page is a.com, test-x.com: the marker the collector sends for
    the second page is "a.com", the last domain it kept, not
    "test-x.com", the last domain of the page; the second page then
    starts over at test-x.com. When every domain of a full page is
    filtered out there is no last kept domain and the index expression
    allDomains[len(allDomains)-1] panics. *)
Lemma fetchAllDomains_marker_is_last_kept_domain :
  fetchAllDomains 10 (mkGoDaddyConfig 2 100) marker_upstream [] =
    (FetchOK [gd "a.com"; gd "b.com"],
     [ReqDomains 2 None; ReqDomains 2 (Some "a.com"); ReqDomains 2 (Some "b.com")]) /\
  fetchAllDomains 10 (mkGoDaddyConfig 2 100) filtered_upstream [] =
    (FetchPanic, [ReqDomains 2 None]).
Proof.
  split; vm_compute; reflexivity.
Qed.

